(** * Verification of the statistics worker of BenchExec's table generator

    Source: [benchexec/tablegenerator/react-table/src/workers/scripts/stats.worker.js].

    The worker receives a batch of rows and a transaction token, groups the
    rows into buckets, computes sum, mean, median, minimum, maximum and
    standard deviation per bucket and for the whole batch, and posts the
    result back with every value turned into text.

    The development is a shallow embedding of that file.  JavaScript numbers
    are IEEE-754 binary64 values, modelled by [spec_float] of the standard
    library with precision 53 and maximal exponent 1024.  JavaScript strings
    are modelled by [string]; one character stands for one code unit.
    Exceptions are modelled by the [Throw] outcome of the [result] type.  The
    row objects of a request live in a heap indexed by addresses, because the
    worker rewrites some of them in place. *)

From Stdlib Require Import ZArith List String Ascii Bool Lia Permutation.
From Stdlib Require Import SpecFloat DecimalString.
Import ListNotations.

Local Open Scope string_scope.
Local Open Scope Z_scope.

(* ================================================================= *)
(** * Exceptions *)

Inductive error := TypeError | RangeError.

Inductive result (A : Type) : Type :=
  | Ok (a : A)
  | Throw (e : error).

Arguments Ok {A} a.
Arguments Throw {A} e.

Definition bind {A B} (m : result A) (k : A -> result B) : result B :=
  match m with
  | Ok a => k a
  | Throw e => Throw e
  end.

Notation "x <- m ;; k" := (bind m (fun x => k))
  (at level 61, m at next level, right associativity).
Notation "' p <- m ;; k" := (bind m (fun p => k))
  (at level 61, p pattern, m at next level, right associativity).

(* ================================================================= *)
(** * Numbers *)

Module JSNumber.

Definition number := spec_float.

Definition prec : Z := 53.
Definition emax : Z := 1024.

Definition NaN : number := S754_nan.
Definition Infinity : number := S754_infinity false.
Definition NegInfinity : number := S754_infinity true.

(** The number nearest to an integer (ties to even). *)
Definition of_Z (z : Z) : number := binary_normalize prec emax z 0 false.

Definition add : number -> number -> number := SFadd prec emax.
Definition sub : number -> number -> number := SFsub prec emax.
Definition mul : number -> number -> number := SFmul prec emax.
Definition div : number -> number -> number := SFdiv prec emax.
Definition sqrt : number -> number := SFsqrt prec emax.

(** [Math.pow(x, 2)]: the square of [x], rounded once. *)
Definition pow2 (x : number) : number := mul x x.

(** [a === b], [a < b] and [a > b] on numbers. *)
Definition eqb (a b : number) : bool := SFeqb a b.
Definition ltb (a b : number) : bool := SFltb a b.
Definition gtb (a b : number) : bool := SFltb b a.

Definition isNaN (x : number) : bool :=
  match x with S754_nan => true | _ => false end.

(** [Number.isInteger]. *)
Definition isInteger (x : number) : bool :=
  match x with
  | S754_zero _ => true
  | S754_finite _ m e =>
      if 0 <=? e then true else (Zpos m mod 2 ^ (- e) =? 0)
  | _ => false
  end.

(** [ToBoolean] on a number: zero and NaN are falsy. *)
Definition truthy (x : number) : bool :=
  match x with
  | S754_zero _ | S754_nan => false
  | _ => true
  end.

(** Structural equality; the results of the operations above are in
    canonical form, so this is identity of numbers (it tells [+0] from
    [-0]). *)
Definition same (a b : number) : bool :=
  match a, b with
  | S754_zero s, S754_zero t => Bool.eqb s t
  | S754_infinity s, S754_infinity t => Bool.eqb s t
  | S754_nan, S754_nan => true
  | S754_finite s m e, S754_finite t n f =>
      Bool.eqb s t && Pos.eqb m n && Z.eqb e f
  | _, _ => false
  end.

(** ** Decimal text to number

    [of_decimal neg m e10] is the number nearest to [m * 10 ^ e10] (with the
    sign [neg]), rounded once, ties to even. *)
Definition of_decimal (neg : bool) (m : positive) (e10 : Z) : number :=
  if 0 <=? e10 then
    binary_normalize prec emax (cond_Zopp neg (Zpos m * 10 ^ e10)) 0 false
  else
    let '(q, e, l) :=
      SFdiv_core_binary prec emax (Zpos m) 0 (10 ^ (- e10)) 0 in
    binary_round_aux prec emax neg q e l.

Definition is_ws (c : ascii) : bool :=
  match nat_of_ascii c with
  | 9%nat | 10%nat | 11%nat | 12%nat | 13%nat | 32%nat | 160%nat => true
  | _ => false
  end.

Fixpoint drop_ws (l : list ascii) : list ascii :=
  match l with
  | c :: r => if is_ws c then drop_ws r else l
  | [] => []
  end.

Definition trim (l : list ascii) : list ascii :=
  rev (drop_ws (rev (drop_ws l))).

Definition digit_of (radix : Z) (c : ascii) : option Z :=
  let n := Z.of_nat (nat_of_ascii c) in
  let d :=
    if (48 <=? n) && (n <=? 57) then n - 48
    else if (97 <=? n) && (n <=? 122) then n - 87
    else if (65 <=? n) && (n <=? 90) then n - 55
    else radix in
  if d <? radix then Some d else None.

Fixpoint take_digits (radix : Z) (l : list ascii) : list Z * list ascii :=
  match l with
  | c :: r =>
      match digit_of radix c with
      | Some d => let '(ds, rest) := take_digits radix r in (d :: ds, rest)
      | None => ([], l)
      end
  | [] => ([], [])
  end.

Definition digits_value (radix : Z) (ds : list Z) : Z :=
  fold_left (fun a d => radix * a + d) ds 0.

Definition ascii_in (c : ascii) (s : string) : bool :=
  existsb (Ascii.eqb c) (list_ascii_of_string s).

(** The exponent part, if any; [None] when the text is ill-formed. *)
Definition parse_exponent (l : list ascii) : option Z :=
  match l with
  | [] => Some 0
  | c :: r =>
      if ascii_in c "eE"%string then
        let '(neg, r') :=
          match r with
          | s :: t =>
              if Ascii.eqb s "+"%char then (false, t)
              else if Ascii.eqb s "-"%char then (true, t)
              else (false, r)
          | [] => (false, r)
          end in
        match take_digits 10 r' with
        | (d :: ds, []) => Some (cond_Zopp neg (digits_value 10 (d :: ds)))
        | _ => None
        end
      else None
  end.

(** [StrUnsignedDecimalLiteral] with the sign already read. *)
Definition parse_unsigned_decimal (neg : bool) (l : list ascii) : number :=
  if String.eqb (string_of_list_ascii l) "Infinity"%string then S754_infinity neg
  else
    let '(ip, r1) := take_digits 10 l in
    let '(fp, r2) :=
      match r1 with
      | c :: t => if Ascii.eqb c "."%char then take_digits 10 t else ([], r1)
      | [] => ([], r1)
      end in
    match (ip ++ fp)%list with
    | [] => NaN
    | ds =>
        match parse_exponent r2 with
        | None => NaN
        | Some ex =>
            match digits_value 10 ds with
            | Zpos p => of_decimal neg p (ex - Z.of_nat (List.length fp))
            | _ => S754_zero neg
            end
        end
    end.

(** [NonDecimalIntegerLiteral] after its prefix. *)
Definition parse_radix (radix : Z) (l : list ascii) : number :=
  match take_digits radix l with
  | (d :: ds, []) => of_Z (digits_value radix (d :: ds))
  | _ => NaN
  end.

(** [StringToNumber]: what [Number(s)] returns for a string [s]. *)
Definition of_string (s : string) : number :=
  match trim (list_ascii_of_string s) with
  | [] => S754_zero false
  | c :: r =>
      if Ascii.eqb c "+"%char then parse_unsigned_decimal false r
      else if Ascii.eqb c "-"%char then parse_unsigned_decimal true r
      else
        match Ascii.eqb c "0"%char, r with
        | true, x :: r' =>
            if ascii_in x "xX"%string then parse_radix 16 r'
            else if ascii_in x "oO"%string then parse_radix 8 r'
            else if ascii_in x "bB"%string then parse_radix 2 r'
            else parse_unsigned_decimal false (c :: r)
        | _, _ => parse_unsigned_decimal false (c :: r)
        end
  end.

(** ** Number to text

    [Number::toString] with radix 10: the shortest decimal digits [s] (there
    are [k] of them) and the exponent [n] such that [s * 10 ^ (n - k)] reads
    back as the number; among several, the one nearest to the number. *)

Definition digits_string (z : Z) : string :=
  NilZero.string_of_uint (N.to_uint (Z.to_N z)).

Fixpoint zeros (n : nat) : string :=
  match n with
  | O => EmptyString
  | S n' => String "0" (zeros n')
  end.

(** [10 ^ n <= num / den] *)
Definition ge_pow10 (num den n : Z) : bool :=
  if 0 <=? n then 10 ^ n * den <=? num else den <=? num * 10 ^ (- n).

(** The largest [n'] at most [n] with [10 ^ n' <= num / den]. *)
Fixpoint find_exp (fuel : nat) (num den n : Z) : Z :=
  match fuel with
  | O => n
  | S f => if ge_pow10 num den n then n else find_exp f num den (n - 1)
  end.

(** The digits for [k] significant digits, if some decimal with [k] digits
    reads back as [x = num / den]; [n0] is such that
    [10 ^ (n0 - 1) <= x < 10 ^ n0]. *)
Definition digits_for (x : number) (num den n0 k : Z) : option (Z * Z) :=
  let q := n0 - k in
  let num' := if 0 <=? q then num else num * 10 ^ (- q) in
  let den' := if 0 <=? q then den * 10 ^ q else den in
  let lo := num' / den' in
  let hi := lo + 1 in
  let back s := match s with Zpos p => same (of_decimal false p q) x | _ => false end in
  let pick s := if s =? 10 ^ k then Some (10 ^ (k - 1), n0 + 1) else Some (s, n0) in
  match back lo, back hi with
  | true, false => pick lo
  | false, true => pick hi
  | false, false => None
  | true, true =>
      match 2 * num' ?= (2 * lo + 1) * den' with
      | Lt => pick lo
      | Gt => pick hi
      | Eq => if Z.even lo then pick lo else pick hi
      end
  end.

Fixpoint shortest (fuel : nat) (x : number) (num den n0 k : Z) : Z * Z :=
  match fuel with
  | O => (0, n0)
  | S f =>
      match digits_for x num den n0 k with
      | Some r => r
      | None => shortest f x num den n0 (k + 1)
      end
  end.

Definition format_decimal (ds : string) (n : Z) : string :=
  let k := Z.of_nat (String.length ds) in
  if (k <=? n) && (n <=? 21) then ds ++ zeros (Z.to_nat (n - k))
  else if (0 <? n) && (n <=? 21) then
    substring 0 (Z.to_nat n) ds ++ "." ++ substring (Z.to_nat n) (Z.to_nat (k - n)) ds
  else if (-6 <? n) && (n <=? 0) then "0." ++ zeros (Z.to_nat (- n)) ++ ds
  else
    let e := n - 1 in
    let es := (if e <? 0 then "-" else "+") ++ digits_string (Z.abs e) in
    if k =? 1 then ds ++ "e" ++ es
    else substring 0 1 ds ++ "." ++ substring 1 (Z.to_nat (k - 1)) ds ++ "e" ++ es.

(** The search for the decimal exponent of [x = num / den] starts just above
    it: with [2 ^ bits <= x < 2 ^ (bits + 1)], the logarithm of [x] to base
    10 is below [(bits + 1) * 0.30103], up to an error far below one. *)
Definition to_string_pos (m : positive) (e : Z) : string :=
  let num := Zpos m * 2 ^ (Z.max e 0) in
  let den := 2 ^ (Z.max (- e) 0) in
  let bits := Z.log2 num - Z.log2 den in
  let start := (bits + 1) * 30103 / 100000 + 1 in
  let n0 := find_exp 8 num den start + 1 in
  let '(s, n) := shortest 17 (S754_finite false m e) num den n0 1 in
  format_decimal (digits_string s) n.

Definition to_string (x : number) : string :=
  match x with
  | S754_nan => "NaN"
  | S754_zero _ => "0"
  | S754_infinity false => "Infinity"
  | S754_infinity true => "-Infinity"
  | S754_finite false m e => to_string_pos m e
  | S754_finite true m e => "-" ++ to_string_pos m e
  end.

(** ** [Number.prototype.toFixed] *)

Definition fixed_digits (n f : Z) : string :=
  let m := digits_string n in
  if f =? 0 then m
  else
    let k := Z.of_nat (String.length m) in
    let m' := if k <=? f then zeros (Z.to_nat (f + 1 - k)) ++ m else m in
    let k' := Z.of_nat (String.length m') in
    substring 0 (Z.to_nat (k' - f)) m' ++ "." ++ substring (Z.to_nat (k' - f)) (Z.to_nat f) m'.

Definition toFixed (x : number) (f : Z) : result string :=
  if (f <? 0) || (100 <? f) then Throw RangeError
  else
    match x with
    | S754_nan | S754_infinity _ => Ok (to_string x)
    | S754_zero _ => Ok (fixed_digits 0 f)
    | S754_finite s m e =>
        let num := Zpos m * 2 ^ (Z.max e 0) in
        let den := 2 ^ (Z.max (- e) 0) in
        let sign := if s then "-" else EmptyString in
        if 10 ^ 21 * den <=? num then Ok (sign ++ to_string_pos m e)
        else Ok (sign ++ fixed_digits ((2 * num * 10 ^ f + den) / (2 * den)) f)
    end.

End JSNumber.

Import JSNumber.

(* ================================================================= *)
(** * Values, strings and objects *)

(** The values a row's [column] field and an accumulator's fields can hold. *)
Inductive value :=
  | VUndefined
  | VNull
  | VNum (n : number)
  | VStr (s : string).

(** [Number(v)], also the implicit conversion of arithmetic operators. *)
Definition ToNumber (v : value) : number :=
  match v with
  | VUndefined => NaN
  | VNull => S754_zero false
  | VNum n => n
  | VStr s => of_string s
  end.

(** The implicit conversion to text of the operator [+]. *)
Definition ToString (v : value) : string :=
  match v with
  | VUndefined => "undefined"
  | VNull => "null"
  | VNum n => to_string n
  | VStr s => s
  end.

(** The method call [v.toString()]. *)
Definition toString (v : value) : result string :=
  match v with
  | VNum n => Ok (to_string n)
  | VStr s => Ok s
  | _ => Throw TypeError
  end.

(** [a + b]: concatenation as soon as one side is a string. *)
Definition js_plus (a b : value) : value :=
  match a, b with
  | VStr _, _ | _, VStr _ => VStr (ToString a ++ ToString b)
  | _, _ => VNum (add (ToNumber a) (ToNumber b))
  end.

(** [a - b] *)
Definition js_minus (a b : value) : number := sub (ToNumber a) (ToNumber b).

(** The global [isNaN]. *)
Definition js_isNaN (v : value) : bool := isNaN (ToNumber v).

Definition Number_isInteger (v : value) : bool :=
  match v with
  | VNum n => isInteger n
  | _ => false
  end.

Definition endsWith (s suffix : string) : bool :=
  let n := String.length s in
  let m := String.length suffix in
  (m <=? n)%nat && String.eqb (substring (n - m) m s) suffix.

(** [s.replace(pat, rep)] for a string pattern: the first occurrence. *)
Fixpoint replace (s pat rep : string) : string :=
  if prefix pat s then
    rep ++ substring (String.length pat) (String.length s - String.length pat) s
  else
    match s with
    | EmptyString => EmptyString
    | String c s' => String c (replace s' pat rep)
    end.

(** [s.indexOf(".")] *)
Fixpoint indexOf_dot (s : string) : Z :=
  match s with
  | EmptyString => -1
  | String c s' =>
      if Ascii.eqb c "."%char then 0
      else let i := indexOf_dot s' in if i <? 0 then -1 else i + 1
  end.

(** Objects used as maps: own properties in insertion order. *)
Fixpoint obj_get {A} (o : list (string * A)) (k : string) : option A :=
  match o with
  | [] => None
  | (k', v) :: o' => if String.eqb k' k then Some v else obj_get o' k
  end.

Fixpoint obj_set {A} (o : list (string * A)) (k : string) (v : A)
  : list (string * A) :=
  match o with
  | [] => [(k, v)]
  | (k', v') :: o' =>
      if String.eqb k' k then (k', v) :: o' else (k', v') :: obj_set o' k v
  end.

Definition obj_delete {A} (o : list (string * A)) (k : string)
  : list (string * A) :=
  filter (fun p => negb (String.eqb (fst p) k)) o.

Fixpoint mapM {A B} (f : A -> result B) (l : list A) : result (list B) :=
  match l with
  | [] => Ok []
  | a :: l' => b <- f a ;; bs <- mapM f l' ;; Ok (b :: bs)
  end.

Fixpoint foldM {A B} (f : A -> B -> result A) (l : list B) (a : A) : result A :=
  match l with
  | [] => Ok a
  | b :: l' => a' <- f a b ;; foldM f l' a'
  end.

(** [l[i]] followed by a property access: an index outside the array gives
    [undefined], on which the access throws. *)
Definition item_at {A} (l : list A) (i : Z) : result A :=
  if i <? 0 then Throw TypeError
  else match nth_error l (Z.to_nat i) with
       | Some a => Ok a
       | None => Throw TypeError
       end.

(* ================================================================= *)
(** * Helpers of the worker *)

(** Lines 17-42. *)
Definition safeAdd (a b : value) : result value :=
  let aNum := match a with VStr _ => VNum (ToNumber a) | _ => a end in
  let bNum := match b with VStr _ => VNum (ToNumber b) | _ => b end in
  if Number_isInteger aNum || Number_isInteger bNum then Ok (js_plus aNum bNum)
  else
    aString <- toString a ;;
    let aLength := Z.of_nat (String.length aString) in
    let aDecimalPoint := indexOf_dot aString in
    bString <- toString b ;;
    let bLength := Z.of_nat (String.length bString) in
    let bDecimalPoint := indexOf_dot bString in
    let length := Z.max (aLength - aDecimalPoint) (bLength - bDecimalPoint) - 1 in
    fixed <- toFixed (ToNumber (js_plus aNum bNum)) length ;;
    Ok (VNum (of_string fixed)).

(** Lines 44-54. *)
Definition mathStringMax (a b : value) : value :=
  let numA := ToNumber a in
  let numB := ToNumber b in
  if gtb numA numB then a else b.

Definition mathStringMin (a b : value) : value :=
  let numA := ToNumber a in
  let numB := ToNumber b in
  if ltb numA numB then a else b.

(** Lines 66-74. *)
Definition maybeAdd (a b : value) (type : string) : result value :=
  if truthy (ToNumber b) then safeAdd a b
  else if String.eqb type "status" then Ok (js_plus a (VNum (of_Z 1)))
  else Ok a.

(** Lines 99-107. *)
Definition calculateStdev (hasNegInf hasPosInf : bool) (variance : value)
    (size : Z) : value :=
  if hasNegInf && hasPosInf then VStr "NaN"
  else if hasNegInf || hasPosInf then VNum Infinity
  else VNum (sqrt (div (ToNumber variance) (of_Z size))).

(* ================================================================= *)
(** * Rows and accumulators *)

(** A row object.  Its four descriptive properties are strings.  A row
    whose [columnTitle] is [undefined] or [null], on which the
    [val.toString()] of lines 305, 320 and 329 throws a TypeError, is not
    among these rows: what is proved here about the absence of exceptions
    holds for rows that carry a string as their title. *)
Record Row := {
  categoryType : string;
  resultType : string;
  columnType : string;
  columnTitle : string;
  column : value
}.

Definition set_column (v : value) (r : Row) : Row :=
  {| categoryType := categoryType r; resultType := resultType r;
     columnType := columnType r; columnTitle := columnTitle r; column := v |}.

(** The accumulator object of a bucket or of the grand total.  [title] and
    [items] are optional properties: the all-NaN object of a poisoned bucket
    has no [items], and the grand total has no [title] until one is set. *)
Module Stats.

Record t := {
  sum : value;
  avg : value;
  max : value;
  median : value;
  min : value;
  stdev : value;
  variance : value;
  title : option string;
  items : option (list Row)
}.

Definition set_sum (v : value) (b : t) : t :=
  {| sum := v; avg := avg b; max := max b; median := median b; min := min b;
     stdev := stdev b; variance := variance b; title := title b;
     items := items b |}.

Definition set_avg (v : value) (b : t) : t :=
  {| sum := sum b; avg := v; max := max b; median := median b; min := min b;
     stdev := stdev b; variance := variance b; title := title b;
     items := items b |}.

Definition set_max (v : value) (b : t) : t :=
  {| sum := sum b; avg := avg b; max := v; median := median b; min := min b;
     stdev := stdev b; variance := variance b; title := title b;
     items := items b |}.

Definition set_median (v : value) (b : t) : t :=
  {| sum := sum b; avg := avg b; max := max b; median := v; min := min b;
     stdev := stdev b; variance := variance b; title := title b;
     items := items b |}.

Definition set_min (v : value) (b : t) : t :=
  {| sum := sum b; avg := avg b; max := max b; median := median b; min := v;
     stdev := stdev b; variance := variance b; title := title b;
     items := items b |}.

Definition set_stdev (v : value) (b : t) : t :=
  {| sum := sum b; avg := avg b; max := max b; median := median b; min := min b;
     stdev := v; variance := variance b; title := title b;
     items := items b |}.

Definition set_variance (v : value) (b : t) : t :=
  {| sum := sum b; avg := avg b; max := max b; median := median b; min := min b;
     stdev := stdev b; variance := v; title := title b;
     items := items b |}.

Definition set_title (v : option string) (b : t) : t :=
  {| sum := sum b; avg := avg b; max := max b; median := median b; min := min b;
     stdev := stdev b; variance := variance b; title := v;
     items := items b |}.

Definition set_items (v : option (list Row)) (b : t) : t :=
  {| sum := sum b; avg := avg b; max := max b; median := median b; min := min b;
     stdev := stdev b; variance := variance b; title := title b;
     items := v |}.

End Stats.

(** Lines 132-140: the template. *)
Definition defaultObj : Stats.t :=
  {| Stats.sum := VNum (of_Z 0); Stats.avg := VNum (of_Z 0);
     Stats.max := VStr "-Infinity"; Stats.median := VNum (of_Z 0);
     Stats.min := VStr "Infinity"; Stats.stdev := VNum (of_Z 0);
     Stats.variance := VNum (of_Z 0);
     Stats.title := None; Stats.items := None |}.

(** Lines 143-146: the template with every value replaced by ["NaN"]. *)
Definition nanObj : Stats.t :=
  {| Stats.sum := VStr "NaN"; Stats.avg := VStr "NaN";
     Stats.max := VStr "NaN"; Stats.median := VStr "NaN";
     Stats.min := VStr "NaN"; Stats.stdev := VStr "NaN";
     Stats.variance := VStr "NaN";
     Stats.title := None; Stats.items := None |}.

(** [{ ...defaultObj, title, items: [] }] *)
Definition newBucket (title : string) : Stats.t :=
  Stats.set_items (Some []) (Stats.set_title (Some title) defaultObj).

(** [{ ...nanObj, title }] *)
Definition nanBucket (title : string) : Stats.t :=
  Stats.set_title (Some title) nanObj.

(** [{ ...total, ...nanObj }]: the seven template properties are
    overwritten, the others stay. *)
Definition spreadNaN (b : Stats.t) : Stats.t :=
  Stats.set_items (Stats.items b) (Stats.set_title (Stats.title b) nanObj).

(** Lines 76-88.  [allItems] is read in the last branch only. *)
Definition calculateMean (values : Stats.t) (allItems : option (list Row))
  : result Stats.t :=
  let numMin := ToNumber (Stats.min values) in
  let numMax := ToNumber (Stats.max values) in
  if eqb numMin NegInfinity && eqb numMax Infinity then
    Ok (Stats.set_avg (VStr "NaN") values)
  else if eqb numMin NegInfinity then
    Ok (Stats.set_avg (VStr "-Infinity") values)
  else if eqb numMax Infinity then
    Ok (Stats.set_avg (VStr "Infinity") values)
  else
    match allItems with
    | None => Throw TypeError
    | Some l =>
        Ok (Stats.set_avg
              (VNum (div (ToNumber (Stats.sum values))
                         (of_Z (Z.of_nat (List.length l))))) values)
    end.

(** Lines 90-98. *)
Definition calculateMedian (values : Stats.t) (allItems : option (list Row))
  : result Stats.t :=
  match allItems with
  | None => Throw TypeError
  | Some l =>
      let len := Z.of_nat (List.length l) in
      if len mod 2 =? 0 then
        let idx := len / 2 in
        lower <- item_at l (idx - 1) ;;
        upper <- item_at l idx ;;
        Ok (Stats.set_median
              (VNum (div (add (ToNumber (column lower)) (ToNumber (column upper)))
                         (of_Z 2))) values)
      else
        middle <- item_at l (len / 2) ;;
        Ok (Stats.set_median (column middle) values)
  end.

(** ** The heap of row objects

    A request's array holds references to row objects.  [None] stands for an
    entry that is [null], [undefined] or otherwise falsy. *)
Definition heap := nat -> Row.

Definition store (h : heap) (a : nat) (r : Row) : heap :=
  fun a' => if Nat.eqb a' a then r else h a'.

(** Lines 109-118.  The callback assigns to [item.column]: the row object
    itself is rewritten.  A [column] that is not a string has no [endsWith]
    method, and calling it throws. *)
Fixpoint parsePythonInfinityValues (h : heap) (data : list nat)
  : heap * result (list nat) :=
  match data with
  | [] => (h, Ok [])
  | a :: rest =>
      let item := h a in
      let continue h' :=
        let '(h'', r) := parsePythonInfinityValues h' rest in
        (h'', items <- r ;; Ok (a :: items)) in
      if String.eqb (columnType item) "status" then continue h
      else
        match column item with
        | VStr s =>
            if negb (endsWith s "Inf") then continue h
            else continue (store h a (set_column (VStr (replace s "Inf" "Infinity")) item))
        | _ => (h, Throw TypeError)
        end
  end.

(** Lines 121-126. *)
Record NaNInfo := { hasNaN : bool }.

Definition shouldSkipBucket (bucketMeta : list (string * NaNInfo))
    (key : string) : bool :=
  match obj_get bucketMeta key with
  | Some info => hasNaN info
  | None => false
  end.

(* ================================================================= *)
(** * The message handler *)

(** The serialized statistics of one bucket: property names and texts. *)
Definition Serialized := list (string * string).

(** The property values of the result object. *)
Inductive jsval :=
  | JUndefined
  | JString (s : string)
  | JObject (props : Serialized).

Record Message := {
  result_of : list (string * jsval);
  transaction_of : value
}.

(** What the handler emits: through the worker's [postMessage] or through
    the [mockedPostMessage] of the tests. *)
Inductive event :=
  | PostMessage (m : Message)
  | MockedPostMessage (m : Message).

(** Lines 339-346. *)
Definition postResult (mocked : bool) (result : list (string * jsval))
    (transaction : value) : list event :=
  let m := {| result_of := result; transaction_of := transaction |} in
  if mocked then [MockedPostMessage m] else [PostMessage m].

(** Line 148: entries that are falsy or have no [column] are dropped. *)
Definition keep (h : heap) (i : option nat) : option nat :=
  match i with
  | Some a =>
      match column (h a) with
      | VUndefined | VNull => None
      | _ => Some a
      end
  | None => None
  end.

Fixpoint filterRows (h : heap) (data : list (option nat)) : list nat :=
  match data with
  | [] => []
  | i :: rest =>
      match keep h i with
      | Some a => a :: filterRows h rest
      | None => filterRows h rest
      end
  end.

(** The comparison function of line 161. *)
Definition compareRows (a b : Row) : number := js_minus (column a) (column b).

(** A stable sort, as [Array.prototype.sort] is when the comparison function
    is consistent; a comparison that yields NaN counts as zero. *)
Fixpoint insertRow (cmp : Row -> Row -> number) (x : Row) (l : list Row)
  : list Row :=
  match l with
  | [] => [x]
  | y :: l' =>
      if ltb (cmp y x) (S754_zero false) then y :: insertRow cmp x l'
      else x :: l
  end.

Definition stableSort (cmp : Row -> Row -> number) (l : list Row) : list Row :=
  fold_right (insertRow cmp) [] l.

(** The state of the bucketing loop. *)
Record Acc := {
  buckets : list (string * Stats.t);
  bucketNaNInfo : list (string * NaNInfo);
  total : Stats.t
}.

(** The two local variables [bucket] and [subTotalBucket] of one iteration.
    They are the same object when both keys coincide and the bucket exists
    already; then a write through one is seen through the other. *)
Record Locals := {
  bucket : Stats.t;
  subTotalBucket : Stats.t;
  shared : bool
}.

Definition onBucket (f : Stats.t -> Stats.t) (l : Locals) : Locals :=
  if shared l then
    {| bucket := f (bucket l); subTotalBucket := f (bucket l); shared := true |}
  else
    {| bucket := f (bucket l); subTotalBucket := subTotalBucket l;
       shared := false |}.

Definition onSubTotal (f : Stats.t -> Stats.t) (l : Locals) : Locals :=
  if shared l then
    {| bucket := f (subTotalBucket l); subTotalBucket := f (subTotalBucket l);
       shared := true |}
  else
    {| bucket := bucket l; subTotalBucket := f (subTotalBucket l);
       shared := false |}.

Definition bucketKey (item : Row) : string :=
  categoryType item ++ "-" ++ resultType item.

Definition totalKey (item : Row) : string :=
  categoryType item ++ "-total".

(** [!total.title] *)
Definition noTitle (t : option string) : bool :=
  match t with
  | None => true
  | Some s => String.eqb s EmptyString
  end.

(** [b.items.push(item)] inside [try]; the [catch] block calls [console.e],
    which is not a function, so a failing push still throws. *)
Definition pushItem (item : Row) (b : Stats.t) : result Stats.t :=
  match Stats.items b with
  | Some l => Ok (Stats.set_items (Some (l ++ [item])%list) b)
  | None => Throw TypeError
  end.

(** Lines 173 and 200: a row that is no status row and whose value is no
    number. *)
Definition itemIsNaN (item : Row) : bool :=
  negb (String.eqb (columnType item) "status") && js_isNaN (column item).

(** Lines 182-254: one iteration of the bucketing loop. *)
Definition bucketStep (totalHasNaN : bool) (acc : Acc) (item : Row)
  : result Acc :=
  let key := bucketKey item in
  let totalKey := totalKey item in
  let type := columnType item in
  let column := column item in
  let title := columnTitle item in
  let total :=
    if noTitle (Stats.title (total acc)) then
      Stats.set_title (Some title) (total acc)
    else total acc in
  let locals :=
    {| bucket := match obj_get (buckets acc) key with
                 | Some b => b
                 | None => newBucket title
                 end;
       subTotalBucket := match obj_get (buckets acc) totalKey with
                         | Some b => b
                         | None => newBucket title
                         end;
       shared := String.eqb key totalKey &&
                 match obj_get (buckets acc) key with
                 | Some _ => true
                 | None => false
                 end |} in
  if itemIsNaN item then
    Ok {| buckets :=
            obj_set (obj_set (buckets acc) key (nanBucket title))
                    totalKey (nanBucket title);
          bucketNaNInfo :=
            obj_set (obj_set (bucketNaNInfo acc) key {| hasNaN := true |})
                    totalKey {| hasNaN := true |};
          total := total |}
  else
    let skipBucket := shouldSkipBucket (bucketNaNInfo acc) key in
    let skipSubTotal := shouldSkipBucket (bucketNaNInfo acc) totalKey in
    locals <-
      (if negb skipBucket then
         s <- maybeAdd (Stats.sum (bucket locals)) column type ;;
         Ok (onBucket (Stats.set_sum s) locals)
       else Ok locals) ;;
    locals <-
      (if negb skipSubTotal then
         s <- maybeAdd (Stats.sum (subTotalBucket locals)) column type ;;
         Ok (onSubTotal (Stats.set_sum s) locals)
       else Ok locals) ;;
    total <-
      (if negb totalHasNaN then
         s <- maybeAdd (Stats.sum total) column type ;;
         Ok (Stats.set_sum s total)
       else Ok total) ;;
    let locals :=
      if negb (js_isNaN (VNum (ToNumber column))) then
        let locals :=
          if negb skipBucket then
            onBucket (fun b => Stats.set_min (mathStringMin (Stats.min b) column) b)
              (onBucket (fun b => Stats.set_max (mathStringMax (Stats.max b) column) b)
                 locals)
          else locals in
        if negb skipSubTotal then
          onSubTotal (fun b => Stats.set_min (mathStringMin (Stats.min b) column) b)
            (onSubTotal (fun b => Stats.set_max (mathStringMax (Stats.max b) column) b)
               locals)
        else locals
      else locals in
    locals <-
      (if negb skipBucket then
         b <- pushItem item (bucket locals) ;;
         Ok (onBucket (fun _ => b) locals)
       else Ok locals) ;;
    locals <-
      (if negb skipSubTotal then
         b <- pushItem item (subTotalBucket locals) ;;
         Ok (onSubTotal (fun _ => b) locals)
       else Ok locals) ;;
    Ok {| buckets :=
            obj_set (obj_set (buckets acc) key (bucket locals))
                    totalKey (subTotalBucket locals);
          bucketNaNInfo := bucketNaNInfo acc;
          total := total |}.

(** Lines 257-265: mean and median of one bucket. *)
Definition meanMedianStep (bucketNaNInfo : list (string * NaNInfo))
    (entry : string * Stats.t) : result (string * Stats.t) :=
  let '(bucket, values) := entry in
  if shouldSkipBucket bucketNaNInfo bucket then Ok entry
  else
    values <- calculateMean values (Stats.items values) ;;
    values <- calculateMedian values (Stats.items values) ;;
    Ok (bucket, values).

(** Lines 276-290: one iteration of the variance loop.  The three
    differences are computed before any accumulator is written;
    [subTotalBucket.variance] is read again when it is updated, and that read
    sees the write to [bucket.variance] when both are the same object. *)
Definition varianceStep (st : list (string * Stats.t) * Stats.t) (item : Row)
  : result (list (string * Stats.t) * Stats.t) :=
  let '(buckets, total) := st in
  let column := column item in
  if js_isNaN (VNum (ToNumber column)) then Ok st
  else
    let numCol := ToNumber column in
    let key := bucketKey item in
    let totalKey := totalKey item in
    match obj_get buckets key, obj_get buckets totalKey with
    | Some bucket, Some subTotalBucket =>
        let diffBucket := sub numCol (ToNumber (Stats.avg bucket)) in
        let diffSubTotal := sub numCol (ToNumber (Stats.avg subTotalBucket)) in
        let diffTotal := sub numCol (ToNumber (Stats.avg total)) in
        let total :=
          Stats.set_variance
            (js_plus (Stats.variance total) (VNum (pow2 diffTotal))) total in
        let buckets :=
          obj_set buckets key
            (Stats.set_variance
               (js_plus (Stats.variance bucket) (VNum (pow2 diffBucket)))
               bucket) in
        let subTotalBucket :=
          match obj_get buckets totalKey with
          | Some b => b
          | None => subTotalBucket
          end in
        let buckets :=
          obj_set buckets totalKey
            (Stats.set_variance
               (js_plus (Stats.variance subTotalBucket)
                        (VNum (pow2 diffSubTotal)))
               subTotalBucket) in
        Ok (buckets, total)
    | _, _ => Throw TypeError
    end.

(** [Object.entries(values)] with every value replaced by [val.toString()].
    An array of rows prints as its elements joined by commas, each one as
    ["[object Object]"].  The grand total got its [items] before its
    [title]; the buckets got them the other way round. *)
Definition itemsToString (l : list Row) : string :=
  String.concat "," (map (fun _ => "[object Object]") l).

Definition stringify (itemsFirst : bool) (values : Stats.t)
  : result Serialized :=
  sum <- toString (Stats.sum values) ;;
  avg <- toString (Stats.avg values) ;;
  max <- toString (Stats.max values) ;;
  median <- toString (Stats.median values) ;;
  min <- toString (Stats.min values) ;;
  stdev <- toString (Stats.stdev values) ;;
  variance <- toString (Stats.variance values) ;;
  let title :=
    match Stats.title values with
    | Some t => [("title", t)]
    | None => []
    end in
  let items :=
    match Stats.items values with
    | Some l => [("items", itemsToString l)]
    | None => []
    end in
  Ok ([("sum", sum); ("avg", avg); ("max", max); ("median", median);
       ("min", min); ("stdev", stdev); ("variance", variance)]
      ++ (if itemsFirst then items ++ title else title ++ items))%list.

(** Lines 302-326: standard deviation and serialization of one bucket. *)
Definition serializeStep (bucketNaNInfo : list (string * NaNInfo))
    (total : Stats.t) (entry : string * Stats.t)
  : result (string * Serialized) :=
  let '(bucket, values) := entry in
  if shouldSkipBucket bucketNaNInfo bucket then
    out <- stringify false values ;;
    Ok (bucket, out)
  else
    let valuesHaveNegInf := eqb (ToNumber (Stats.min values)) NegInfinity in
    let valuesHavePosInf := eqb (ToNumber (Stats.max total)) Infinity in
    match Stats.items values with
    | None => Throw TypeError
    | Some items =>
        let values :=
          Stats.set_stdev
            (calculateStdev valuesHaveNegInf valuesHavePosInf
               (Stats.variance values) (Z.of_nat (List.length items)))
            values in
        out <- stringify false values ;;
        Ok (bucket, obj_delete (obj_delete out "items") "variance")
    end.

Section Worker.

(** [Array.prototype.sort].  The comparison function of line 161 yields NaN
    on a column that is no number; the order of the result is then left to
    the implementation, so the handler is stated for any sorting function. *)
Variable array_sort : (Row -> Row -> number) -> list Row -> list Row.

(** Lines 153-336: the handler once the rows are filtered and normalized. *)
Definition summarize (mocked : bool) (copy : list Row) (transaction : value)
  : result (list event) :=
  match copy with
  | [] => Ok (postResult mocked [("total", JUndefined)] transaction)
  | first :: _ =>
      let columnType := columnType first in
      let copy := array_sort compareRows copy in
      let total := Stats.set_items (Some []) defaultObj in
      last <- item_at copy (Z.of_nat (List.length copy) - 1) ;;
      let total := Stats.set_max (column last) total in
      first <- item_at copy 0 ;;
      let total := Stats.set_min (column first) total in
      let totalNaNInfo := {| hasNaN := existsb itemIsNaN copy |} in
      acc <- foldM (bucketStep (hasNaN totalNaNInfo)) copy
               (Build_Acc [] [] total) ;;
      let '(Build_Acc buckets bucketNaNInfo total) := acc in
      buckets <- mapM (meanMedianStep bucketNaNInfo) buckets ;;
      let totalHasNaN := hasNaN totalNaNInfo in
      total <-
        (if totalHasNaN then Ok (spreadNaN total)
         else
           total <- calculateMean total (Some copy) ;;
           calculateMedian total (Some copy)) ;;
      '(buckets, total) <- foldM varianceStep copy (buckets, total) ;;
      let totalHasNegInf := eqb (ToNumber (Stats.min total)) NegInfinity in
      let totalHasPosInf := eqb (ToNumber (Stats.max total)) Infinity in
      let total :=
        Stats.set_stdev
          (calculateStdev totalHasNegInf totalHasPosInf
             (Stats.variance total) (Z.of_nat (List.length copy)))
          total in
      buckets <- mapM (serializeStep bucketNaNInfo total) buckets ;;
      total <- stringify true total ;;
      let total := obj_delete (obj_delete total "items") "variance" in
      let result :=
        fold_left (fun o kv => obj_set o (fst kv) (JObject (snd kv))) buckets
          [("columnType", JString columnType); ("total", JObject total)] in
      Ok (postResult mocked result transaction)
  end.

(** Lines 128-337.  The rows are read from the heap after the normalizer
    has run; nothing writes to them afterwards. *)
Definition onmessage (mocked : bool) (h : heap) (data : list (option nat))
    (transaction : value) : heap * result (list event) :=
  let copy := filterRows h data in
  let '(h, parsed) := parsePythonInfinityValues h copy in
  (h, copy <- parsed ;; summarize mocked (map h copy) transaction).

End Worker.

(* ================================================================= *)
(** * Notions used in the statements *)

(** Every bucket key holds a hyphen, so none is the name of another property
    of the result object. *)
Definition hyphenated (k : string) : bool :=
  existsb (Ascii.eqb "-"%char) (list_ascii_of_string k).

Definition keysHyphenated {A} (o : list (string * A)) : Prop :=
  Forall (fun kv => hyphenated (fst kv) = true) o.

Definition exampleRow (category result type text : string) : Row :=
  {| categoryType := category; resultType := result; columnType := type;
     columnTitle := "cputime"; column := VStr text |}.

Definition blankRow : Row :=
  {| categoryType := EmptyString; resultType := EmptyString; columnType := EmptyString;
     columnTitle := EmptyString; column := VUndefined |}.

Definition heapOf (rows : list Row) : heap := fun a => nth a rows blankRow.

Definition requestOf (rows : list Row) : list (option nat) :=
  map Some (seq 0 (List.length rows)).

(** Two rows of mixed type, and what the handler posts for them. *)
Definition mixedRows : list Row :=
  [exampleRow "A" "correct" "status" "true";
   exampleRow "A" "wrong" "numeric" "1.5"].

Definition mixedEvents : list event :=
  [PostMessage
     {| result_of :=
          [("columnType", JString "status");
           ("total",
            JObject [("sum", "2.5"); ("avg", "1.25"); ("max", "1.5");
                     ("median", "NaN"); ("min", "true");
                     ("stdev", "0.1767766952966369"); ("title", "cputime")]);
           ("A-correct",
            JObject [("sum", "1"); ("avg", "1"); ("max", "-Infinity");
                     ("median", "true"); ("min", "Infinity");
                     ("stdev", "0"); ("title", "cputime")]);
           ("A-total",
            JObject [("sum", "2.5"); ("avg", "1.25"); ("max", "1.5");
                     ("median", "NaN"); ("min", "1.5");
                     ("stdev", "0.1767766952966369"); ("title", "cputime")]);
           ("A-wrong",
            JObject [("sum", "1.5"); ("avg", "1.5"); ("max", "1.5");
                     ("median", "1.5"); ("min", "1.5"); ("stdev", "0");
                     ("title", "cputime")])];
        transaction_of := VStr "t1" |}].

(** A bucket with the value minus infinity in Python's spelling. *)
Definition infinityRows : list Row :=
  [exampleRow "A" "correct" "numeric" "-Inf";
   exampleRow "A" "correct" "numeric" "1"].

Definition infinityStats : Serialized :=
  [("sum", "-Infinity"); ("avg", "-Infinity"); ("max", "1");
   ("median", "-Infinity"); ("min", "-Infinity"); ("stdev", "Infinity");
   ("title", "cputime")].

Definition infinityEvents : list event :=
  [PostMessage
     {| result_of :=
          [("columnType", JString "numeric");
           ("total", JObject infinityStats);
           ("A-correct", JObject infinityStats);
           ("A-total", JObject infinityStats)];
        transaction_of := VStr "t1" |}].

(** C5 as the specification states it: no row is ever changed. *)
Definition claim_rows_never_mutated : Prop :=
  forall array_sort mocked h data tx a,
    fst (onmessage array_sort mocked h data tx) a = h a.

(** How many entries of a request refer to the row at address [a]. *)
Definition listed (a : nat) (data : list (option nat)) : nat :=
  List.length
    (filter (fun i => match i with
                      | Some b => Nat.eqb a b
                      | None => false
                      end) data).

(** The accumulator of a bucket that has received the value 1 twice. *)
Definition twoItems : Stats.t :=
  Stats.set_sum (VNum (of_Z 2))
    (Stats.set_items (Some (tl infinityRows ++ tl infinityRows)%list)
       (Stats.set_max (VStr "1") (Stats.set_min (VStr "1")
          (newBucket "cputime")))).

(** What one row does to the accumulator of a bucket it falls into, when
    that accumulator is not aliased: lines 219, 230-231 and 240. *)
Definition contribute (item : Row) (b : Stats.t) : result Stats.t :=
  s <- maybeAdd (Stats.sum b) (column item) (columnType item) ;;
  let b := Stats.set_sum s b in
  let b :=
    if negb (js_isNaN (VNum (ToNumber (column item)))) then
      Stats.set_min (mathStringMin (Stats.min b) (column item))
        (Stats.set_max (mathStringMax (Stats.max b) (column item)) b)
    else b in
  pushItem item b.

(** [buckets[key] || { ...defaultObj, title, items: [] }] *)
Definition bucketOrNew (buckets : list (string * Stats.t)) (key title : string)
  : Stats.t :=
  match obj_get buckets key with
  | Some b => b
  | None => newBucket title
  end.

(** The integer a number stands for, if it is one. *)
Definition integer_of (x : number) : option Z :=
  match x with
  | S754_zero _ => Some 0
  | S754_finite s m e =>
      if 0 <=? e then Some (cond_Zopp s (Zpos m * 2 ^ e))
      else if Zpos m mod 2 ^ (- e) =? 0 then
        Some (cond_Zopp s (Zpos m / 2 ^ (- e)))
      else None
  | _ => None
  end.

(** The rows that fall into the bucket [key]: as their own bucket or as the
    total of their category. *)
Definition fallsInto (key : string) (r : Row) : bool :=
  String.eqb (bucketKey r) key || String.eqb (totalKey r) key.

Definition sumZ (l : list Z) : Z := fold_right Z.add 0 l.

(** The [sum] of the bucket [key], zero while the bucket does not exist. *)
Definition sumAt (buckets : list (string * Stats.t)) (key : string) : value :=
  match obj_get buckets key with
  | Some b => Stats.sum b
  | None => VNum (of_Z 0)
  end.

(** The fields of an accumulator that only the bucketing loop writes. *)
Definition sameCore (b b' : Stats.t) : Prop :=
  Stats.sum b' = Stats.sum b /\ Stats.min b' = Stats.min b /\
  Stats.max b' = Stats.max b.

(** The property [name] of a serialized object is the text of [x]. *)
Definition fieldText (x : value) (props : Serialized) (name : string) : Prop :=
  match toString x with
  | Ok s => obj_get props name = Some s
  | Throw _ => False
  end.

Definition coreText (b : Stats.t) (props : Serialized) : Prop :=
  fieldText (Stats.sum b) props "sum" /\
  fieldText (Stats.min b) props "min" /\
  fieldText (Stats.max b) props "max".

(** Two maps with the same keys and related values. *)
Definition related {A B} (R : A -> B -> Prop) (o : list (string * A))
    (o' : list (string * B)) : Prop :=
  forall k,
    match obj_get o k with
    | Some v => exists w, obj_get o' k = Some w /\ R v w
    | None => obj_get o' k = None
    end.

Definition uniqueKeys {A} (o : list (string * A)) : Prop :=
  NoDup (map fst o).

(** Two integers whose sum is one more than [2 ^ 53]. *)
Definition bigRows : list Row :=
  [exampleRow "A" "correct" "numeric" "9007199254740992";
   exampleRow "A" "correct" "numeric" "1"].

Definition bigStats : Serialized :=
  [("sum", "9007199254740992"); ("avg", "4503599627370496");
   ("max", "9007199254740992"); ("median", "4503599627370496");
   ("min", "1"); ("stdev", "4503599627370495.5"); ("title", "cputime")].

Definition bigEvents : list event :=
  [PostMessage
     {| result_of :=
          [("columnType", JString "numeric");
           ("total", JObject bigStats);
           ("A-correct", JObject bigStats);
           ("A-total", JObject bigStats)];
        transaction_of := VStr "t1" |}].

Definition bigValue (r : Row) : Z :=
  if String.eqb (ToString (column r)) "1" then 1 else 9007199254740992.

Definition smallValue (r : Row) : Z :=
  if String.eqb (ToString (column r)) "1" then 1 else 3.

(** C9 as the specification states it: the sum of a bucket whose rows carry
    integers is their sum. *)
Definition claim_integer_sum_exact : Prop :=
  forall t rows tot0 acc key (val : Row -> Z),
    foldM (bucketStep t) rows (Build_Acc [] [] tot0) = Ok acc ->
    (forall r, In r rows -> fallsInto key r = true ->
       ToNumber (column r) = of_Z (val r)) ->
    filter (fallsInto key) rows <> [] ->
    exists b n,
      obj_get (buckets acc) key = Some b /\
      Stats.sum b = VNum n /\
      integer_of n = Some (sumZ (map val (filter (fallsInto key) rows))).

(** The rows of the end-to-end scenario of the specification. *)
Definition smallRows : list Row :=
  [exampleRow "A" "correct" "numeric" "1";
   exampleRow "A" "correct" "numeric" "3"].

Definition smallStats : Serialized :=
  [("sum", "4"); ("avg", "2"); ("max", "3"); ("median", "2");
   ("min", "1"); ("stdev", "1"); ("title", "cputime")].

Definition smallEvents : list event :=
  [PostMessage
     {| result_of :=
          [("columnType", JString "numeric");
           ("total", JObject smallStats);
           ("A-correct", JObject smallStats);
           ("A-total", JObject smallStats)];
        transaction_of := VStr "t1" |}].

(** C4 as the specification states it: a status row never changes the
    minimum or the maximum of a bucket. *)
Definition claim_status_rows_keep_bounds : Prop :=
  forall t acc r acc' key,
    bucketStep t acc r = Ok acc' ->
    columnType r = "status" ->
    Stats.min (bucketOrNew (buckets acc') key (columnTitle r))
    = Stats.min (bucketOrNew (buckets acc) key (columnTitle r)) /\
    Stats.max (bucketOrNew (buckets acc') key (columnTitle r))
    = Stats.max (bucketOrNew (buckets acc) key (columnTitle r)).

(** A status row whose value reads as a number. *)
Definition numericStatusRows : list Row :=
  [exampleRow "A" "correct" "status" "5"].

Definition numericStatusStats : Serialized :=
  [("sum", "5"); ("avg", "5"); ("max", "5"); ("median", "5");
   ("min", "5"); ("stdev", "0"); ("title", "cputime")].

Definition numericStatusEvents : list event :=
  [PostMessage
     {| result_of :=
          [("columnType", JString "status");
           ("total", JObject numericStatusStats);
           ("A-correct", JObject numericStatusStats);
           ("A-total", JObject numericStatusStats)];
        transaction_of := VStr "t1" |}].

(** Three status rows of one bucket. *)
Definition statusRows : list Row :=
  [exampleRow "A" "correct" "status" "true";
   exampleRow "A" "correct" "status" "false(unreach-call)";
   exampleRow "A" "correct" "status" "TIMEOUT"].

Definition statusStats : Serialized :=
  [("sum", "3"); ("avg", "1"); ("max", "-Infinity");
   ("median", "false(unreach-call)"); ("min", "Infinity"); ("stdev", "0");
   ("title", "cputime")].

Definition statusEvents : list event :=
  [PostMessage
     {| result_of :=
          [("columnType", JString "status");
           ("total",
            JObject [("sum", "3"); ("avg", "1"); ("max", "TIMEOUT");
                     ("median", "false(unreach-call)"); ("min", "true");
                     ("stdev", "0"); ("title", "cputime")]);
           ("A-correct", JObject statusStats);
           ("A-total", JObject statusStats)];
        transaction_of := VStr "t1" |}].

(** A value that [toString] can be called on. *)
Definition hasText (v : value) : Prop := exists s, toString v = Ok s.

(** C2 as the specification states it, on the step that serializes one
    bucket: the standard deviation follows the bucket's own bounds and takes
    the sign of the infinite one. *)
Definition claim_stdev_own_bounds : Prop :=
  forall bucketNaNInfo total key values items out,
    shouldSkipBucket bucketNaNInfo key = false ->
    Stats.items values = Some items ->
    serializeStep bucketNaNInfo total (key, values) = Ok (key, out) ->
    (ToNumber (Stats.min values) = NegInfinity ->
     ToNumber (Stats.max values) = Infinity ->
     obj_get out "stdev" = Some "NaN") /\
    (ToNumber (Stats.min values) = NegInfinity ->
     ToNumber (Stats.max values) <> Infinity ->
     obj_get out "stdev" = Some "-Infinity") /\
    (ToNumber (Stats.min values) <> NegInfinity ->
     ToNumber (Stats.max values) = Infinity ->
     obj_get out "stdev" = Some "Infinity") /\
    (ToNumber (Stats.min values) <> NegInfinity ->
     ToNumber (Stats.max values) <> Infinity ->
     obj_get out "stdev"
     = Some (to_string (sqrt (div (ToNumber (Stats.variance values))
                                  (of_Z (Z.of_nat (List.length items))))))).

(** The accumulator of the bucket of [infinityRows] before it is
    serialized, and the grand total next to it. *)
Definition infinityBucket : Stats.t :=
  {| Stats.sum := VNum NegInfinity; Stats.avg := VStr "-Infinity";
     Stats.max := VStr "1"; Stats.median := VNum NegInfinity;
     Stats.min := VStr "-Infinity"; Stats.stdev := VNum (of_Z 0);
     Stats.variance := VNum NaN; Stats.title := Some "cputime";
     Stats.items :=
       Some [exampleRow "A" "correct" "numeric" "-Infinity";
             exampleRow "A" "correct" "numeric" "1"] |}.

(** A bucket with a value that is no number, and what is posted for it. *)
Definition poisonedRows : list Row :=
  [exampleRow "A" "correct" "numeric" "abc";
   exampleRow "A" "correct" "numeric" "1"].

Definition poisonedStats : Serialized :=
  [("sum", "NaN"); ("avg", "NaN"); ("max", "NaN"); ("median", "NaN");
   ("min", "NaN"); ("stdev", "NaN"); ("variance", "NaNNaN");
   ("title", "cputime")].

Definition poisonedResult : list (string * jsval) :=
  [("columnType", JString "numeric");
   ("total",
    JObject [("sum", "NaN"); ("avg", "NaN"); ("max", "NaN");
             ("median", "NaN"); ("min", "NaN"); ("stdev", "NaN");
             ("title", "cputime")]);
   ("A-correct", JObject poisonedStats);
   ("A-total", JObject poisonedStats)].

(** A request with a single row, whose value is no number. *)
Definition lonePoisonedRows : list Row :=
  [exampleRow "A" "correct" "numeric" "abc"].

Definition lonePoisonedStats : Serialized :=
  [("sum", "NaN"); ("avg", "NaN"); ("max", "NaN"); ("median", "NaN");
   ("min", "NaN"); ("stdev", "NaN"); ("variance", "NaN");
   ("title", "cputime")].

Definition lonePoisonedResult : list (string * jsval) :=
  [("columnType", JString "numeric");
   ("total",
    JObject [("sum", "NaN"); ("avg", "NaN"); ("max", "NaN");
             ("median", "NaN"); ("min", "NaN"); ("stdev", "NaN");
             ("title", "cputime")]);
   ("A-correct", JObject lonePoisonedStats);
   ("A-total", JObject lonePoisonedStats)].

(** The state of a poisoned bucket: every value is the text ["NaN"] and
    there is no list of rows. *)
Definition allNaN (b : Stats.t) : Prop :=
  Stats.sum b = VStr "NaN" /\ Stats.avg b = VStr "NaN" /\
  Stats.max b = VStr "NaN" /\ Stats.median b = VStr "NaN" /\
  Stats.min b = VStr "NaN" /\ Stats.stdev b = VStr "NaN" /\
  Stats.variance b = VStr "NaN" /\ Stats.items b = None.

(** The state the bucketing loop leaves for [smallRows]. *)
Definition smallBucket : Stats.t :=
  {| Stats.sum := VNum (of_Z 4); Stats.avg := VNum (of_Z 0);
     Stats.max := VStr "3"; Stats.median := VNum (of_Z 0);
     Stats.min := VStr "1"; Stats.stdev := VNum (of_Z 0);
     Stats.variance := VNum (of_Z 0); Stats.title := Some "cputime";
     Stats.items := Some smallRows |}.

Definition smallAcc : Acc :=
  {| buckets := [("A-correct", smallBucket); ("A-total", smallBucket)];
     bucketNaNInfo := [];
     total :=
       Stats.set_sum (VNum (of_Z 4))
         (Stats.set_title (Some "cputime") defaultObj) |}.

(** A row whose value is a number, not a text. *)
Definition numberRows : list Row :=
  [{| categoryType := "A"; resultType := "correct"; columnType := "numeric";
      columnTitle := "cputime"; column := VNum (of_Z 5) |}].

(** A text that holds Python's infinity marker at its end and no [I]
    before it, as ["Inf"] and ["-Inf"] do. *)
Definition markerAtEnd (s : string) : Prop :=
  exists p, s = p ++ "Inf" /\ ascii_in "I"%char p = false.

(** A row the normalizer leaves alone. *)
Definition settled (h : heap) (a : nat) : Prop :=
  columnType (h a) = "status" \/
  exists s, column (h a) = VStr s /\ endsWith s "Inf" = false.

(** The accumulator the bucketing loop starts the grand total with
    (lines 166-169). *)
Definition initialTotal (first last : Row) : Stats.t :=
  Stats.set_min (column first)
    (Stats.set_max (column last) (Stats.set_items (Some []) defaultObj)).

(** Lines 268-273: the mean and the median of the grand total. *)
Definition totalMeanMedian (totalHasNaN : bool) (total : Stats.t)
    (copy : list Row) : result Stats.t :=
  if totalHasNaN then Ok (spreadNaN total)
  else
    total <- calculateMean total (Some copy) ;;
    calculateMedian total (Some copy).

(** Lines 293-300: the standard deviation of the grand total. *)
Definition totalStdev (total : Stats.t) (size : nat) : Stats.t :=
  Stats.set_stdev
    (calculateStdev (eqb (ToNumber (Stats.min total)) NegInfinity)
       (eqb (ToNumber (Stats.max total)) Infinity)
       (Stats.variance total) (Z.of_nat size))
    total.

(** Line 335: the result object. *)
Definition resultObject (columnType : string) (total : Serialized)
    (buckets : list (string * Serialized)) : list (string * jsval) :=
  fold_left (fun o kv => obj_set o (fst kv) (JObject (snd kv))) buckets
    [("columnType", JString columnType); ("total", JObject total)].

(** Two accumulators that differ in their [variance] at most; the later
    one still has a [variance] that can be turned into text. *)
Definition sameButVariance (b b' : Stats.t) : Prop :=
  b' = Stats.set_variance (Stats.variance b') b /\
  (hasText (Stats.variance b) -> hasText (Stats.variance b')).

(** Two accumulators that differ in their [avg] and [median] at most. *)
Definition sameButMean (b b' : Stats.t) : Prop :=
  b' = Stats.set_median (Stats.median b') (Stats.set_avg (Stats.avg b') b).

(** A text that starts with the letter N, as ["NaN"] does and every text
    that is appended to it. *)
Definition startsN (v : value) : Prop := exists s, v = VStr (String "N" s).

(** The state of the bucket [key] after the rows [seen] of the bucketing
    loop: while the bucket is not poisoned, its accumulator has the
    property [P], and no accumulator means that no row fell into it. *)
Definition keyInvariant (key : string) (P : list Row -> Stats.t -> Prop)
    (acc : Acc) (seen : list Row) : Prop :=
  shouldSkipBucket (bucketNaNInfo acc) key = false ->
  match obj_get (buckets acc) key with
  | Some b => P seen b
  | None => filter (fallsInto key) seen = []
  end.

(** The bounds of the bucket [key] after the rows [seen].  Neither bound
    reads as NaN.  No row of the bucket that reads as a number lies below
    [min] or above [max].  Both bounds are the values of such rows, as the
    rows hold them, or still the templates' when there is no such row. *)
Definition withinBounds (key : string) (seen : list Row) (b : Stats.t)
  : Prop :=
  isNaN (ToNumber (Stats.min b)) = false /\
  isNaN (ToNumber (Stats.max b)) = false /\
  (forall r, In r seen -> fallsInto key r = true ->
     isNaN (ToNumber (column r)) = false ->
     ltb (ToNumber (column r)) (ToNumber (Stats.min b)) = false /\
     ltb (ToNumber (Stats.max b)) (ToNumber (column r)) = false) /\
  (Stats.min b = VStr "Infinity" /\ Stats.max b = VStr "-Infinity" /\
   (forall r, In r seen -> fallsInto key r = true ->
      isNaN (ToNumber (column r)) = true) \/
   exists low high,
     In low seen /\ fallsInto key low = true /\
     isNaN (ToNumber (column low)) = false /\
     In high seen /\ fallsInto key high = true /\
     isNaN (ToNumber (column high)) = false /\
     Stats.min b = column low /\ Stats.max b = column high).

(** The median of the rows [items]: lines 91-97. *)
Definition medianOf (items : list Row) (d : Row) : value :=
  if Nat.even (List.length items) then
    VNum (div (add (ToNumber (column (nth (List.length items / 2 - 1) items d)))
                   (ToNumber (column (nth (List.length items / 2) items d))))
              (of_Z 2))
  else column (nth (List.length items / 2) items d).

(** Two rows whose result type is ["total"], and the state of the
    bucketing loop after the first of them. *)
Definition totalRow (text : string) : Row :=
  exampleRow "A" "total" "numeric" text.

Definition afterTotalRow : Acc :=
  match bucketStep false (Build_Acc [] [] defaultObj) (totalRow "1") with
  | Ok acc => acc
  | Throw _ => Build_Acc [] [] defaultObj
  end.

Definition afterTotalRows : Acc :=
  match bucketStep false afterTotalRow (totalRow "3") with
  | Ok acc => acc
  | Throw _ => afterTotalRow
  end.

(** Lines 285-290, over the rows [rows]: the squared deviations from
    [avg] added one after the other to [variance]. *)
Definition squaredDeviations (avg : value) (rows : list Row)
    (variance : value) : value :=
  fold_left
    (fun v r =>
       js_plus v (VNum (pow2 (sub (ToNumber (column r)) (ToNumber avg)))))
    rows variance.

(** Lines 277-279: the rows the variance loop does not skip. *)
Definition readsAsNumber (r : Row) : bool :=
  negb (js_isNaN (VNum (ToNumber (column r)))).

Definition numericIn (key : string) (r : Row) : bool :=
  fallsInto key r && readsAsNumber r.

(** The buckets and the grand total of [smallRows] when the variance loop
    starts, and when it ends. *)
Definition smallMeans : list (string * Stats.t) * Stats.t :=
  ([("A-correct", Stats.set_median (VNum (of_Z 2))
                    (Stats.set_avg (VNum (of_Z 2)) smallBucket));
    ("A-total", Stats.set_median (VNum (of_Z 2))
                  (Stats.set_avg (VNum (of_Z 2)) smallBucket))],
   Stats.set_median (VNum (of_Z 2))
     (Stats.set_avg (VNum (of_Z 2))
        (Stats.set_min (VStr "1") (Stats.set_max (VStr "3")
           (Stats.set_items (Some []) (total smallAcc)))))).

Definition smallVariances : list (string * Stats.t) * Stats.t :=
  match foldM varianceStep smallRows smallMeans with
  | Ok st => st
  | Throw _ => smallMeans
  end.

(** A text with 101 digits after the decimal point. *)
Definition longFraction : string := "0." ++ zeros 100 ++ "1".

(** A computation that returns, or else throws the RangeError of
    [toFixed], and this only when [p] holds. *)
Definition answersUnless {A} (p : Prop) (m : result A) : Prop :=
  (exists a, m = Ok a) \/ (m = Throw RangeError /\ p).

(** A row whose value reads as a number that is neither zero nor an
    integer: the rows for which [safeAdd] can reach [toFixed]. *)
Definition readsAsFraction (r : Row) : Prop :=
  truthy (ToNumber (column r)) = true /\
  isInteger (ToNumber (column r)) = false.

(** A status row holding a word, and two rows of whole numbers. *)
Definition mixedWholeRows : list Row :=
  [exampleRow "A" "correct" "status" "true";
   exampleRow "A" "correct" "numeric" "1";
   exampleRow "A" "wrong" "numeric" "3"].

(** An accumulator all of whose values can be turned into text. *)
Definition textFields (b : Stats.t) : Prop :=
  hasText (Stats.sum b) /\ hasText (Stats.avg b) /\ hasText (Stats.max b) /\
  hasText (Stats.median b) /\ hasText (Stats.min b) /\
  hasText (Stats.stdev b) /\ hasText (Stats.variance b).

Definition textRows (l : list Row) : Prop :=
  Forall (fun r => hasText (column r)) l.

(** The accumulator of the bucket [k]: its values can be turned into text
    and, unless the bucket is poisoned, it has a list of rows. *)
Definition wellFormed (info : list (string * NaNInfo)) (k : string)
    (b : Stats.t) : Prop :=
  textFields b /\
  (shouldSkipBucket info k = false ->
   exists l, Stats.items b = Some l /\ textRows l).

Definition wellFormedAcc (acc : Acc) : Prop :=
  (forall k b, obj_get (buckets acc) k = Some b ->
     wellFormed (bucketNaNInfo acc) k b) /\
  textFields (total acc).

(* ================================================================= *)
(** * Basic facts *)

Lemma bind_Ok {A B} (m : result A) (k : A -> result B) (b : B) :
  bind m k = Ok b -> exists a, m = Ok a /\ k a = Ok b.
Proof.
  destruct m as [a|e]; simpl; intros H; [eauto | discriminate].
Qed.

Section Monad.

Context {A B : Type}.

Lemma mapM_keys (f : string * A -> result (string * B)) :
  (forall x y, f x = Ok y -> fst y = fst x) ->
  forall l l', mapM f l = Ok l' -> map fst l' = map fst l.
Proof.
  intros Hf l; induction l as [|x l IH]; simpl; intros l' H.
  - now inversion H.
  - apply bind_Ok in H as (y & Hy & H).
    apply bind_Ok in H as (ys & Hys & H).
    inversion H; subst; simpl.
    now rewrite (Hf _ _ Hy), (IH _ Hys).
Qed.

Lemma mapM_In (f : A -> result B) :
  forall l l' x, mapM f l = Ok l' -> In x l ->
  exists y, f x = Ok y /\ In y l'.
Proof.
  intros l; induction l as [|a l IH]; simpl; intros l' x H Hin; [easy|].
  apply bind_Ok in H as (y & Hy & H).
  apply bind_Ok in H as (ys & Hys & H).
  inversion H; subst.
  destruct Hin as [->|Hin].
  - exists y; simpl; auto.
  - destruct (IH _ _ Hys Hin) as (y' & ? & ?); exists y'; simpl; auto.
Qed.

End Monad.

Lemma foldM_invariant {A B} (f : A -> B -> result A) (P : A -> Prop) :
  (forall a b a', P a -> f a b = Ok a' -> P a') ->
  forall l a a', P a -> foldM f l a = Ok a' -> P a'.
Proof.
  intros Hf l; induction l as [|b l IH]; simpl; intros a a' Ha H.
  - now inversion H; subst.
  - apply bind_Ok in H as (a1 & H1 & H). eauto.
Qed.

Section Objects.

Context {A : Type}.

Lemma obj_get_set (o : list (string * A)) k v k' :
  obj_get (obj_set o k v) k' =
  if String.eqb k k' then Some v else obj_get o k'.
Proof.
  induction o as [|[k0 v0] o IH]; simpl.
  - destruct (String.eqb_spec k k'); auto.
  - destruct (String.eqb_spec k0 k) as [->|Hk]; simpl.
    + destruct (String.eqb_spec k k'); auto.
    + rewrite IH. destruct (String.eqb_spec k0 k') as [->|Hk'].
      * destruct (String.eqb_spec k k'); congruence.
      * reflexivity.
Qed.

Lemma obj_get_set_same (o : list (string * A)) k v :
  obj_get (obj_set o k v) k = Some v.
Proof. now rewrite obj_get_set, String.eqb_refl. Qed.

Lemma obj_get_set_other (o : list (string * A)) k v k' :
  k <> k' -> obj_get (obj_set o k v) k' = obj_get o k'.
Proof.
  intros H; rewrite obj_get_set.
  now destruct (String.eqb_spec k k').
Qed.

Lemma obj_set_keys (P : string -> Prop) (o : list (string * A)) k v :
  P k -> Forall (fun kv => P (fst kv)) o ->
  Forall (fun kv => P (fst kv)) (obj_set o k v).
Proof.
  intros Hk; induction 1 as [|[k0 v0] o H0 Ho IH]; simpl.
  - constructor; auto.
  - destruct (String.eqb k0 k); constructor; auto.
Qed.

Lemma obj_get_In (o : list (string * A)) k v :
  obj_get o k = Some v -> In (k, v) o.
Proof.
  induction o as [|[k0 v0] o IH]; simpl; [discriminate|].
  destruct (String.eqb_spec k0 k) as [->|Hk]; intros H.
  - inversion H; auto.
  - auto.
Qed.

Lemma obj_get_delete (o : list (string * A)) k k' :
  obj_get (obj_delete o k) k' =
  if String.eqb k k' then None else obj_get o k'.
Proof.
  induction o as [|[k0 v0] o IH]; simpl.
  - now destruct (String.eqb k k').
  - destruct (String.eqb_spec k0 k) as [->|Hk]; simpl.
    + rewrite IH. destruct (String.eqb_spec k k'); auto.
    + rewrite IH. destruct (String.eqb_spec k0 k') as [->|Hk'].
      * destruct (String.eqb_spec k k'); congruence.
      * reflexivity.
Qed.

End Objects.


Lemma hyphenated_append c x : hyphenated (c ++ "-" ++ x) = true.
Proof.
  unfold hyphenated; induction c as [|a c IH]; simpl in *.
  - reflexivity.
  - now rewrite IH, orb_true_r.
Qed.

Lemma bucketKey_hyphenated r : hyphenated (bucketKey r) = true.
Proof. apply hyphenated_append. Qed.

Lemma totalKey_hyphenated r : hyphenated (totalKey r) = true.
Proof. apply (hyphenated_append _ "total"). Qed.

Ltac unbind H :=
  repeat match type of H with
         | bind _ _ = Ok _ =>
             let x := fresh "x" in
             let E := fresh "E" in
             apply bind_Ok in H as (x & E & H)
         end.

(* ================================================================= *)
(** * The normalizer and the heap *)

Lemma parse_result h l :
  forall h' l', parsePythonInfinityValues h l = (h', Ok l') -> l' = l.
Proof.
  revert h; induction l as [|a l IH]; simpl; intros h h' l' H.
  - now inversion H.
  - assert (K : forall h0, (let '(h'', r) := parsePythonInfinityValues h0 l in
                (h'', items <- r ;; Ok (a :: items))) = (h', Ok l') -> l' = a :: l).
    { intros h0 H0. destruct (parsePythonInfinityValues h0 l) as [h2 r] eqn:E.
      inversion H0 as [[Hh Hr]]. unbind Hr. inversion Hr; subst.
      now rewrite (IH _ _ _ E). }
    destruct (String.eqb (columnType (h a)) "status"); [eauto|].
    destruct (column (h a)); try discriminate.
    destruct (negb (endsWith s "Inf")); eauto.
Qed.

(** The normalizer writes the [column] field only, and only of rows that
    are no status rows and whose value is a string ending in ["Inf"]. *)
Lemma parse_frame l :
  forall h h' r a, parsePythonInfinityValues h l = (h', r) ->
  categoryType (h' a) = categoryType (h a) /\
  resultType (h' a) = resultType (h a) /\
  columnType (h' a) = columnType (h a) /\
  columnTitle (h' a) = columnTitle (h a) /\
  (column (h' a) = column (h a) \/
   In a l /\ columnType (h a) <> "status" /\
   exists s, column (h a) = VStr s /\ endsWith s "Inf" = true).
Proof.
  induction l as [|a0 l IH]; simpl; intros h h' r a H.
  - inversion H; subst. repeat split; auto.
  - assert (K : forall h0,
               (let '(h'', r) := parsePythonInfinityValues h0 l in
                (h'', items <- r ;; Ok (a0 :: items))) = (h', r) ->
               exists r0, parsePythonInfinityValues h0 l = (h', r0)).
    { intros h0 H0. destruct (parsePythonInfinityValues h0 l) as [h2 r2].
      inversion H0; subst. eauto. }
    destruct (String.eqb_spec (columnType (h a0)) "status") as [Hs|Hs].
    { apply K in H as (r0 & H). destruct (IH _ _ _ a H) as (?&?&?&?&Hc).
      repeat split; auto. tauto. }
    destruct (column (h a0)) as [| |n|s] eqn:Ec;
      try (inversion H; subst; repeat split; now auto).
    destruct (endsWith s "Inf") eqn:Ee; simpl in H.
    + apply K in H as (r0 & H). destruct (IH _ _ _ a H) as (F1&F2&F3&F4&Hc).
      unfold store in F1, F2, F3, F4, Hc.
      destruct (Nat.eqb_spec a a0) as [->|Ha]; simpl in *.
      * repeat split; auto. right. repeat split; auto. exists s; auto.
      * repeat split; auto. tauto.
    + apply K in H as (r0 & H). destruct (IH _ _ _ a H) as (?&?&?&?&Hc).
      repeat split; auto. tauto.
Qed.

(** A row that the list names once and that has to be rewritten is
    rewritten once, provided the normalizer does not throw. *)
Lemma parse_rewrites l :
  forall h h' l' a s, parsePythonInfinityValues h l = (h', Ok l') ->
  List.length (filter (Nat.eqb a) l) = 1%nat ->
  columnType (h a) <> "status" ->
  column (h a) = VStr s -> endsWith s "Inf" = true ->
  column (h' a) = VStr (replace s "Inf" "Infinity").
Proof.
  induction l as [|a0 l IH]; simpl; intros h h' l' a s H Hone Hs Hc He;
    [discriminate|].
  assert (K : forall h0,
             (let '(h'', r) := parsePythonInfinityValues h0 l in
              (h'', items <- r ;; Ok (a0 :: items))) = (h', Ok l') ->
             exists l0, parsePythonInfinityValues h0 l = (h', Ok l0)).
  { intros h0 H0. destruct (parsePythonInfinityValues h0 l) as [h2 [l2|e]];
      inversion H0; subst; eauto. }
  destruct (Nat.eqb_spec a a0) as [<-|Hne]; simpl in Hone.
  - assert (Hnotin : ~ In a l).
    { intros Hin.
      assert (Hf : In a (filter (Nat.eqb a) l))
        by (apply filter_In; split; [exact Hin|apply Nat.eqb_refl]).
      destruct (filter (Nat.eqb a) l); [easy|discriminate]. }
    destruct (String.eqb_spec (columnType (h a)) "status") as [|_]; [easy|].
    rewrite Hc, He in H; simpl in H.
    apply K in H as (l0 & H).
    destruct (parse_frame _ _ _ _ a H) as (_&_&_&_&[Hsame|(Hin&_)]); [|easy].
    rewrite Hsame. unfold store. now rewrite Nat.eqb_refl.
  - destruct (String.eqb_spec (columnType (h a0)) "status") as [Hs0|Hs0].
    { apply K in H as (l0 & H). eauto. }
    destruct (column (h a0)) as [| |n|s0] eqn:Ec; try discriminate.
    destruct (endsWith s0 "Inf") eqn:Ee; simpl in H.
    + apply K in H as (l0 & H).
      eapply IH; eauto; unfold store;
        destruct (Nat.eqb_spec a a0); try easy.
    + apply K in H as (l0 & H). eauto.
Qed.

Lemma filterRows_In h data a :
  In a (filterRows h data) -> In (Some a) data.
Proof.
  induction data as [|i data IH]; simpl; [easy|].
  destruct i as [b|]; simpl; auto.
  destruct (column (h b)); simpl; auto.
  - intros [->|H]; auto.
  - intros [->|H]; auto.
Qed.

Lemma filterRows_nil h data :
  (forall i, In i data ->
     match i with
     | None => True
     | Some a => column (h a) = VUndefined \/ column (h a) = VNull
     end) ->
  filterRows h data = [].
Proof.
  induction data as [|i data IH]; simpl; intros H; [reflexivity|].
  assert (Hi := H i (or_introl eq_refl)).
  assert (Hd : filterRows h data = []) by (apply IH; intros; apply H; now right).
  destruct i as [a|]; simpl; auto.
  now destruct Hi as [-> | ->].
Qed.

Lemma filterRows_listed h data a :
  column (h a) <> VUndefined -> column (h a) <> VNull ->
  List.length (filter (Nat.eqb a) (filterRows h data)) = listed a data.
Proof.
  intros Hu Hn. unfold listed.
  induction data as [|i data IH]; simpl; [reflexivity|].
  destruct i as [b|]; simpl; [|exact IH].
  destruct (Nat.eqb_spec a b) as [<-|Hne].
  - destruct (column (h a)); try easy; simpl;
      rewrite Nat.eqb_refl; simpl; f_equal; exact IH.
  - destruct (column (h b)); simpl; try exact IH;
      (destruct (Nat.eqb_spec a b); [easy|exact IH]).
Qed.

Lemma filterRows_keep h data a :
  In (Some a) data -> column (h a) <> VUndefined -> column (h a) <> VNull ->
  In a (filterRows h data).
Proof.
  induction data as [|i data IH]; simpl; [easy|].
  intros [->|Hin] Hu Hn.
  - simpl. destruct (column (h a)); try easy; now left.
  - destruct (keep h i); simpl; auto.
Qed.

(* ================================================================= *)
(** * Bucket keys *)


Lemma obj_set_hyphenated {A} (o : list (string * A)) k v :
  hyphenated k = true -> keysHyphenated o -> keysHyphenated (obj_set o k v).
Proof. apply (obj_set_keys (fun k => hyphenated k = true)). Qed.

Lemma bucketStep_keys t acc r acc' :
  keysHyphenated (buckets acc) -> bucketStep t acc r = Ok acc' ->
  keysHyphenated (buckets acc').
Proof.
  unfold bucketStep, keysHyphenated; intros Hk H.
  destruct (itemIsNaN r).
  - inversion H; subst; simpl.
    apply obj_set_hyphenated; [apply totalKey_hyphenated|].
    apply obj_set_hyphenated; [apply bucketKey_hyphenated|assumption].
  - unbind H. inversion H; subst; simpl.
    apply obj_set_hyphenated; [apply totalKey_hyphenated|].
    apply obj_set_hyphenated; [apply bucketKey_hyphenated|assumption].
Qed.

Lemma varianceStep_keys st r st' :
  keysHyphenated (fst st) -> varianceStep st r = Ok st' ->
  keysHyphenated (fst st').
Proof.
  unfold varianceStep, keysHyphenated; destruct st as [bs tot]; intros Hk H.
  destruct (js_isNaN _); [now inversion H; subst|].
  destruct (obj_get bs (bucketKey r)); [|discriminate].
  destruct (obj_get bs (totalKey r)); [|discriminate].
  inversion H; subst; simpl.
  apply obj_set_hyphenated; [apply totalKey_hyphenated|].
  apply obj_set_hyphenated; [apply bucketKey_hyphenated|assumption].
Qed.

Lemma meanMedianStep_key info x y :
  meanMedianStep info x = Ok y -> fst y = fst x.
Proof.
  unfold meanMedianStep; destruct x as [k v]; intros H.
  destruct (shouldSkipBucket info k); [now inversion H|].
  unbind H. now inversion H.
Qed.

Lemma serializeStep_key info tot x y :
  serializeStep info tot x = Ok y -> fst y = fst x.
Proof.
  unfold serializeStep; destruct x as [k v]; intros H.
  destruct (shouldSkipBucket info k).
  - unbind H. now inversion H.
  - destruct (Stats.items v); [|discriminate].
    unbind H. now inversion H.
Qed.

Lemma keysHyphenated_map {A B} (o : list (string * A)) (o' : list (string * B)) :
  map fst o' = map fst o -> keysHyphenated o -> keysHyphenated o'.
Proof.
  unfold keysHyphenated; revert o'; induction o as [|x o IH];
    intros [|y o'] E H; simpl in E; try discriminate; constructor;
    inversion E; inversion H; subst; auto.
  congruence.
Qed.

Lemma spread_keeps {A} (f : A -> jsval) (bs : list (string * A)) :
  forall o k, hyphenated k = false -> keysHyphenated bs ->
  obj_get (fold_left (fun o kv => obj_set o (fst kv) (f (snd kv))) bs o) k =
  obj_get o k.
Proof.
  induction bs as [|[k0 v0] bs IH]; simpl; intros o k Hk Hbs; [reflexivity|].
  inversion Hbs; subst; simpl in *.
  rewrite IH by assumption.
  apply obj_get_set_other. congruence.
Qed.

(** What the handler posts once the request is known to hold a row: the
    value of [columnType] and the keys of the buckets. *)
Lemma summarize_nonempty array_sort mocked first rest tx evs :
  summarize array_sort mocked (first :: rest) tx = Ok evs ->
  exists total buckets,
    keysHyphenated buckets /\
    evs = postResult mocked
            (fold_left (fun o kv => obj_set o (fst kv) (JObject (snd kv)))
               buckets
               [("columnType", JString (columnType first));
                ("total", JObject total)]) tx.
Proof.
  unfold summarize; intros Hr.
  unbind Hr. destruct x1 as [bs info tot]. unbind Hr.
  destruct x3 as [bs' tot']. unbind Hr.
  injection Hr as <-.
  eexists _, x3; split; [|reflexivity].
  apply (keysHyphenated_map bs').
  { eapply mapM_keys; [|eassumption]. intros; eapply serializeStep_key; eauto. }
  change bs' with (fst (bs', tot')).
  eapply (foldM_invariant varianceStep (fun st => keysHyphenated (fst st)));
    [intros; eapply varianceStep_keys; eauto| |eassumption].
  simpl. apply (keysHyphenated_map bs).
  { eapply mapM_keys; [|eassumption]. intros; eapply meanMedianStep_key; eauto. }
  change bs with (buckets (Build_Acc bs info tot)).
  eapply (foldM_invariant (bucketStep _) (fun acc => keysHyphenated (buckets acc)));
    [intros; eapply bucketStep_keys; eauto| |eassumption].
  constructor.
Qed.

Lemma onmessage_inv array_sort mocked h data tx h' evs :
  onmessage array_sort mocked h data tx = (h', Ok evs) ->
  parsePythonInfinityValues h (filterRows h data) = (h', Ok (filterRows h data))
  /\ summarize array_sort mocked (map h' (filterRows h data)) tx = Ok evs.
Proof.
  unfold onmessage; intros H.
  destruct (parsePythonInfinityValues h (filterRows h data)) as [h1 parsed] eqn:Ep.
  injection H as -> Hr. unbind Hr. subst parsed.
  pose proof (parse_result _ _ _ _ Ep); subst x. auto.
Qed.

(* ================================================================= *)
(** * Mean and median *)

Lemma eqb_NegInfinity x : eqb x NegInfinity = true <-> x = NegInfinity.
Proof.
  split; [|now intros ->].
  destruct x as [s|[|]| |s m e]; try destruct s; simpl; try discriminate; auto.
Qed.

Lemma eqb_Infinity x : eqb x Infinity = true <-> x = Infinity.
Proof.
  split; [|now intros ->].
  destruct x as [s|[|]| |s m e]; try destruct s; simpl; try discriminate; auto.
Qed.

Lemma eqb_NegInfinity_false x : eqb x NegInfinity = false <-> x <> NegInfinity.
Proof.
  rewrite <- eqb_NegInfinity. now destruct (eqb x NegInfinity).
Qed.

Lemma eqb_Infinity_false x : eqb x Infinity = false <-> x <> Infinity.
Proof.
  rewrite <- eqb_Infinity. now destruct (eqb x Infinity).
Qed.

Lemma item_at_nth {A} (l : list A) (i : nat) (d : A) :
  (i < List.length l)%nat -> item_at l (Z.of_nat i) = Ok (nth i l d).
Proof.
  intros H. unfold item_at.
  destruct (Z.ltb_spec (Z.of_nat i) 0); [lia|].
  rewrite Nat2Z.id.
  destruct (nth_error l i) eqn:E.
  - now rewrite (nth_error_nth _ _ d E).
  - apply nth_error_None in E. lia.
Qed.

(** The median of a non-empty list never throws. *)
Lemma calculateMedian_items values items d :
  items <> [] ->
  calculateMedian values (Some items) =
  Ok (Stats.set_median
        (if Nat.even (List.length items) then
           VNum (div (add (ToNumber (column (nth (List.length items / 2 - 1) items d)))
                          (ToNumber (column (nth (List.length items / 2) items d))))
                     (of_Z 2))
         else column (nth (List.length items / 2) items d))
        values).
Proof.
  intros Hne. unfold calculateMedian.
  assert (Hlen : (0 < List.length items)%nat)
    by (destruct items; [easy|simpl; lia]).
  remember (List.length items) as n eqn:Hn.
  assert (Hdiv : Z.of_nat n / 2 = Z.of_nat (n / 2))
    by (now rewrite (Nat2Z.inj_div n 2)).
  assert (Hlt : (n / 2 < n)%nat) by (apply Nat.div_lt; lia).
  rewrite Hdiv.
  destruct (Nat.even n) eqn:Ev.
  - apply Nat.even_spec in Ev as [k Hk].
    assert (Hk2 : (n / 2 = k)%nat)
      by (rewrite Hk, Nat.mul_comm; apply Nat.div_mul; lia).
    replace (Z.of_nat n mod 2 =? 0) with true
      by (symmetry; apply Z.eqb_eq; rewrite Hk, Nat2Z.inj_mul;
          rewrite Z.mul_comm; apply Z.mod_mul; lia).
    replace (Z.of_nat (n / 2) - 1) with (Z.of_nat (n / 2 - 1)) by lia.
    rewrite (item_at_nth _ _ d) by lia. cbn [bind].
    rewrite (item_at_nth _ _ d) by lia. reflexivity.
  - assert (Hodd : Nat.odd n = true) by (unfold Nat.odd; now rewrite Ev).
    apply Nat.odd_spec in Hodd as [k Hk].
    replace (Z.of_nat n mod 2 =? 0) with false.
    + rewrite (item_at_nth _ _ d) by lia. reflexivity.
    + symmetry; apply Z.eqb_neq. rewrite Hk.
      replace (Z.of_nat (2 * k + 1)) with (1 + Z.of_nat k * 2) by lia.
      rewrite Z.mod_add by lia. discriminate.
Qed.

Lemma calculateMean_cases values items :
  exists avg,
    calculateMean values (Some items) = Ok (Stats.set_avg avg values) /\
    (ToNumber (Stats.min values) = NegInfinity ->
     ToNumber (Stats.max values) = Infinity -> avg = VStr "NaN") /\
    (ToNumber (Stats.min values) = NegInfinity ->
     ToNumber (Stats.max values) <> Infinity -> avg = VStr "-Infinity") /\
    (ToNumber (Stats.min values) <> NegInfinity ->
     ToNumber (Stats.max values) = Infinity -> avg = VStr "Infinity") /\
    (ToNumber (Stats.min values) <> NegInfinity ->
     ToNumber (Stats.max values) <> Infinity ->
     avg = VNum (div (ToNumber (Stats.sum values))
                     (of_Z (Z.of_nat (List.length items))))).
Proof.
  unfold calculateMean.
  destruct (eqb (ToNumber (Stats.min values)) NegInfinity) eqn:E1;
    destruct (eqb (ToNumber (Stats.max values)) Infinity) eqn:E2;
    simpl andb; cbv iota;
    [ apply eqb_NegInfinity in E1; apply eqb_Infinity in E2
    | apply eqb_NegInfinity in E1; apply eqb_Infinity_false in E2
    | apply eqb_NegInfinity_false in E1; apply eqb_Infinity in E2
    | apply eqb_NegInfinity_false in E1; apply eqb_Infinity_false in E2 ];
    eexists; (split; [reflexivity|]); repeat split; intros; congruence.
Qed.

(** The mean and median step on a bucket that is not poisoned and holds at
    least one row: it never throws, and the mean follows the bounds. *)
Lemma meanMedianStep_mean bucketNaNInfo key values items :
  shouldSkipBucket bucketNaNInfo key = false ->
  Stats.items values = Some items ->
  items <> [] ->
  exists values',
    meanMedianStep bucketNaNInfo (key, values) = Ok (key, values') /\
    (ToNumber (Stats.min values) = NegInfinity ->
     ToNumber (Stats.max values) = Infinity ->
     Stats.avg values' = VStr "NaN" /\
     ToNumber (Stats.avg values') = NaN) /\
    (ToNumber (Stats.min values) = NegInfinity ->
     ToNumber (Stats.max values) <> Infinity ->
     Stats.avg values' = VStr "-Infinity" /\
     ToNumber (Stats.avg values') = ToNumber (Stats.min values)) /\
    (ToNumber (Stats.min values) <> NegInfinity ->
     ToNumber (Stats.max values) = Infinity ->
     Stats.avg values' = VStr "Infinity" /\
     ToNumber (Stats.avg values') = ToNumber (Stats.max values)) /\
    (ToNumber (Stats.min values) <> NegInfinity ->
     ToNumber (Stats.max values) <> Infinity ->
     Stats.avg values' =
     VNum (div (ToNumber (Stats.sum values))
               (of_Z (Z.of_nat (List.length items))))).
Proof.
  intros Hskip Hitems Hne.
  unfold meanMedianStep. rewrite Hskip, Hitems.
  destruct (calculateMean_cases values items) as (avg & -> & C1 & C2 & C3 & C4).
  cbn [bind]. simpl Stats.items. rewrite Hitems.
  rewrite (calculateMedian_items _ _ blankRow Hne). cbn [bind].
  eexists; split; [reflexivity|]. simpl.
  repeat split; intros.
  - now apply C1.
  - now rewrite C1.
  - now apply C2.
  - rewrite C2 by assumption. now rewrite H.
  - now apply C3.
  - rewrite C3 by assumption. now rewrite H0.
  - now apply C4.
Qed.

Lemma meanMedianStep_median bucketNaNInfo key values items d :
  shouldSkipBucket bucketNaNInfo key = false ->
  Stats.items values = Some items ->
  items <> [] ->
  exists values',
    meanMedianStep bucketNaNInfo (key, values) = Ok (key, values') /\
    Stats.median values' =
    if Nat.even (List.length items) then
      VNum (div (add (ToNumber (column (nth (List.length items / 2 - 1) items d)))
                     (ToNumber (column (nth (List.length items / 2) items d))))
                (of_Z 2))
    else column (nth (List.length items / 2) items d).
Proof.
  intros Hskip Hitems Hne.
  unfold meanMedianStep. rewrite Hskip, Hitems.
  destruct (calculateMean_cases values items) as (avg & -> & _).
  cbn [bind]. simpl Stats.items. rewrite Hitems.
  rewrite (calculateMedian_items _ _ d Hne). cbn [bind].
  eexists; split; reflexivity.
Qed.

(* ================================================================= *)
(** * The bucketing loop *)

Ltac unbind_all :=
  repeat match goal with
         | H : bind _ _ = Ok _ |- _ =>
             let x := fresh "x" in
             let E := fresh "E" in
             apply bind_Ok in H as (x & E & H)
         | H : Ok _ = Ok _ |- _ => injection H as H; try subst
         end.

Ltac locals_cbn :=
  cbn [onBucket onSubTotal shared bucket subTotalBucket
       buckets bucketNaNInfo total] in *.

Lemma totalKey_neq r : resultType r <> "total" -> bucketKey r <> totalKey r.
Proof.
  unfold bucketKey, totalKey. intros H E. apply H.
  induction (categoryType r) as [|c s IH]; simpl in E.
  - now injection E.
  - injection E as E. auto.
Qed.

(** The step on a row whose value is no number: both buckets are reset and
    poisoned. *)
Lemma bucketStep_NaN t acc r :
  itemIsNaN r = true ->
  bucketStep t acc r =
  Ok {| buckets :=
          obj_set (obj_set (buckets acc) (bucketKey r) (nanBucket (columnTitle r)))
                  (totalKey r) (nanBucket (columnTitle r));
        bucketNaNInfo :=
          obj_set (obj_set (bucketNaNInfo acc) (bucketKey r) {| hasNaN := true |})
                  (totalKey r) {| hasNaN := true |};
        total :=
          if noTitle (Stats.title (total acc)) then
            Stats.set_title (Some (columnTitle r)) (total acc)
          else total acc |}.
Proof. intros H. unfold bucketStep. now rewrite H. Qed.

(** The step on any other row, when its two keys differ: each of the two
    buckets that is not poisoned receives the row's contribution. *)
Lemma bucketStep_unshared t acc r acc' :
  itemIsNaN r = false ->
  bucketKey r <> totalKey r ->
  bucketStep t acc r = Ok acc' ->
  exists b s,
    (if shouldSkipBucket (bucketNaNInfo acc) (bucketKey r)
     then b = bucketOrNew (buckets acc) (bucketKey r) (columnTitle r)
     else contribute r (bucketOrNew (buckets acc) (bucketKey r) (columnTitle r))
          = Ok b) /\
    (if shouldSkipBucket (bucketNaNInfo acc) (totalKey r)
     then s = bucketOrNew (buckets acc) (totalKey r) (columnTitle r)
     else contribute r (bucketOrNew (buckets acc) (totalKey r) (columnTitle r))
          = Ok s) /\
    buckets acc' = obj_set (obj_set (buckets acc) (bucketKey r) b) (totalKey r) s /\
    bucketNaNInfo acc' = bucketNaNInfo acc.
Proof.
  intros Hnan Hkeys H. unfold bucketStep in H. rewrite Hnan in H.
  apply String.eqb_neq in Hkeys. rewrite Hkeys in H. simpl andb in H.
  fold (bucketOrNew (buckets acc) (bucketKey r) (columnTitle r)) in H.
  fold (bucketOrNew (buckets acc) (totalKey r) (columnTitle r)) in H.
  unfold contribute.
  set (B0 := bucketOrNew (buckets acc) (bucketKey r) (columnTitle r)) in *.
  set (S0 := bucketOrNew (buckets acc) (totalKey r) (columnTitle r)) in *.
  destruct (shouldSkipBucket (bucketNaNInfo acc) (bucketKey r));
    destruct (shouldSkipBucket (bucketNaNInfo acc) (totalKey r));
    destruct (negb (js_isNaN (VNum (ToNumber (column r)))));
    cbn [negb] in H; unbind_all; locals_cbn;
    repeat match goal with
           | E : maybeAdd _ _ _ = Ok _ |- _ => rewrite E; clear E
           | E : pushItem _ _ = Ok _ |- _ => rewrite E; clear E
           | |- _ => progress cbn [bind]
           end;
    eauto 10.
Qed.

(* ================================================================= *)
(** * Integers that numbers represent exactly *)

Lemma digits2_size p : digits2_pos p = Pos.size p.
Proof. induction p; simpl; congruence. Qed.

Lemma digits2_log2 p : Zpos (digits2_pos p) = Z.log2 (Zpos p) + 1.
Proof.
  rewrite digits2_size.
  destruct p; simpl; try rewrite Pos.add_1_r; reflexivity.
Qed.

Lemma iter_xO p d : Zpos (Pos.iter xO p d) = Zpos p * 2 ^ Zpos d.
Proof.
  induction d as [|d IH] using Pos.peano_ind.
  - simpl. lia.
  - rewrite Pos.iter_succ, Pos2Z.inj_xO, IH, Pos2Z.inj_succ, Z.pow_succ_r; lia.
Qed.

(** Shifting right a mantissa whose low bits are zero loses nothing. *)
Lemma shr_exact j :
  forall q : positive,
  iter_pos shr_1 j (Build_shr_record (Zpos q * 2 ^ Zpos j) false false)
  = Build_shr_record (Zpos q) false false.
Proof.
  induction j as [j IH|j IH|]; intros q.
  - cbn [iter_pos].
    assert (E : Zpos q * 2 ^ Zpos j~1 = Zpos ((q * 2 ^ j * 2 ^ j)~0)).
    { replace (Zpos j~1) with (Zpos j + Zpos j + 1) by lia.
      rewrite !Z.pow_add_r by lia.
      rewrite (Pos2Z.inj_xO (q * 2 ^ j * 2 ^ j)).
      rewrite !Pos2Z.inj_mul, !Pos2Z.inj_pow. ring. }
    rewrite E. cbn [shr_1 orb].
    rewrite Pos2Z.inj_mul, Pos2Z.inj_pow, IH.
    rewrite Pos2Z.inj_mul, Pos2Z.inj_pow. apply IH.
  - cbn [iter_pos].
    assert (E : Zpos q * 2 ^ Zpos j~0 = Zpos (q * 2 ^ j) * 2 ^ Zpos j).
    { replace (Zpos j~0) with (Zpos j + Zpos j) by lia.
      rewrite !Z.pow_add_r by lia.
      rewrite !Pos2Z.inj_mul, !Pos2Z.inj_pow. ring. }
    rewrite E, IH. rewrite Pos2Z.inj_mul, Pos2Z.inj_pow. apply IH.
  - replace (Zpos q * 2 ^ 1) with (Zpos q~0) by lia. reflexivity.
Qed.

Lemma round_aux_step s m e m' e' :
  shr_fexp prec emax m e loc_Exact = (Build_shr_record m' false false, e') ->
  binary_round_aux prec emax s m e loc_Exact =
  let '(mrs, e'') := shr_fexp prec emax m' e' loc_Exact in
  match shr_m mrs with
  | Z0 => S754_zero s
  | Zpos m => if e'' <=? emax - prec then S754_finite s m e''
              else S754_infinity s
  | Zneg _ => S754_nan
  end.
Proof. intros H. unfold binary_round_aux. rewrite H. reflexivity. Qed.

Lemma shr_fexp_canonical M e :
  Z.log2 (Zpos M) = 52 -> -1074 <= e ->
  shr_fexp prec emax (Zpos M) e loc_Exact
  = (Build_shr_record (Zpos M) false false, e).
Proof.
  intros HM He. unfold shr_fexp, fexp, emin, Zdigits2.
  rewrite digits2_log2, HM.
  replace (Z.max (52 + 1 + e - prec) (3 - emax - prec) - e) with 0
    by (unfold prec, emax; lia).
  reflexivity.
Qed.

Lemma round_aux_canonical s M e :
  Z.log2 (Zpos M) = 52 -> -1074 <= e <= 971 ->
  binary_round_aux prec emax s (Zpos M) e loc_Exact = S754_finite s M e.
Proof.
  intros HM He.
  rewrite (round_aux_step _ _ _ _ _ (shr_fexp_canonical M e HM (proj1 He))).
  rewrite shr_fexp_canonical by tauto. cbn [shr_m].
  replace (e <=? emax - prec) with true; [reflexivity|].
  symmetry; apply Z.leb_le. unfold emax, prec. lia.
Qed.

(** Rounding [N * 2 ^ k] written with the exponent [- k] gives the one
    number whose value is the integer [N], when [N] is below [2 ^ 53]. *)
Lemma round_exact s p k N :
  0 < N < 2 ^ 53 -> 0 <= k -> Zpos p = N * 2 ^ k ->
  binary_round prec emax s p (- k) =
  S754_finite s (Z.to_pos (N * 2 ^ (52 - Z.log2 N))) (Z.log2 N - 52).
Proof.
  intros HN Hk Hp.
  assert (HL : 0 <= Z.log2 N < 53).
  { split; [apply Z.log2_nonneg|]. apply Z.log2_lt_pow2; lia. }
  set (L := Z.log2 N) in *.
  assert (HM : 0 < N * 2 ^ (52 - L)) by (apply Z.mul_pos_pos; [|apply Z.pow_pos_nonneg]; lia).
  assert (HlogM : Z.log2 (Zpos (Z.to_pos (N * 2 ^ (52 - L)))) = 52).
  { rewrite Z2Pos.id by assumption.
    rewrite Z.log2_mul_pow2 by lia. fold L. lia. }
  assert (Hd : Zpos (digits2_pos p) = L + 1 + k).
  { rewrite digits2_log2, Hp, Z.log2_mul_pow2 by lia. fold L. lia. }
  unfold binary_round. rewrite Hd.
  replace (fexp prec emax (L + 1 + k + - k)) with (L - 52)
    by (unfold fexp, emin, prec, emax; lia).
  unfold shl_align.
  destruct (L - 52 - - k) as [|j|d] eqn:Ej.
  - assert (k = 52 - L) by lia. subst k.
    replace (- (52 - L)) with (L - 52) by lia.
    replace p with (Z.to_pos (N * 2 ^ (52 - L)))
      by (apply Pos2Z.inj; rewrite Z2Pos.id; lia).
    apply round_aux_canonical; [assumption|lia].
  - assert (Hjk : k = Zpos j + (52 - L)) by lia.
    assert (Hpj : Zpos p = Zpos (Z.to_pos (N * 2 ^ (52 - L))) * 2 ^ Zpos j).
    { rewrite Z2Pos.id by assumption. rewrite Hp, Hjk.
      rewrite Z.pow_add_r by lia. ring. }
    erewrite round_aux_step.
    2:{ unfold shr_fexp, Zdigits2. rewrite Hd.
        replace (fexp prec emax (L + 1 + k + - k) - - k) with (Zpos j)
          by (unfold fexp, emin, prec, emax; lia).
        unfold shr, shr_record_of_loc. rewrite Hpj, shr_exact. reflexivity. }
    replace (- k + Zpos j) with (L - 52) by lia.
    rewrite shr_fexp_canonical by (assumption || lia). cbn [shr_m].
    replace (L - 52 <=? emax - prec) with true; [reflexivity|].
    symmetry; apply Z.leb_le. unfold emax, prec. lia.
  - assert (Hm : Pos.iter xO p d = Z.to_pos (N * 2 ^ (52 - L))).
    { apply Pos2Z.inj. rewrite iter_xO, Z2Pos.id, Hp by assumption.
      replace (52 - L) with (k + Zpos d) by lia.
      rewrite Z.pow_add_r by lia. ring. }
    rewrite Hm. apply round_aux_canonical; [assumption|lia].
Qed.

(** The number of a small integer, written out. *)
Lemma of_Z_small z :
  0 < Z.abs z < 2 ^ 53 ->
  of_Z z = S754_finite (z <? 0)
             (Z.to_pos (Z.abs z * 2 ^ (52 - Z.log2 (Z.abs z))))
             (Z.log2 (Z.abs z) - 52).
Proof.
  intros Hz. unfold of_Z, binary_normalize.
  destruct z as [|p|p]; [simpl in Hz; lia| |].
  - change 0 with (- 0) at 1. apply round_exact; simpl in *; lia.
  - change 0 with (- 0) at 1. apply round_exact; simpl in *; lia.
Qed.

Lemma shl_align_value m e e' :
  e' <= e -> Zpos (fst (shl_align m e e')) = Zpos m * 2 ^ (e - e').
Proof.
  intros H. unfold shl_align.
  destruct (e' - e) as [|j|d] eqn:E; cbn [fst].
  - replace (e - e') with 0 by lia. lia.
  - lia.
  - rewrite iter_xO. f_equal. f_equal. lia.
Qed.

Lemma cond_Zopp_abs z x :
  cond_Zopp (z <? 0) (Z.abs z * x) = z * x.
Proof.
  unfold cond_Zopp. destruct (Z.ltb_spec z 0); lia.
Qed.

(** Adding two small integers is exact as long as the sum is small. *)
Lemma add_of_Z a b :
  Z.abs a < 2 ^ 53 -> Z.abs b < 2 ^ 53 -> Z.abs (a + b) < 2 ^ 53 ->
  add (of_Z a) (of_Z b) = of_Z (a + b).
Proof.
  intros Ha Hb Hab.
  destruct (Z.eq_dec a 0) as [->|Na].
  { destruct (Z.eq_dec b 0) as [->|Nb]; [reflexivity|].
    rewrite Z.add_0_l, (of_Z_small b) by lia. reflexivity. }
  destruct (Z.eq_dec b 0) as [->|Nb].
  { rewrite Z.add_0_r, (of_Z_small a) by lia. reflexivity. }
  rewrite (of_Z_small a), (of_Z_small b) by lia.
  set (La := Z.log2 (Z.abs a)). set (Lb := Z.log2 (Z.abs b)).
  assert (HLa : 0 <= La < 53)
    by (split; [apply Z.log2_nonneg|apply Z.log2_lt_pow2; lia]).
  assert (HLb : 0 <= Lb < 53)
    by (split; [apply Z.log2_nonneg|apply Z.log2_lt_pow2; lia]).
  unfold add, SFadd.
  set (ez := Z.min (La - 52) (Lb - 52)).
  assert (Hez : ez <= 0) by lia.
  rewrite !shl_align_value by lia.
  rewrite !Z2Pos.id
    by (apply Z.mul_pos_pos; [|apply Z.pow_pos_nonneg]; lia).
  rewrite <- !Z.mul_assoc, <- !Z.pow_add_r by lia.
  replace (52 - La + (La - 52 - ez)) with (- ez) by lia.
  replace (52 - Lb + (Lb - 52 - ez)) with (- ez) by lia.
  rewrite !cond_Zopp_abs, <- Z.mul_add_distr_r.
  assert (Hpow : 0 < 2 ^ (- ez)) by (apply Z.pow_pos_nonneg; lia).
  unfold binary_normalize.
  destruct ((a + b) * 2 ^ (- ez)) as [|p|p] eqn:Ep.
  - assert (a + b = 0) by nia. now replace (a + b) with 0.
  - assert (0 < a + b) by nia.
    rewrite (of_Z_small (a + b)) by lia.
    replace ez with (- - ez) at 1 by lia.
    rewrite (round_exact false p (- ez) (a + b)) by lia.
    replace (a + b <? 0) with false by (symmetry; apply Z.ltb_ge; lia).
    now rewrite Z.abs_eq by lia.
  - assert (a + b < 0) by nia.
    rewrite (of_Z_small (a + b)) by lia.
    replace ez with (- - ez) at 1 by lia.
    rewrite (round_exact true p (- ez) (- (a + b))) by lia.
    replace (a + b <? 0) with true by (symmetry; apply Z.ltb_lt; lia).
    now rewrite Z.abs_neq by lia.
Qed.

Lemma of_Z_isInteger z : Z.abs z < 2 ^ 53 -> isInteger (of_Z z) = true.
Proof.
  intros Hz. destruct (Z.eq_dec z 0) as [->|Nz]; [reflexivity|].
  rewrite of_Z_small by lia.
  set (L := Z.log2 (Z.abs z)).
  assert (HL : 0 <= L < 53)
    by (split; [apply Z.log2_nonneg|apply Z.log2_lt_pow2; lia]).
  unfold isInteger.
  destruct (Z.leb_spec 0 (L - 52)); [reflexivity|].
  rewrite Z2Pos.id
    by (apply Z.mul_pos_pos; [|apply Z.pow_pos_nonneg]; lia).
  replace (- (L - 52)) with (52 - L) by lia.
  apply Z.eqb_eq, Z.mod_mul. apply Z.pow_nonzero; lia.
Qed.

Lemma of_Z_truthy z :
  Z.abs z < 2 ^ 53 -> truthy (of_Z z) = negb (z =? 0).
Proof.
  intros Hz. destruct (Z.eqb_spec z 0) as [->|Nz]; [reflexivity|].
  now rewrite of_Z_small by lia.
Qed.

Lemma integer_of_of_Z z : Z.abs z < 2 ^ 53 -> integer_of (of_Z z) = Some z.
Proof.
  intros Hz. destruct (Z.eq_dec z 0) as [->|Nz]; [reflexivity|].
  rewrite of_Z_small by lia.
  set (L := Z.log2 (Z.abs z)).
  assert (HL : 0 <= L < 53)
    by (split; [apply Z.log2_nonneg|apply Z.log2_lt_pow2; lia]).
  assert (Hp : 0 < 2 ^ (52 - L)) by (apply Z.pow_pos_nonneg; lia).
  unfold integer_of.
  rewrite Z2Pos.id by (apply Z.mul_pos_pos; lia).
  destruct (Z.leb_spec 0 (L - 52)).
  - replace (L - 52) with 0 by lia. replace (52 - L) with 0 by lia.
    f_equal. unfold cond_Zopp. destruct (Z.ltb_spec z 0); lia.
  - replace (- (L - 52)) with (52 - L) by lia.
    rewrite Z.mod_mul, Z.div_mul by lia. cbn [Z.eqb].
    f_equal. unfold cond_Zopp. destruct (Z.ltb_spec z 0); lia.
Qed.

Lemma of_Z_not_NaN z : Z.abs z < 2 ^ 53 -> isNaN (of_Z z) = false.
Proof.
  intros Hz. destruct (Z.eq_dec z 0) as [->|Nz]; [reflexivity|].
  now rewrite of_Z_small by lia.
Qed.

(** [maybeAdd] on a running sum and a value that are small integers. *)
Lemma maybeAdd_integer S z c type :
  Z.abs S < 2 ^ 53 -> Z.abs z < 2 ^ 53 -> Z.abs (S + z) < 2 ^ 53 ->
  ToNumber c = of_Z z -> type <> "status" ->
  maybeAdd (VNum (of_Z S)) c type = Ok (VNum (of_Z (S + z))).
Proof.
  intros HS Hz HSz Hc Hty. unfold maybeAdd.
  rewrite Hc, of_Z_truthy by assumption.
  destruct (Z.eqb_spec z 0) as [->|Nz]; cbn [negb].
  - apply String.eqb_neq in Hty. rewrite Hty. now rewrite Z.add_0_r.
  - unfold safeAdd. cbn [Number_isInteger].
    rewrite of_Z_isInteger by assumption. cbn [orb].
    destruct c as [| |n|s]; cbn [ToNumber] in Hc.
    + pose proof (of_Z_not_NaN z Hz) as Hn. now rewrite <- Hc in Hn.
    + rewrite of_Z_small in Hc by lia. discriminate.
    + subst n. cbn [js_plus ToNumber]. now rewrite add_of_Z.
    + cbn [js_plus ToNumber]. rewrite Hc. now rewrite add_of_Z.
Qed.

(** [maybeAdd] on a status row whose value is no number. *)
Lemma maybeAdd_status a c :
  js_isNaN c = true -> maybeAdd a c "status" = Ok (js_plus a (VNum (of_Z 1))).
Proof.
  unfold maybeAdd, js_isNaN. intros H.
  destruct (ToNumber c); try discriminate. reflexivity.
Qed.

Lemma contribute_sum r B b :
  contribute r B = Ok b ->
  maybeAdd (Stats.sum B) (column r) (columnType r) = Ok (Stats.sum b).
Proof.
  unfold contribute, pushItem. intros H. unbind_all.
  rewrite E. f_equal.
  destruct (negb (js_isNaN (VNum (ToNumber (column r)))));
    cbn [Stats.items Stats.set_min Stats.set_max Stats.set_sum] in H;
    destruct (Stats.items B); try discriminate; now injection H as <-.
Qed.

(** The step leaves alone the buckets the row does not fall into. *)
Lemma bucketStep_frame t acc r acc' key :
  bucketStep t acc r = Ok acc' ->
  fallsInto key r = false ->
  obj_get (buckets acc') key = obj_get (buckets acc) key /\
  shouldSkipBucket (bucketNaNInfo acc') key
  = shouldSkipBucket (bucketNaNInfo acc) key.
Proof.
  unfold fallsInto. intros H Hf.
  apply orb_false_elim in Hf as [H1 H2].
  apply String.eqb_neq in H1, H2.
  unfold shouldSkipBucket.
  destruct (itemIsNaN r) eqn:En.
  - rewrite bucketStep_NaN in H by assumption. injection H as <-.
    cbn [buckets bucketNaNInfo].
    now rewrite !obj_get_set_other by assumption.
  - unfold bucketStep in H. rewrite En in H. unbind H. injection H as <-.
    cbn [buckets bucketNaNInfo].
    now rewrite !obj_get_set_other by assumption.
Qed.

Lemma bucketOrNew_sum bs key title :
  Stats.sum (bucketOrNew bs key title) = sumAt bs key.
Proof. unfold bucketOrNew, sumAt. now destruct (obj_get bs key). Qed.

(** One step of the loop, seen from a bucket the row falls into, when the
    row carries a small integer. *)
Lemma bucketStep_integer t acc r acc' key S z :
  bucketStep t acc r = Ok acc' ->
  fallsInto key r = true ->
  resultType r <> "total" -> columnType r <> "status" ->
  ToNumber (column r) = of_Z z ->
  shouldSkipBucket (bucketNaNInfo acc) key = false ->
  sumAt (buckets acc) key = VNum (of_Z S) ->
  Z.abs S + Z.abs z < 2 ^ 53 ->
  shouldSkipBucket (bucketNaNInfo acc') key = false /\
  sumAt (buckets acc') key = VNum (of_Z (S + z)) /\
  obj_get (buckets acc') key <> None.
Proof.
  intros H Hf Hrt Hty Hc Hskip Hsum Hbound.
  assert (Hnan : itemIsNaN r = false).
  { unfold itemIsNaN, js_isNaN. rewrite Hc, of_Z_not_NaN by lia.
    apply andb_false_r. }
  pose proof (totalKey_neq r Hrt) as Hkeys.
  destruct (bucketStep_unshared _ _ _ _ Hnan Hkeys H)
    as (b & s & Hb & Hs & Hbs & Hinfo).
  rewrite Hinfo. split; [assumption|].
  assert (Hadd : forall B b', sumAt (buckets acc) key = Stats.sum B ->
                 contribute r B = Ok b' ->
                 Stats.sum b' = VNum (of_Z (S + z))).
  { intros B b' HB Hcon. apply contribute_sum in Hcon.
    rewrite <- HB, Hsum, (maybeAdd_integer S z) in Hcon by (assumption || lia).
    now injection Hcon as <-. }
  unfold fallsInto in Hf. apply orb_true_iff in Hf as [Hf|Hf];
    apply String.eqb_eq in Hf; subst key; rewrite Hskip in *;
    unfold sumAt at 1; rewrite Hbs.
  - rewrite obj_get_set_other, obj_get_set_same by congruence.
    split; [|discriminate].
    eapply Hadd; [|eassumption]. now rewrite bucketOrNew_sum.
  - rewrite obj_get_set_same. split; [|discriminate].
    eapply Hadd; [|eassumption]. now rewrite bucketOrNew_sum.
Qed.

Lemma bucketLoop_integers t key (val : Row -> Z) :
  forall rows acc acc' S,
  foldM (bucketStep t) rows acc = Ok acc' ->
  (forall r, In r rows -> fallsInto key r = true ->
     resultType r <> "total" /\ columnType r <> "status" /\
     ToNumber (column r) = of_Z (val r)) ->
  shouldSkipBucket (bucketNaNInfo acc) key = false ->
  sumAt (buckets acc) key = VNum (of_Z S) ->
  Z.abs S + sumZ (map (fun r => Z.abs (val r)) (filter (fallsInto key) rows))
  < 2 ^ 53 ->
  shouldSkipBucket (bucketNaNInfo acc') key = false /\
  sumAt (buckets acc') key
  = VNum (of_Z (S + sumZ (map val (filter (fallsInto key) rows)))) /\
  (obj_get (buckets acc) key <> None \/ filter (fallsInto key) rows <> [] ->
   obj_get (buckets acc') key <> None).
Proof.
  induction rows as [|r rows IH]; intros acc acc' S H Hrows Hskip Hsum Hb.
  - injection H as <-. cbn [filter map sumZ fold_right].
    rewrite Z.add_0_r. repeat split; auto. intros [?|?]; congruence.
  - cbn [foldM] in H. unbind H.
    assert (Hrows' : forall r', In r' rows -> fallsInto key r' = true ->
               resultType r' <> "total" /\ columnType r' <> "status" /\
               ToNumber (column r') = of_Z (val r'))
      by (intros; apply Hrows; [now right|assumption]).
    cbn [filter] in *. destruct (fallsInto key r) eqn:Ef.
    + destruct (Hrows r (or_introl eq_refl) Ef) as (Hrt & Hty & Hc).
      cbn [map sumZ fold_right] in *.
      fold (sumZ (map (fun r => Z.abs (val r)) (filter (fallsInto key) rows))) in Hb.
      fold (sumZ (map val (filter (fallsInto key) rows))).
      assert (Hpos : 0 <= sumZ (map (fun r => Z.abs (val r))
                                  (filter (fallsInto key) rows))).
      { clear. induction (filter (fallsInto key) rows); simpl; lia. }
      destruct (bucketStep_integer _ _ _ _ _ S (val r) E Ef Hrt Hty Hc Hskip Hsum)
        as (Hskip1 & Hsum1 & Hex1); [lia|].
      destruct (IH _ _ _ H Hrows' Hskip1 Hsum1) as (Hskip2 & Hsum2 & Hex2);
        [lia|].
      split; [assumption|]. split.
      * rewrite Hsum2. f_equal. f_equal. lia.
      * intros _. apply Hex2. now left.
    + destruct (bucketStep_frame _ _ _ _ key E Ef) as [Hget Hsk].
      destruct (IH x acc' S H Hrows') as (Hskip2 & Hsum2 & Hex2).
      * now rewrite Hsk.
      * unfold sumAt. now rewrite Hget.
      * assumption.
      * repeat split; auto. intros Hor. apply Hex2.
        rewrite Hget. assumption.
Qed.

(* ================================================================= *)
(** * From the buckets to the posted result *)

Lemma related_mapM {A B} (f : string * A -> result (string * B))
    (R : A -> B -> Prop) :
  (forall k v y, f (k, v) = Ok y -> fst y = k /\ R v (snd y)) ->
  forall l l', mapM f l = Ok l' -> related R l l'.
Proof.
  intros Hf l; induction l as [|[k0 v0] l IH]; intros l' H k.
  - injection H as <-. reflexivity.
  - cbn [mapM] in H. unbind_all. destruct x as [k1 w1].
    destruct (Hf _ _ _ E) as [Hk HR]. cbn [fst snd] in *. subst k1.
    cbn [obj_get]. destruct (String.eqb k0 k); eauto.
    apply (IH _ E0 k).
Qed.

Lemma related_trans {A B C} (R : A -> B -> Prop) (S : B -> C -> Prop)
    (T : A -> C -> Prop) o1 o2 o3 :
  (forall a b c, R a b -> S b c -> T a c) ->
  related R o1 o2 -> related S o2 o3 -> related T o1 o3.
Proof.
  intros HT H12 H23 k. specialize (H12 k). specialize (H23 k).
  destruct (obj_get o1 k) as [a|].
  - destruct H12 as (b & Hb & Hab). rewrite Hb in H23.
    destruct H23 as (c & Hc & Hbc). eauto.
  - now rewrite H12 in H23.
Qed.

Lemma sameCore_refl b : sameCore b b.
Proof. now repeat split. Qed.

Lemma sameCore_trans a b c : sameCore a b -> sameCore b c -> sameCore a c.
Proof. unfold sameCore. intuition congruence. Qed.

Ltac stats_cbn :=
  cbn [Stats.sum Stats.avg Stats.max Stats.median Stats.min Stats.stdev
       Stats.variance Stats.title Stats.items
       Stats.set_sum Stats.set_avg Stats.set_max Stats.set_median
       Stats.set_min Stats.set_stdev Stats.set_variance Stats.set_title
       Stats.set_items] in *.

Ltac core_solve := unfold sameCore; stats_cbn; auto.

Lemma meanMedianStep_core info k v y :
  meanMedianStep info (k, v) = Ok y -> fst y = k /\ sameCore v (snd y).
Proof.
  unfold meanMedianStep; intros H.
  destruct (shouldSkipBucket info k).
  { injection H as <-. split; [reflexivity|apply sameCore_refl]. }
  unbind_all. cbn [fst snd]. split; [reflexivity|].
  assert (H1 : sameCore v x).
  { unfold calculateMean in E.
    repeat match type of E with
           | (if ?c then _ else _) = _ => destruct c
           | match ?c with _ => _ end = _ => destruct c
           end; try discriminate; injection E as <-; core_solve. }
  assert (H2 : sameCore x x0).
  { unfold calculateMedian in E0.
    destruct (Stats.items x); [|discriminate].
    destruct (_ =? 0); unbind_all; core_solve. }
  eapply sameCore_trans; eassumption.
Qed.

Lemma related_refl {A} (R : A -> A -> Prop) (o : list (string * A)) :
  (forall a, R a a) -> related R o o.
Proof. intros HR k. destruct (obj_get o k); eauto. Qed.

Lemma related_obj_set {A} (R : A -> A -> Prop) (o : list (string * A)) k v w :
  (forall a, R a a) -> obj_get o k = Some v -> R v w ->
  related R o (obj_set o k w).
Proof.
  intros HR Hk Hvw k'. rewrite obj_get_set.
  destruct (String.eqb_spec k k') as [<-|Hne].
  - rewrite Hk. eauto.
  - destruct (obj_get o k'); eauto.
Qed.

Lemma varianceStep_core bs tot r bs' tot' :
  varianceStep (bs, tot) r = Ok (bs', tot') -> related sameCore bs bs'.
Proof.
  unfold varianceStep. intros H.
  destruct (js_isNaN _).
  { injection H as <- <-. apply related_refl, sameCore_refl. }
  destruct (obj_get bs (bucketKey r)) as [b|] eqn:Eb; [|discriminate].
  destruct (obj_get bs (totalKey r)) as [s|] eqn:Es; [|discriminate].
  injection H as <- <-.
  match goal with
  | |- related _ _ (obj_set ?o1 _ _) =>
      apply (related_trans sameCore sameCore sameCore bs o1);
        [exact sameCore_trans| |]
  end.
  - eapply (related_obj_set sameCore);
      [exact sameCore_refl|exact Eb|core_solve].
  - match goal with
    | |- context [obj_get ?o (totalKey r)] =>
        destruct (obj_get o (totalKey r)) as [s1|] eqn:Es1
    end.
    + eapply (related_obj_set sameCore);
        [exact sameCore_refl|exact Es1|core_solve].
    + rewrite obj_get_set, Es in Es1.
      destruct (String.eqb (bucketKey r) (totalKey r)); discriminate.
Qed.

Lemma varianceLoop_core rows :
  forall st st', foldM varianceStep rows st = Ok st' ->
  related sameCore (fst st) (fst st').
Proof.
  induction rows as [|r rows IH]; intros [bs tot] [bs' tot'] H.
  - injection H as <- <-. intros k. cbn [fst].
    destruct (obj_get bs k); eauto using sameCore_refl.
  - cbn [foldM] in H. unbind H. destruct x as [bs1 tot1].
    eapply related_trans;
      [exact sameCore_trans|eapply varianceStep_core; eassumption|].
    apply (IH _ _ H).
Qed.

Lemma stringify_fields itemsFirst b out :
  stringify itemsFirst b = Ok out ->
  fieldText (Stats.sum b) out "sum" /\
  fieldText (Stats.avg b) out "avg" /\
  fieldText (Stats.max b) out "max" /\
  fieldText (Stats.median b) out "median" /\
  fieldText (Stats.min b) out "min" /\
  fieldText (Stats.stdev b) out "stdev" /\
  fieldText (Stats.variance b) out "variance".
Proof.
  unfold stringify, fieldText. intros H. unbind_all.
  rewrite E, E0, E1, E2, E3, E4, E5.
  repeat split; reflexivity.
Qed.

Lemma fieldText_delete x props name k :
  k <> name -> fieldText x props name ->
  fieldText x (obj_delete props k) name.
Proof.
  unfold fieldText. intros Hk H. destruct (toString x); [|assumption].
  rewrite obj_get_delete. now destruct (String.eqb_spec k name).
Qed.

Lemma serializeStep_core info tot k v y :
  serializeStep info tot (k, v) = Ok y -> fst y = k /\ coreText v (snd y).
Proof.
  unfold serializeStep, coreText. intros H.
  destruct (shouldSkipBucket info k).
  - unbind_all. cbn [fst snd].
    destruct (stringify_fields _ _ _ E) as (?&?&?&?&?&?&?). auto.
  - destruct (Stats.items v); [|discriminate]. unbind_all. cbn [fst snd].
    destruct (stringify_fields _ _ _ E) as (F1&_&F3&_&F5&_). stats_cbn.
    repeat split; repeat apply fieldText_delete; auto; discriminate.
Qed.

(** ** Keys are unique *)

Lemma obj_set_fst {A} (o : list (string * A)) k v :
  map fst (obj_set o k v) =
  if existsb (String.eqb k) (map fst o) then map fst o
  else (map fst o ++ [k])%list.
Proof.
  induction o as [|[k0 v0] o IH]; cbn [obj_set map fst existsb app].
  - reflexivity.
  - rewrite (String.eqb_sym k k0).
    destruct (String.eqb_spec k0 k) as [->|Hk]; cbn [orb map fst].
    + reflexivity.
    + rewrite IH. now destruct (existsb _ _).
Qed.

Lemma obj_set_unique {A} (o : list (string * A)) k v :
  uniqueKeys o -> uniqueKeys (obj_set o k v).
Proof.
  unfold uniqueKeys. rewrite obj_set_fst. intros H.
  destruct (existsb (String.eqb k) (map fst o)) eqn:E; [assumption|].
  apply NoDup_app; [assumption|repeat constructor; easy|].
  intros x Hx [Hk|[]]. subst x.
  assert (Ht : existsb (String.eqb k) (map fst o) = true)
    by (apply existsb_exists; exists k; split; [assumption|apply String.eqb_refl]).
  congruence.
Qed.

Lemma bucketStep_unique t acc r acc' :
  uniqueKeys (buckets acc) -> bucketStep t acc r = Ok acc' ->
  uniqueKeys (buckets acc').
Proof.
  unfold bucketStep; intros Hk H.
  destruct (itemIsNaN r).
  - injection H as <-. cbn [buckets]. now repeat apply obj_set_unique.
  - unbind H. injection H as <-. cbn [buckets]. now repeat apply obj_set_unique.
Qed.

Lemma varianceStep_unique st r st' :
  uniqueKeys (fst st) -> varianceStep st r = Ok st' -> uniqueKeys (fst st').
Proof.
  unfold varianceStep; destruct st as [bs tot]; intros Hk H.
  destruct (js_isNaN _); [now injection H as <-|].
  destruct (obj_get bs (bucketKey r)); [|discriminate].
  destruct (obj_get bs (totalKey r)); [|discriminate].
  injection H as <-. cbn [fst]. now repeat apply obj_set_unique.
Qed.

Lemma obj_get_notin {A} (o : list (string * A)) k :
  ~ In k (map fst o) -> obj_get o k = None.
Proof.
  induction o as [|[k0 v0] o IH]; cbn [map fst In obj_get]; [reflexivity|].
  intros H. destruct (String.eqb_spec k0 k); [tauto|]. apply IH. tauto.
Qed.

(** [{ columnType, total, ...buckets }]: a bucket is found in the result
    under its own key. *)
Lemma spread_gets {A} (f : A -> jsval) (bs : list (string * A)) :
  uniqueKeys bs ->
  forall o k v, obj_get bs k = Some v ->
  obj_get (fold_left (fun o kv => obj_set o (fst kv) (f (snd kv))) bs o) k
  = Some (f v).
Proof.
  unfold uniqueKeys.
  induction bs as [|[k0 v0] bs IH]; cbn [map fst obj_get fold_left snd];
    intros Hnd o k v H; [discriminate|].
  inversion Hnd as [|? ? Hnotin Hnd']; subst.
  destruct (String.eqb_spec k0 k) as [->|Hk].
  - injection H as ->.
    assert (Hkeep : forall bs' o',
              ~ In k (map fst bs') ->
              obj_get (fold_left (fun o kv => obj_set o (fst kv) (f (snd kv)))
                         bs' o') k = obj_get o' k).
    { induction bs' as [|[k1 v1] bs' IH']; cbn [map fst In fold_left snd];
        intros o' Hn; [reflexivity|].
      rewrite IH' by tauto. apply obj_get_set_other. tauto. }
    rewrite Hkeep by assumption. apply obj_get_set_same.
  - now apply IH.
Qed.

Lemma uniqueKeys_map {A B} (o : list (string * A)) (o' : list (string * B)) :
  map fst o' = map fst o -> uniqueKeys o -> uniqueKeys o'.
Proof. unfold uniqueKeys. now intros ->. Qed.

(** The phases of the handler on a request that holds a row. *)
Lemma summarize_phases array_sort mocked first rest tx evs :
  summarize array_sort mocked (first :: rest) tx = Ok evs ->
  exists tot0 acc bs1 tot1 bs2 tot2 tot3 out totalOut,
    foldM (bucketStep (existsb itemIsNaN
                         (array_sort compareRows (first :: rest))))
      (array_sort compareRows (first :: rest)) (Build_Acc [] [] tot0)
    = Ok acc /\
    mapM (meanMedianStep (bucketNaNInfo acc)) (buckets acc) = Ok bs1 /\
    foldM varianceStep (array_sort compareRows (first :: rest)) (bs1, tot1)
    = Ok (bs2, tot2) /\
    Stats.max tot3 = Stats.max tot2 /\
    mapM (serializeStep (bucketNaNInfo acc) tot3) bs2 = Ok out /\
    evs = postResult mocked
            (fold_left (fun o kv => obj_set o (fst kv) (JObject (snd kv))) out
               [("columnType", JString (columnType first));
                ("total", JObject totalOut)]) tx.
Proof.
  unfold summarize; intros H.
  unbind H. destruct x1 as [bs info tot]. unbind H.
  destruct x3 as [bs2 tot2]. unbind H. injection H as <-.
  eexists _, (Build_Acc bs info tot), _, _, bs2, tot2, _, _, _.
  cbn [buckets bucketNaNInfo].
  repeat split; eassumption || reflexivity.
Qed.

Lemma coreText_sameCore b b' stats :
  sameCore b b' -> coreText b' stats -> coreText b stats.
Proof.
  unfold sameCore, coreText. intros (-> & -> & ->). auto.
Qed.

Lemma bucketLoop_unique t rows :
  forall acc acc', uniqueKeys (buckets acc) ->
  foldM (bucketStep t) rows acc = Ok acc' -> uniqueKeys (buckets acc').
Proof.
  intros acc acc' Hu H.
  eapply (foldM_invariant (bucketStep t) (fun a => uniqueKeys (buckets a)));
    [intros; eapply bucketStep_unique; eauto|exact Hu|exact H].
Qed.

(** What a posted message holds for a bucket: the texts of the sum, the
    minimum and the maximum that the bucketing loop has left. *)
Lemma summarize_buckets array_sort mocked first rest tx evs :
  summarize array_sort mocked (first :: rest) tx = Ok evs ->
  exists tot0 acc result,
    foldM (bucketStep (existsb itemIsNaN
                         (array_sort compareRows (first :: rest))))
      (array_sort compareRows (first :: rest)) (Build_Acc [] [] tot0)
    = Ok acc /\
    evs = postResult mocked result tx /\
    forall key b, obj_get (buckets acc) key = Some b ->
      exists stats,
        obj_get result key = Some (JObject stats) /\ coreText b stats.
Proof.
  intros H.
  apply summarize_phases in H
    as (tot0 & acc & bs1 & tot1 & bs2 & tot2 & tot3 & out & totalOut
        & H1 & H2 & H3 & _ & H4 & ->).
  exists tot0, acc. eexists. split; [exact H1|]. split; [reflexivity|].
  intros key b Hb.
  assert (R1 : related sameCore (buckets acc) bs1).
  { eapply related_mapM; [|exact H2].
    intros; eapply meanMedianStep_core; eauto. }
  assert (R2 : related sameCore bs1 bs2)
    by apply (varianceLoop_core _ _ _ H3).
  assert (R3 : related coreText bs2 out).
  { eapply related_mapM; [|exact H4].
    intros; eapply serializeStep_core; eauto. }
  assert (U : uniqueKeys out).
  { apply (uniqueKeys_map bs2).
    { eapply mapM_keys; [|exact H4]. intros; eapply serializeStep_key; eauto. }
    change bs2 with (fst (bs2, tot2)).
    eapply (foldM_invariant varianceStep (fun st => uniqueKeys (fst st)));
      [intros; eapply varianceStep_unique; eauto| |exact H3].
    cbn [fst]. apply (uniqueKeys_map (buckets acc)).
    { eapply mapM_keys; [|exact H2]. intros; eapply meanMedianStep_key; eauto. }
    eapply bucketLoop_unique; [|exact H1]. constructor. }
  specialize (R1 key). rewrite Hb in R1. destruct R1 as (b1 & Hb1 & C1).
  specialize (R2 key). rewrite Hb1 in R2. destruct R2 as (b2 & Hb2 & C2).
  specialize (R3 key). rewrite Hb2 in R3. destruct R3 as (stats & Hs & C3).
  exists stats. split.
  - now apply (spread_gets JObject).
  - eapply coreText_sameCore; [exact C1|].
    eapply coreText_sameCore; eassumption.
Qed.

(* ================================================================= *)
(** * Poisoned buckets *)

(** On a row that does not poison, a bucket that is skipped is stored back
    as it was found. *)
Lemma bucketStep_skipped t acc r acc' :
  itemIsNaN r = false ->
  bucketStep t acc r = Ok acc' ->
  bucketNaNInfo acc' = bucketNaNInfo acc /\
  exists b s,
    buckets acc' = obj_set (obj_set (buckets acc) (bucketKey r) b) (totalKey r) s /\
    (shouldSkipBucket (bucketNaNInfo acc) (bucketKey r) = true ->
     b = bucketOrNew (buckets acc) (bucketKey r) (columnTitle r)) /\
    (shouldSkipBucket (bucketNaNInfo acc) (totalKey r) = true ->
     s = bucketOrNew (buckets acc) (totalKey r) (columnTitle r)).
Proof.
  intros Hnan H. unfold bucketStep in H. rewrite Hnan in H.
  fold (bucketOrNew (buckets acc) (bucketKey r) (columnTitle r)) in H.
  fold (bucketOrNew (buckets acc) (totalKey r) (columnTitle r)) in H.
  destruct (String.eqb_spec (bucketKey r) (totalKey r)) as [Heq|Hne].
  - rewrite <- Heq in *.
    set (B0 := bucketOrNew (buckets acc) (bucketKey r) (columnTitle r)) in *.
    destruct (obj_get (buckets acc) (bucketKey r));
      destruct (shouldSkipBucket (bucketNaNInfo acc) (bucketKey r));
      revert H; destruct (negb (js_isNaN (VNum (ToNumber (column r)))));
      intros H; cbn [negb andb] in H; unbind_all; locals_cbn;
      (split; [reflexivity|]); eexists _, _; (split; [reflexivity|]);
      split; intros; reflexivity || discriminate.
  - set (B0 := bucketOrNew (buckets acc) (bucketKey r) (columnTitle r)) in *.
    set (S0 := bucketOrNew (buckets acc) (totalKey r) (columnTitle r)) in *.
    destruct (shouldSkipBucket (bucketNaNInfo acc) (bucketKey r));
      destruct (shouldSkipBucket (bucketNaNInfo acc) (totalKey r));
      revert H; destruct (negb (js_isNaN (VNum (ToNumber (column r)))));
      intros H; cbn [negb andb] in H; unbind_all; locals_cbn;
      (split; [reflexivity|]); eexists _, _; (split; [reflexivity|]);
      split; intros; reflexivity || discriminate.
Qed.

Lemma nanBucket_allNaN title : allNaN (nanBucket title).
Proof. now repeat split. Qed.

(** Within the bucketing loop poisoning is permanent: a poisoned bucket
    stays poisoned and all-NaN, whatever row comes next. *)
Lemma bucketStep_poisoned t acc r acc' key :
  bucketStep t acc r = Ok acc' ->
  shouldSkipBucket (bucketNaNInfo acc) key = true ->
  (exists b, obj_get (buckets acc) key = Some b /\ allNaN b) ->
  shouldSkipBucket (bucketNaNInfo acc') key = true /\
  exists b', obj_get (buckets acc') key = Some b' /\ allNaN b'.
Proof.
  intros H Hskip (b & Hb & Hall).
  destruct (itemIsNaN r) eqn:En.
  - rewrite bucketStep_NaN in H by assumption. injection H as <-.
    cbn [buckets bucketNaNInfo]. unfold shouldSkipBucket in *.
    rewrite !obj_get_set.
    destruct (String.eqb (totalKey r) key);
      [split; [reflexivity|eauto using nanBucket_allNaN]|].
    destruct (String.eqb (bucketKey r) key);
      [split; [reflexivity|eauto using nanBucket_allNaN]|].
    eauto.
  - destruct (bucketStep_skipped _ _ _ _ En H)
      as (-> & b1 & s1 & -> & Hb1 & Hs1).
    split; [assumption|]. rewrite !obj_get_set.
    destruct (String.eqb_spec (totalKey r) key) as [Et|Et].
    + subst key. rewrite (Hs1 Hskip). unfold bucketOrNew. rewrite Hb. eauto.
    + destruct (String.eqb_spec (bucketKey r) key) as [Eb|Eb]; [|eauto].
      subst key. rewrite (Hb1 Hskip). unfold bucketOrNew. rewrite Hb. eauto.
Qed.

Lemma bucketLoop_poisoned t key rows :
  forall acc acc',
  foldM (bucketStep t) rows acc = Ok acc' ->
  shouldSkipBucket (bucketNaNInfo acc) key = true ->
  (exists b, obj_get (buckets acc) key = Some b /\ allNaN b) ->
  shouldSkipBucket (bucketNaNInfo acc') key = true /\
  exists b', obj_get (buckets acc') key = Some b' /\ allNaN b'.
Proof.
  induction rows as [|r rows IH]; intros acc acc' H Hskip Hb.
  - injection H as <-. auto.
  - cbn [foldM] in H. unbind H.
    destruct (bucketStep_poisoned _ _ _ _ key E Hskip Hb) as [Hskip1 Hb1].
    eauto.
Qed.

(** The mean and median pass leaves a poisoned bucket alone. *)
Lemma meanMedianStep_poisoned info key values :
  shouldSkipBucket info key = true ->
  meanMedianStep info (key, values) = Ok (key, values).
Proof. unfold meanMedianStep. now intros ->. Qed.

(** The rows of a bucket that is not poisoned: there is always one. *)
Lemma bucketStep_items t acc r acc' :
  (forall key b, obj_get (buckets acc) key = Some b ->
     shouldSkipBucket (bucketNaNInfo acc) key = false ->
     exists items, Stats.items b = Some items /\ items <> []) ->
  bucketStep t acc r = Ok acc' ->
  forall key b, obj_get (buckets acc') key = Some b ->
    shouldSkipBucket (bucketNaNInfo acc') key = false ->
    exists items, Stats.items b = Some items /\ items <> [].
Proof.
  intros Inv H key b Hb Hskip.
  destruct (itemIsNaN r) eqn:En.
  - rewrite bucketStep_NaN in H by assumption. injection H as <-.
    cbn [buckets bucketNaNInfo] in *. unfold shouldSkipBucket in *.
    rewrite !obj_get_set in Hb. rewrite !obj_get_set in Hskip.
    destruct (String.eqb (totalKey r) key); [discriminate|].
    destruct (String.eqb (bucketKey r) key); [discriminate|].
    apply (Inv key b Hb Hskip).
  - assert (Hinfo : bucketNaNInfo acc' = bucketNaNInfo acc)
      by apply (bucketStep_skipped _ _ _ _ En H).
    rewrite Hinfo in Hskip.
    assert (Hpush : forall x y, pushItem r x = Ok y ->
              exists items, Stats.items y = Some items /\ items <> []).
    { unfold pushItem. intros x y Hp. destruct (Stats.items x); [|discriminate].
      injection Hp as <-. stats_cbn. eexists; split; [reflexivity|].
      now destruct l. }
    unfold bucketStep in H. rewrite En in H.
    revert H. destruct (negb (js_isNaN (VNum (ToNumber (column r))))); intros H;
    (destruct (String.eqb_spec (bucketKey r) (totalKey r)) as [Heq|Hne];
     [ rewrite <- Heq in *;
       destruct (String.eqb_spec (bucketKey r) key) as [Ek|Ek];
       [ subst key; rewrite Hskip in H;
         destruct (obj_get (buckets acc) (bucketKey r));
         cbn [negb andb] in H; unbind_all; locals_cbn;
         rewrite obj_get_set_same in Hb; injection Hb as <-; eauto
       | unbind_all; cbn [buckets] in Hb;
         rewrite !obj_get_set_other in Hb by assumption; eauto ]
     | destruct (String.eqb_spec (totalKey r) key) as [Et|Et];
       [ subst key; rewrite Hskip in H;
         destruct (shouldSkipBucket (bucketNaNInfo acc) (bucketKey r));
         cbn [negb andb] in H; unbind_all; locals_cbn;
         rewrite obj_get_set_same in Hb; injection Hb as <-; eauto
       | destruct (String.eqb_spec (bucketKey r) key) as [Ek|Ek];
         [ subst key; rewrite Hskip in H;
           destruct (shouldSkipBucket (bucketNaNInfo acc) (totalKey r));
           cbn [negb andb] in H; unbind_all; locals_cbn;
           rewrite obj_get_set_other, obj_get_set_same in Hb by assumption;
           injection Hb as <-; eauto
         | unbind_all; cbn [buckets] in Hb;
           rewrite !obj_get_set_other in Hb by assumption; eauto ] ] ]).
Qed.

Lemma bucketLoop_items t rows tot0 acc :
  foldM (bucketStep t) rows (Build_Acc [] [] tot0) = Ok acc ->
  forall key b, obj_get (buckets acc) key = Some b ->
    shouldSkipBucket (bucketNaNInfo acc) key = false ->
    exists items, Stats.items b = Some items /\ items <> [].
Proof.
  intros H.
  eapply (foldM_invariant (bucketStep t)
            (fun acc => forall key b, obj_get (buckets acc) key = Some b ->
               shouldSkipBucket (bucketNaNInfo acc) key = false ->
               exists items, Stats.items b = Some items /\ items <> []));
    [intros a r a' Ha Hs; exact (bucketStep_items t a r a' Ha Hs)| |exact H].
  intros key b Hb. discriminate Hb.
Qed.

Lemma insertRow_perm cmp x l : Permutation (insertRow cmp x l) (x :: l).
Proof.
  induction l as [|y l IH]; cbn [insertRow]; [reflexivity|].
  destruct (ltb (cmp y x) (S754_zero false)); [|reflexivity].
  rewrite IH. apply perm_swap.
Qed.

Lemma stableSort_perm cmp l : Permutation (stableSort cmp l) l.
Proof.
  induction l as [|x l IH]; cbn [stableSort fold_right]; [reflexivity|].
  fold (stableSort cmp l). rewrite insertRow_perm. now constructor.
Qed.


(* ================================================================= *)
(** * The boundary of the handler *)

(** C6.  A request none of whose entries survives the filter (each one is
    missing, or its row has no [column]) is answered by exactly one message,
    whose result is [{ total: undefined }] and nothing else and whose
    transaction is the one of the request; no row is touched. *)
Theorem empty_request_posts_undefined_total :
  forall array_sort mocked h data tx,
  (forall i, In i data ->
     match i with
     | None => True
     | Some a => column (h a) = VUndefined \/ column (h a) = VNull
     end) ->
  onmessage array_sort mocked h data tx =
  (h, Ok [(if mocked then MockedPostMessage else PostMessage)
            {| result_of := [("total", JUndefined)];
               transaction_of := tx |}]).
Proof.
  intros array_sort mocked h data tx H.
  unfold onmessage. rewrite (filterRows_nil _ _ H). simpl.
  now destruct mocked.
Qed.

Lemma empty_request_posts_undefined_total_witness :
  (forall i, In i [None; Some 0%nat] ->
     match i with
     | None => True
     | Some a =>
         column (heapOf [] a) = VUndefined \/ column (heapOf [] a) = VNull
     end) /\
  onmessage stableSort false (heapOf []) [None; Some 0%nat] (VStr "t1") =
  (heapOf [],
   Ok [PostMessage {| result_of := [("total", JUndefined)];
                      transaction_of := VStr "t1" |}]).
Proof.
  assert (H : forall i, In i [None; Some 0%nat] ->
     match i with
     | None => True
     | Some a =>
         column (heapOf [] a) = VUndefined \/ column (heapOf [] a) = VNull
     end).
  { intros i [<-|[<-|[]]]; simpl; auto. }
  split; [exact H|].
  exact (empty_request_posts_undefined_total stableSort false (heapOf [])
           [None; Some 0%nat] (VStr "t1") H).
Defined.

(** C10.  When the filter keeps at least one row and a message is posted,
    the [columnType] of the result is the [columnType] of the first kept row
    of the request, whatever the other rows and the sorting function are. *)
Theorem result_columnType_of_first_kept_row :
  forall array_sort mocked h data tx evs a rest,
  filterRows h data = a :: rest ->
  snd (onmessage array_sort mocked h data tx) = Ok evs ->
  exists result,
    evs = postResult mocked result tx /\
    obj_get result "columnType" = Some (JString (columnType (h a))).
Proof.
  intros array_sort mocked h data tx evs a rest Hf H.
  destruct (onmessage array_sort mocked h data tx) as [h' r] eqn:E.
  simpl in H; subst r.
  apply onmessage_inv in E as [Ep Hs]. rewrite Hf in Ep, Hs.
  destruct (parse_frame _ _ _ _ a Ep) as (_&_&Hct&_).
  simpl map in Hs.
  apply summarize_nonempty in Hs as (tot & bs & Hk & ->).
  eexists; split; [reflexivity|].
  rewrite spread_keeps by (auto; reflexivity).
  simpl. now rewrite Hct.
Qed.

Lemma result_columnType_of_first_kept_row_witness :
  filterRows (heapOf mixedRows) (None :: requestOf mixedRows)
  = [0%nat; 1%nat] /\
  snd (onmessage stableSort false (heapOf mixedRows)
         (None :: requestOf mixedRows) (VStr "t1")) = Ok mixedEvents /\
  exists result,
    mixedEvents = postResult false result (VStr "t1") /\
    obj_get result "columnType" = Some (JString "status").
Proof.
  assert (H1 : filterRows (heapOf mixedRows) (None :: requestOf mixedRows)
               = [0%nat; 1%nat]) by reflexivity.
  assert (H2 : snd (onmessage stableSort false (heapOf mixedRows)
                      (None :: requestOf mixedRows) (VStr "t1"))
               = Ok mixedEvents)
    by (vm_compute; reflexivity).
  split; [exact H1|]. split; [exact H2|].
  exact (result_columnType_of_first_kept_row stableSort false
           (heapOf mixedRows) (None :: requestOf mixedRows) (VStr "t1")
           mixedEvents 0%nat [1%nat] H1 H2).
Defined.

(** C5 as amended.  Processing a request never writes a field of a row
    other than [column], and writes [column] only on rows of the request that
    are no status rows and whose value is a string ending in ["Inf"].  Such a
    row, when the request lists it exactly once and a message is posted,
    holds afterwards the same text with its first ["Inf"] replaced by
    ["Infinity"]. *)
Theorem rows_written_only_by_infinity_rewrite :
  forall array_sort mocked h data tx a,
  categoryType (fst (onmessage array_sort mocked h data tx) a)
  = categoryType (h a) /\
  resultType (fst (onmessage array_sort mocked h data tx) a)
  = resultType (h a) /\
  columnType (fst (onmessage array_sort mocked h data tx) a)
  = columnType (h a) /\
  columnTitle (fst (onmessage array_sort mocked h data tx) a)
  = columnTitle (h a) /\
  (column (fst (onmessage array_sort mocked h data tx) a) = column (h a) \/
   In (Some a) data /\ columnType (h a) <> "status" /\
   exists s, column (h a) = VStr s /\ endsWith s "Inf" = true) /\
  (forall evs s,
     snd (onmessage array_sort mocked h data tx) = Ok evs ->
     listed a data = 1%nat ->
     columnType (h a) <> "status" ->
     column (h a) = VStr s -> endsWith s "Inf" = true ->
     column (fst (onmessage array_sort mocked h data tx) a)
     = VStr (replace s "Inf" "Infinity")).
Proof.
  intros array_sort mocked h data tx a.
  destruct (onmessage array_sort mocked h data tx) as [h' r] eqn:E.
  assert (Ep : exists p, parsePythonInfinityValues h (filterRows h data)
                         = (h', p)).
  { unfold onmessage in E.
    destruct (parsePythonInfinityValues h (filterRows h data)) as [h1 p].
    injection E as -> _. eauto. }
  destruct Ep as (p & Ep).
  destruct (parse_frame _ _ _ _ a Ep) as (F1&F2&F3&F4&Hc).
  simpl. repeat split; auto.
  - destruct Hc as [Hc|(Hin&Hc)]; auto.
    right. split; auto. eapply filterRows_In; eauto.
  - intros evs s Hr Hone Hs Hcol He. subst r.
    apply onmessage_inv in E as [Ep' _].
    eapply parse_rewrites; eauto.
    rewrite filterRows_listed; [exact Hone| |]; rewrite Hcol; discriminate.
Qed.

Lemma rows_written_only_by_infinity_rewrite_witness :
  snd (onmessage stableSort false (heapOf infinityRows)
         (requestOf infinityRows) (VStr "t1")) = Ok infinityEvents /\
  listed 0%nat (requestOf infinityRows) = 1%nat /\
  columnType (heapOf infinityRows 0%nat) <> "status" /\
  column (heapOf infinityRows 0%nat) = VStr "-Inf" /\
  endsWith "-Inf" "Inf" = true /\
  column (fst (onmessage stableSort false (heapOf infinityRows)
                 (requestOf infinityRows) (VStr "t1")) 0%nat)
  = VStr "-Infinity".
Proof.
  assert (H1 : snd (onmessage stableSort false (heapOf infinityRows)
                      (requestOf infinityRows) (VStr "t1"))
               = Ok infinityEvents) by (vm_compute; reflexivity).
  assert (H2 : listed 0%nat (requestOf infinityRows) = 1%nat)
    by reflexivity.
  assert (H4 : columnType (heapOf infinityRows 0%nat) <> "status")
    by discriminate.
  assert (H5 : column (heapOf infinityRows 0%nat) = VStr "-Inf")
    by reflexivity.
  assert (H6 : endsWith "-Inf" "Inf" = true) by reflexivity.
  repeat (split; [assumption|]).
  exact (proj2 (proj2 (proj2 (proj2 (proj2
           (rows_written_only_by_infinity_rewrite stableSort false
              (heapOf infinityRows) (requestOf infinityRows) (VStr "t1")
              0%nat)))))
           infinityEvents "-Inf" H1 H2 H4 H5 H6).
Defined.

(** Both conditions of the rewrite are needed.  A row the request lists
    twice is rewritten twice when its text still ends in ["Inf"] after the
    first time. *)
Example row_listed_twice_is_rewritten_twice :
  column (fst (onmessage stableSort false
                 (heapOf [exampleRow "A" "correct" "numeric" "InfInf"])
                 [Some 0%nat; Some 0%nat] (VStr "t1")) 0%nat)
  = VStr "InfinityinityInf".
Proof. vm_compute. reflexivity. Qed.

(** When the normalizer throws on a row, the rows listed after it are not
    reached. *)
Example row_after_throwing_row_is_not_rewritten :
  onmessage stableSort false
    (heapOf (numberRows ++ [exampleRow "A" "correct" "numeric" "-Inf"]))
    [Some 0%nat; Some 1%nat] (VStr "t1")
  = (heapOf (numberRows ++ [exampleRow "A" "correct" "numeric" "-Inf"]),
     Throw TypeError).
Proof. vm_compute. reflexivity. Qed.

(** C5 as stated fails: a row whose value is ["-Inf"] is rewritten in the
    caller's heap. *)
Lemma rows_never_mutated_fails : ~ claim_rows_never_mutated.
Proof.
  intros H.
  specialize (H stableSort false (heapOf infinityRows)
                (requestOf infinityRows) (VStr "t1") 0%nat).
  vm_compute in H. discriminate H.
Qed.

(* ================================================================= *)
(** * Mean and median of the buckets of a request *)

(** C8.  Every bucket that the bucketing loop leaves not poisoned holds at
    least one row, the mean and median step does not throw on it, and its
    mean is: NaN when the minimum is minus infinity and the maximum is plus
    infinity; the infinite bound when exactly one of the two holds;
    otherwise the sum divided by the number of rows. *)
Theorem bucket_mean :
  forall t rows tot0 acc key values,
  foldM (bucketStep t) rows (Build_Acc [] [] tot0) = Ok acc ->
  obj_get (buckets acc) key = Some values ->
  shouldSkipBucket (bucketNaNInfo acc) key = false ->
  exists items values',
    Stats.items values = Some items /\ items <> [] /\
    meanMedianStep (bucketNaNInfo acc) (key, values) = Ok (key, values') /\
    (ToNumber (Stats.min values) = NegInfinity ->
     ToNumber (Stats.max values) = Infinity ->
     Stats.avg values' = VStr "NaN" /\
     ToNumber (Stats.avg values') = NaN) /\
    (ToNumber (Stats.min values) = NegInfinity ->
     ToNumber (Stats.max values) <> Infinity ->
     Stats.avg values' = VStr "-Infinity" /\
     ToNumber (Stats.avg values') = ToNumber (Stats.min values)) /\
    (ToNumber (Stats.min values) <> NegInfinity ->
     ToNumber (Stats.max values) = Infinity ->
     Stats.avg values' = VStr "Infinity" /\
     ToNumber (Stats.avg values') = ToNumber (Stats.max values)) /\
    (ToNumber (Stats.min values) <> NegInfinity ->
     ToNumber (Stats.max values) <> Infinity ->
     Stats.avg values' =
     VNum (div (ToNumber (Stats.sum values))
               (of_Z (Z.of_nat (List.length items))))).
Proof.
  intros t rows tot0 acc key values Hloop Hget Hskip.
  destruct (bucketLoop_items _ _ _ _ Hloop key values Hget Hskip)
    as (items & Hitems & Hne).
  destruct (meanMedianStep_mean _ key values items Hskip Hitems Hne)
    as (values' & Hstep & Hcases).
  exists items, values'. auto.
Qed.

Lemma bucket_mean_witness :
  foldM (bucketStep false) smallRows (Build_Acc [] [] defaultObj)
  = Ok smallAcc /\
  obj_get (buckets smallAcc) "A-correct" = Some smallBucket /\
  shouldSkipBucket (bucketNaNInfo smallAcc) "A-correct" = false /\
  exists items values',
    Stats.items smallBucket = Some items /\ items <> [] /\
    meanMedianStep (bucketNaNInfo smallAcc) ("A-correct", smallBucket)
    = Ok ("A-correct", values') /\
    Stats.avg values' =
    VNum (div (ToNumber (Stats.sum smallBucket))
              (of_Z (Z.of_nat (List.length items)))).
Proof.
  assert (H1 : foldM (bucketStep false) smallRows (Build_Acc [] [] defaultObj)
               = Ok smallAcc) by (vm_compute; reflexivity).
  assert (H2 : obj_get (buckets smallAcc) "A-correct" = Some smallBucket)
    by reflexivity.
  assert (H3 : shouldSkipBucket (bucketNaNInfo smallAcc) "A-correct" = false)
    by reflexivity.
  repeat (split; [assumption|]).
  destruct (bucket_mean false smallRows defaultObj smallAcc "A-correct"
              smallBucket H1 H2 H3)
    as (items & values' & Hitems & Hne & Hstep & _ & _ & _ & Hfinite).
  exists items, values'. repeat (split; [assumption|]).
  apply Hfinite; vm_compute; discriminate.
Defined.

(** C7.  Every bucket that the bucketing loop leaves not poisoned holds at
    least one row, the mean and median step does not throw on it, and its
    median is, for the rows [items] in their sorted order: the mean of the
    two middle values when their number is even, the middle value as the row
    holds it when their number is odd.  The values 1, 2, 3, 4 give 2.5 and
    the values 1, 2, 3 give 2. *)
Theorem bucket_median :
  (forall t rows tot0 acc key values d,
     foldM (bucketStep t) rows (Build_Acc [] [] tot0) = Ok acc ->
     obj_get (buckets acc) key = Some values ->
     shouldSkipBucket (bucketNaNInfo acc) key = false ->
     exists items values',
       Stats.items values = Some items /\ items <> [] /\
       meanMedianStep (bucketNaNInfo acc) (key, values) = Ok (key, values') /\
       Stats.median values' =
       if Nat.even (List.length items) then
         VNum (div (add (ToNumber (column (nth (List.length items / 2 - 1) items d)))
                        (ToNumber (column (nth (List.length items / 2) items d))))
                   (of_Z 2))
       else column (nth (List.length items / 2) items d)) /\
  (forall bucketNaNInfo key values r1 r2 r3 r4,
     shouldSkipBucket bucketNaNInfo key = false ->
     Stats.items values = Some [r1; r2; r3; r4] ->
     column r1 = VStr "1" -> column r2 = VStr "2" ->
     column r3 = VStr "3" -> column r4 = VStr "4" ->
     exists values',
       meanMedianStep bucketNaNInfo (key, values) = Ok (key, values') /\
       Stats.median values' = VNum (of_string "2.5") /\
       toString (Stats.median values') = Ok "2.5") /\
  (forall bucketNaNInfo key values r1 r2 r3,
     shouldSkipBucket bucketNaNInfo key = false ->
     Stats.items values = Some [r1; r2; r3] ->
     column r1 = VStr "1" -> column r2 = VStr "2" -> column r3 = VStr "3" ->
     exists values',
       meanMedianStep bucketNaNInfo (key, values) = Ok (key, values') /\
       Stats.median values' = VStr "2" /\
       toString (Stats.median values') = Ok "2").
Proof.
  split; [|split].
  - intros t rows tot0 acc key values d Hloop Hget Hskip.
    destruct (bucketLoop_items _ _ _ _ Hloop key values Hget Hskip)
      as (items & Hitems & Hne).
    destruct (meanMedianStep_median _ key values items d Hskip Hitems Hne)
      as (values' & Hstep & Hmedian).
    exists items, values'. auto.
  - intros info key values r1 r2 r3 r4 Hskip Hitems C1 C2 C3 C4.
    destruct (meanMedianStep_median info key values _ blankRow Hskip Hitems)
      as (v & Hv & Hm); [discriminate|].
    exists v. split; [exact Hv|].
    rewrite Hm. simpl nth. rewrite C2, C3.
    split; vm_compute; reflexivity.
  - intros info key values r1 r2 r3 Hskip Hitems C1 C2 C3.
    destruct (meanMedianStep_median info key values _ blankRow Hskip Hitems)
      as (v & Hv & Hm); [discriminate|].
    exists v. split; [exact Hv|].
    rewrite Hm. simpl. rewrite C2. split; reflexivity.
Qed.

Lemma bucket_median_witness :
  foldM (bucketStep false) smallRows (Build_Acc [] [] defaultObj)
  = Ok smallAcc /\
  obj_get (buckets smallAcc) "A-correct" = Some smallBucket /\
  shouldSkipBucket (bucketNaNInfo smallAcc) "A-correct" = false /\
  exists items values',
    Stats.items smallBucket = Some items /\ items <> [] /\
    meanMedianStep (bucketNaNInfo smallAcc) ("A-correct", smallBucket)
    = Ok ("A-correct", values') /\
    Stats.median values' =
    if Nat.even (List.length items) then
      VNum (div (add (ToNumber (column (nth (List.length items / 2 - 1) items
                                          blankRow)))
                     (ToNumber (column (nth (List.length items / 2) items
                                          blankRow))))
                (of_Z 2))
    else column (nth (List.length items / 2) items blankRow).
Proof.
  assert (H1 : foldM (bucketStep false) smallRows (Build_Acc [] [] defaultObj)
               = Ok smallAcc) by (vm_compute; reflexivity).
  assert (H2 : obj_get (buckets smallAcc) "A-correct" = Some smallBucket)
    by reflexivity.
  assert (H3 : shouldSkipBucket (bucketNaNInfo smallAcc) "A-correct" = false)
    by reflexivity.
  repeat (split; [assumption|]).
  exact (proj1 bucket_median false smallRows defaultObj smallAcc "A-correct"
           smallBucket blankRow H1 H2 H3).
Defined.

Lemma sumZ_filter_perm (f : Row -> Z) (p : Row -> bool) l l' :
  Permutation l l' ->
  sumZ (map f (filter p l)) = sumZ (map f (filter p l')).
Proof.
  induction 1 as [|x l l' Hp IH|x y l|l l' l'' H1 IH1 H2 IH2];
    cbn [filter map sumZ fold_right].
  - reflexivity.
  - destruct (p x); cbn [map sumZ fold_right]; fold sumZ; unfold sumZ in *;
      cbn [fold_right]; congruence.
  - destruct (p x), (p y); cbn [map sumZ fold_right]; unfold sumZ;
      cbn [fold_right]; lia.
  - congruence.
Qed.

Lemma filter_perm_nonempty (p : Row -> bool) l l' :
  Permutation l l' -> filter p l <> [] -> filter p l' <> [].
Proof.
  intros Hp Hne E. apply Hne.
  destruct (filter p l) as [|x xs] eqn:Ef; [reflexivity|].
  assert (Hin : In x (filter p l)) by (rewrite Ef; now left).
  apply filter_In in Hin as [Hin Hpx].
  assert (Hin' : In x (filter p l')).
  { apply filter_In. split; [|assumption].
    eapply Permutation_in; eassumption. }
  rewrite E in Hin'. destruct Hin'.
Qed.

Lemma abs_sumZ_le (f : Row -> Z) l :
  Z.abs (sumZ (map f l)) <= sumZ (map (fun r => Z.abs (f r)) l).
Proof.
  induction l as [|r l IH]; cbn [map sumZ fold_right]; [reflexivity|].
  fold (sumZ (map f l)). fold (sumZ (map (fun r => Z.abs (f r)) l)). lia.
Qed.

Lemma fieldText_VNum n props name :
  fieldText (VNum n) props name -> obj_get props name = Some (to_string n).
Proof. exact (fun H => H). Qed.

Lemma fieldText_VStr s props name :
  fieldText (VStr s) props name -> obj_get props name = Some s.
Proof. exact (fun H => H). Qed.

(** C9 as amended.  Take a bucket all of whose rows are no status rows, have
    a result type other than ["total"], and carry integers the sum of whose
    magnitudes is below [2 ^ 53].  Whenever a message is posted, the sum it
    holds for the bucket is the text of a number that is exactly the sum of
    those integers. *)
Theorem integer_bucket_sum_exact :
  forall array_sort,
  (forall cmp l, Permutation (array_sort cmp l) l) ->
  forall mocked copy tx evs key (val : Row -> Z),
  summarize array_sort mocked copy tx = Ok evs ->
  (forall r, In r copy -> fallsInto key r = true ->
     resultType r <> "total" /\ columnType r <> "status" /\
     ToNumber (column r) = of_Z (val r)) ->
  filter (fallsInto key) copy <> [] ->
  sumZ (map (fun r => Z.abs (val r)) (filter (fallsInto key) copy)) < 2 ^ 53 ->
  exists result stats,
    evs = postResult mocked result tx /\
    obj_get result key = Some (JObject stats) /\
    obj_get stats "sum"
    = Some (to_string (of_Z (sumZ (map val (filter (fallsInto key) copy))))) /\
    integer_of (of_Z (sumZ (map val (filter (fallsInto key) copy))))
    = Some (sumZ (map val (filter (fallsInto key) copy))).
Proof.
  intros array_sort Hsort mocked copy tx evs key val H Hrows Hne Hbound.
  destruct copy as [|first rest]; [now elim Hne|].
  apply summarize_buckets in H as (tot0 & acc & result & Hloop & -> & Hres).
  set (sorted := array_sort compareRows (first :: rest)) in *.
  assert (Hperm : Permutation sorted (first :: rest)) by apply Hsort.
  assert (Hrows' : forall r, In r sorted -> fallsInto key r = true ->
     resultType r <> "total" /\ columnType r <> "status" /\
     ToNumber (column r) = of_Z (val r)).
  { intros r Hin. apply Hrows. eapply Permutation_in; eassumption. }
  rewrite <- (sumZ_filter_perm (fun r => Z.abs (val r)) _ _ _ Hperm) in Hbound.
  rewrite <- (sumZ_filter_perm val _ _ _ Hperm).
  apply (filter_perm_nonempty _ _ _ (Permutation_sym Hperm)) in Hne.
  destruct (bucketLoop_integers _ key val _ _ _ 0 Hloop Hrows')
    as (Hskip & Hsum & Hex); [reflexivity|reflexivity|simpl Z.abs; lia|].
  rewrite Z.add_0_l in Hsum.
  set (S := sumZ (map val (filter (fallsInto key) sorted))) in *.
  assert (HS : Z.abs S < 2 ^ 53).
  { pose proof (abs_sumZ_le val (filter (fallsInto key) sorted)). lia. }
  cbn [buckets] in Hex.
  destruct (obj_get (buckets acc) key) as [b|] eqn:Eb;
    [|exfalso; apply Hex; [now right|reflexivity]].
  destruct (Hres key b Eb) as (stats & Hstats & (Fsum & _)).
  unfold sumAt in Hsum. rewrite Eb in Hsum. rewrite Hsum in Fsum.
  exists result, stats. repeat split; auto.
  now apply integer_of_of_Z.
Qed.
Lemma integer_bucket_sum_exact_witness :
  (forall cmp l, Permutation (stableSort cmp l) l) /\
  summarize stableSort false smallRows (VStr "t1") = Ok smallEvents /\
  (forall r, In r smallRows -> fallsInto "A-correct" r = true ->
     resultType r <> "total" /\ columnType r <> "status" /\
     ToNumber (column r) = of_Z (smallValue r)) /\
  filter (fallsInto "A-correct") smallRows <> [] /\
  sumZ (map (fun r => Z.abs (smallValue r))
          (filter (fallsInto "A-correct") smallRows)) < 2 ^ 53 /\
  exists result stats,
    smallEvents = postResult false result (VStr "t1") /\
    obj_get result "A-correct" = Some (JObject stats) /\
    obj_get stats "sum"
    = Some (to_string
              (of_Z (sumZ (map smallValue
                             (filter (fallsInto "A-correct") smallRows))))) /\
    integer_of
      (of_Z (sumZ (map smallValue (filter (fallsInto "A-correct") smallRows))))
    = Some (sumZ (map smallValue (filter (fallsInto "A-correct") smallRows))).
Proof.
  assert (H1 : summarize stableSort false smallRows (VStr "t1")
               = Ok smallEvents) by (vm_compute; reflexivity).
  assert (H2 : forall r, In r smallRows -> fallsInto "A-correct" r = true ->
     resultType r <> "total" /\ columnType r <> "status" /\
     ToNumber (column r) = of_Z (smallValue r)).
  { intros r [<-|[<-|[]]] _; repeat split; try discriminate;
      vm_compute; reflexivity. }
  assert (H3 : filter (fallsInto "A-correct") smallRows <> [])
    by discriminate.
  assert (H4 : sumZ (map (fun r => Z.abs (smallValue r))
                       (filter (fallsInto "A-correct") smallRows)) < 2 ^ 53)
    by (vm_compute; reflexivity).
  split; [exact stableSort_perm|].
  repeat (split; [assumption|]).
  exact (integer_bucket_sum_exact stableSort stableSort_perm false smallRows
           (VStr "t1") smallEvents "A-correct" smallValue H1 H2 H3 H4).
Defined.

(** C9 as stated fails: 9007199254740992 and 1 add up to 9007199254740992,
    in the accumulator and in the posted message. *)
Lemma integer_sum_not_always_exact :
  snd (onmessage stableSort false (heapOf bigRows) (requestOf bigRows)
         (VStr "t1")) = Ok bigEvents /\
  ~ claim_integer_sum_exact.
Proof.
  split; [vm_compute; reflexivity|].
  intros H.
  destruct (H false (stableSort compareRows bigRows)
              (Stats.set_items (Some []) defaultObj)
              {| buckets :=
                   [("A-correct",
                     {| Stats.sum := VNum (of_Z 9007199254740992);
                        Stats.avg := VNum (of_Z 0);
                        Stats.max := VStr "9007199254740992";
                        Stats.median := VNum (of_Z 0);
                        Stats.min := VStr "1";
                        Stats.stdev := VNum (of_Z 0);
                        Stats.variance := VNum (of_Z 0);
                        Stats.title := Some "cputime";
                        Stats.items := Some (rev bigRows) |});
                    ("A-total",
                     {| Stats.sum := VNum (of_Z 9007199254740992);
                        Stats.avg := VNum (of_Z 0);
                        Stats.max := VStr "9007199254740992";
                        Stats.median := VNum (of_Z 0);
                        Stats.min := VStr "1";
                        Stats.stdev := VNum (of_Z 0);
                        Stats.variance := VNum (of_Z 0);
                        Stats.title := Some "cputime";
                        Stats.items := Some (rev bigRows) |})];
                 bucketNaNInfo := [];
                 total :=
                   Stats.set_sum (VNum (of_Z 9007199254740992))
                     (Stats.set_title (Some "cputime")
                        (Stats.set_items (Some []) defaultObj)) |}
              "A-correct" bigValue)
    as (b & n & Hb & Hn & Hi).
  - vm_compute. reflexivity.
  - intros r Hin _.
    assert (Hr : In r (rev bigRows)) by exact Hin.
    destruct Hr as [<-|[<-|[]]]; vm_compute; reflexivity.
  - vm_compute. discriminate.
  - vm_compute in Hb. injection Hb as <-.
    vm_compute in Hn. injection Hn as <-.
    vm_compute in Hi. discriminate Hi.
Qed.

(* ================================================================= *)
(** * Status rows *)

Lemma isNaN_eq x : isNaN x = true -> x = NaN.
Proof. destruct x; try discriminate; reflexivity. Qed.

Lemma status_not_NaN r : columnType r = "status" -> itemIsNaN r = false.
Proof. unfold itemIsNaN. now intros ->. Qed.

Lemma pushItem_core r b b' :
  pushItem r b = Ok b' ->
  Stats.sum b' = Stats.sum b /\ Stats.min b' = Stats.min b /\
  Stats.max b' = Stats.max b.
Proof.
  unfold pushItem. destruct (Stats.items b); [|discriminate].
  intros H. injection H as <-. now stats_cbn.
Qed.

(** A status row whose value is no number leaves the minimum and the maximum
    of every bucket as they are, aliased or not. *)
Lemma bucketStep_status_bounds t acc r acc' key :
  bucketStep t acc r = Ok acc' ->
  columnType r = "status" -> js_isNaN (column r) = true ->
  Stats.min (bucketOrNew (buckets acc') key (columnTitle r))
  = Stats.min (bucketOrNew (buckets acc) key (columnTitle r)) /\
  Stats.max (bucketOrNew (buckets acc') key (columnTitle r))
  = Stats.max (bucketOrNew (buckets acc) key (columnTitle r)).
Proof.
  intros H Hty Hnan.
  unfold bucketStep in H. rewrite (status_not_NaN r Hty) in H.
  replace (negb (js_isNaN (VNum (ToNumber (column r))))) with false in H
    by (unfold js_isNaN in *; cbn [ToNumber]; now rewrite Hnan).
  fold (bucketOrNew (buckets acc) (bucketKey r) (columnTitle r)) in H.
  fold (bucketOrNew (buckets acc) (totalKey r) (columnTitle r)) in H.
  assert (Hsh : String.eqb (bucketKey r) (totalKey r) = true ->
                bucketOrNew (buckets acc) (totalKey r) (columnTitle r)
                = bucketOrNew (buckets acc) (bucketKey r) (columnTitle r)).
  { intros E. apply String.eqb_eq in E. now rewrite E. }
  set (B0 := bucketOrNew (buckets acc) (bucketKey r) (columnTitle r)) in *.
  set (S0 := bucketOrNew (buckets acc) (totalKey r) (columnTitle r)) in *.
  assert (Hfin : exists b s,
             buckets acc' = obj_set (obj_set (buckets acc) (bucketKey r) b)
                              (totalKey r) s /\
             Stats.min b = Stats.min B0 /\ Stats.max b = Stats.max B0 /\
             Stats.min s = Stats.min S0 /\ Stats.max s = Stats.max S0).
  { destruct (String.eqb (bucketKey r) (totalKey r));
      [rewrite (Hsh eq_refl) in *|]; clear Hsh;
      destruct (obj_get (buckets acc) (bucketKey r));
      destruct (shouldSkipBucket (bucketNaNInfo acc) (bucketKey r));
      destruct (shouldSkipBucket (bucketNaNInfo acc) (totalKey r));
      cbn [negb andb] in H; unbind_all; locals_cbn;
      repeat match goal with
             | E : pushItem _ _ = Ok _ |- _ =>
                 apply pushItem_core in E as (?&?&?)
             end;
      stats_cbn; eexists _, _; (split; [reflexivity|]);
      repeat split; congruence. }
  destruct Hfin as (b & s & -> & Hb1 & Hb2 & Hs1 & Hs2).
  unfold bucketOrNew at 1 3. rewrite !obj_get_set.
  destruct (String.eqb_spec (totalKey r) key) as [<-|Ht].
  - fold S0. auto.
  - destruct (String.eqb_spec (bucketKey r) key) as [<-|Hb].
    + fold B0. auto.
    + fold (bucketOrNew (buckets acc) key (columnTitle r)). auto.
Qed.

Lemma bucketOrNew_title bs key t t' :
  Stats.min (bucketOrNew bs key t) = Stats.min (bucketOrNew bs key t') /\
  Stats.max (bucketOrNew bs key t) = Stats.max (bucketOrNew bs key t').
Proof. unfold bucketOrNew. now destruct (obj_get bs key). Qed.

Lemma contribute_status r B b :
  columnType r = "status" -> js_isNaN (column r) = true ->
  contribute r B = Ok b ->
  Stats.sum b = js_plus (Stats.sum B) (VNum (of_Z 1)).
Proof.
  intros Hty Hnan H. apply contribute_sum in H.
  rewrite Hty, maybeAdd_status in H by assumption. now injection H.
Qed.

(** One step of the loop on a status row whose value is no number, seen
    from a bucket the row falls into. *)
Lemma bucketStep_status t acc r acc' key n :
  bucketStep t acc r = Ok acc' ->
  fallsInto key r = true ->
  columnType r = "status" -> js_isNaN (column r) = true ->
  resultType r <> "total" ->
  shouldSkipBucket (bucketNaNInfo acc) key = false ->
  sumAt (buckets acc) key = VNum (of_Z n) ->
  0 <= n < 2 ^ 53 - 1 ->
  shouldSkipBucket (bucketNaNInfo acc') key = false /\
  sumAt (buckets acc') key = VNum (of_Z (n + 1)) /\
  obj_get (buckets acc') key <> None.
Proof.
  intros H Hf Hty Hnan Hrt Hskip Hsum Hn.
  pose proof (totalKey_neq r Hrt) as Hkeys.
  destruct (bucketStep_unshared _ _ _ _ (status_not_NaN r Hty) Hkeys H)
    as (b & s & Hb & Hs & Hbs & Hinfo).
  rewrite Hinfo. split; [assumption|].
  assert (Hadd : forall B b', sumAt (buckets acc) key = Stats.sum B ->
                 contribute r B = Ok b' ->
                 Stats.sum b' = VNum (of_Z (n + 1))).
  { intros B b' HB Hcon.
    rewrite (contribute_status _ _ _ Hty Hnan Hcon), <- HB, Hsum.
    cbn [js_plus ToNumber]. rewrite add_of_Z; [reflexivity|lia|simpl; lia|lia]. }
  unfold fallsInto in Hf. apply orb_true_iff in Hf as [Hf|Hf];
    apply String.eqb_eq in Hf; subst key; rewrite Hskip in *;
    unfold sumAt at 1; rewrite Hbs.
  - rewrite obj_get_set_other, obj_get_set_same by congruence.
    split; [|discriminate].
    eapply Hadd; [|eassumption]. now rewrite bucketOrNew_sum.
  - rewrite obj_get_set_same. split; [|discriminate].
    eapply Hadd; [|eassumption]. now rewrite bucketOrNew_sum.
Qed.

Lemma bucketLoop_status t key :
  forall rows acc acc' n,
  foldM (bucketStep t) rows acc = Ok acc' ->
  (forall r, In r rows -> fallsInto key r = true ->
     columnType r = "status" /\ js_isNaN (column r) = true /\
     resultType r <> "total") ->
  shouldSkipBucket (bucketNaNInfo acc) key = false ->
  sumAt (buckets acc) key = VNum (of_Z n) ->
  0 <= n ->
  n + Z.of_nat (List.length (filter (fallsInto key) rows)) < 2 ^ 53 ->
  shouldSkipBucket (bucketNaNInfo acc') key = false /\
  sumAt (buckets acc') key
  = VNum (of_Z (n + Z.of_nat (List.length (filter (fallsInto key) rows)))) /\
  Stats.min (bucketOrNew (buckets acc') key EmptyString)
  = Stats.min (bucketOrNew (buckets acc) key EmptyString) /\
  Stats.max (bucketOrNew (buckets acc') key EmptyString)
  = Stats.max (bucketOrNew (buckets acc) key EmptyString) /\
  (obj_get (buckets acc) key <> None \/ filter (fallsInto key) rows <> [] ->
   obj_get (buckets acc') key <> None).
Proof.
  induction rows as [|r rows IH]; intros acc acc' n H Hrows Hskip Hsum Hn Hb.
  - injection H as <-. cbn [filter List.length Z.of_nat].
    rewrite Z.add_0_r. repeat split; auto. intros [?|?]; congruence.
  - cbn [foldM] in H. unbind H.
    assert (Hrows' : forall r', In r' rows -> fallsInto key r' = true ->
               columnType r' = "status" /\ js_isNaN (column r') = true /\
               resultType r' <> "total")
      by (intros; apply Hrows; [now right|assumption]).
    cbn [filter] in *. destruct (fallsInto key r) eqn:Ef.
    + destruct (Hrows r (or_introl eq_refl) Ef) as (Hty & Hnan & Hrt).
      cbn [List.length] in *. rewrite Nat2Z.inj_succ in *.
      destruct (bucketStep_status _ _ _ _ _ n E Ef Hty Hnan Hrt Hskip Hsum)
        as (Hskip1 & Hsum1 & Hex1); [lia|].
      destruct (bucketStep_status_bounds _ _ _ _ key E Hty Hnan) as [Hmin Hmax].
      destruct (IH _ _ _ H Hrows' Hskip1 Hsum1)
        as (Hskip2 & Hsum2 & Hmin2 & Hmax2 & Hex2); [lia|lia|].
      split; [assumption|]. split; [|split; [|split]].
      * rewrite Hsum2. f_equal. f_equal. lia.
      * rewrite Hmin2.
        rewrite (proj1 (bucketOrNew_title _ key EmptyString (columnTitle r))), Hmin.
        apply bucketOrNew_title.
      * rewrite Hmax2.
        rewrite (proj2 (bucketOrNew_title _ key EmptyString (columnTitle r))), Hmax.
        apply bucketOrNew_title.
      * intros _. apply Hex2. now left.
    + destruct (bucketStep_frame _ _ _ _ key E Ef) as [Hget Hsk].
      destruct (IH x acc' n H Hrows')
        as (Hskip2 & Hsum2 & Hmin2 & Hmax2 & Hex2).
      * now rewrite Hsk.
      * unfold sumAt. now rewrite Hget.
      * assumption.
      * assumption.
      * unfold bucketOrNew in *. rewrite Hget in *.
        repeat split; auto.
Qed.

Lemma bucketStep_status_sum t acc r acc' key :
  bucketStep t acc r = Ok acc' ->
  columnType r = "status" -> js_isNaN (column r) = true ->
  fallsInto key r = true -> resultType r <> "total" ->
  shouldSkipBucket (bucketNaNInfo acc) key = false ->
  sumAt (buckets acc') key = js_plus (sumAt (buckets acc) key) (VNum (of_Z 1)).
Proof.
  intros H Hty Hnan Hf Hrt Hskip.
  pose proof (totalKey_neq r Hrt) as Hkeys.
  destruct (bucketStep_unshared _ _ _ _ (status_not_NaN r Hty) Hkeys H)
    as (b & s & Hb & Hs & Hbs & Hinfo).
  unfold fallsInto in Hf. apply orb_true_iff in Hf as [Hf|Hf];
    apply String.eqb_eq in Hf; subst key; rewrite Hskip in *;
    unfold sumAt at 1; rewrite Hbs.
  - rewrite obj_get_set_other, obj_get_set_same by congruence.
    rewrite (contribute_status _ _ _ Hty Hnan Hb). now rewrite bucketOrNew_sum.
  - rewrite obj_get_set_same.
    rewrite (contribute_status _ _ _ Hty Hnan Hs). now rewrite bucketOrNew_sum.
Qed.

Lemma filter_length_perm (p : Row -> bool) l l' :
  Permutation l l' ->
  List.length (filter p l) = List.length (filter p l').
Proof.
  induction 1 as [|x l l' Hp IH|x y l|l l' l'' H1 IH1 H2 IH2];
    cbn [filter List.length].
  - reflexivity.
  - destruct (p x); cbn [List.length]; congruence.
  - destruct (p x), (p y); reflexivity.
  - congruence.
Qed.

(** C4 as amended.  A status row whose value does not read as a number never
    changes the minimum or the maximum of any bucket, and it adds one to the
    sum of each bucket it falls into, provided the bucket is not poisoned
    and the row's result type is not ["total"].  So for a bucket all of
    whose rows are such status rows, a posted message holds the number of
    rows as the sum and the initial ["Infinity"] and ["-Infinity"] as minimum
    and maximum; for three rows the sum reads ["3"]. *)
Theorem status_rows_count_and_keep_bounds :
  (forall t acc r acc' key,
     bucketStep t acc r = Ok acc' ->
     columnType r = "status" -> js_isNaN (column r) = true ->
     Stats.min (bucketOrNew (buckets acc') key (columnTitle r))
     = Stats.min (bucketOrNew (buckets acc) key (columnTitle r)) /\
     Stats.max (bucketOrNew (buckets acc') key (columnTitle r))
     = Stats.max (bucketOrNew (buckets acc) key (columnTitle r)) /\
     (fallsInto key r = true -> resultType r <> "total" ->
      shouldSkipBucket (bucketNaNInfo acc) key = false ->
      sumAt (buckets acc') key
      = js_plus (sumAt (buckets acc) key) (VNum (of_Z 1)))) /\
  (forall array_sort,
     (forall cmp l, Permutation (array_sort cmp l) l) ->
     forall mocked copy tx evs key,
     summarize array_sort mocked copy tx = Ok evs ->
     (forall r, In r copy -> fallsInto key r = true ->
        columnType r = "status" /\ js_isNaN (column r) = true /\
        resultType r <> "total") ->
     filter (fallsInto key) copy <> [] ->
     Z.of_nat (List.length (filter (fallsInto key) copy)) < 2 ^ 53 ->
     exists result stats,
       evs = postResult mocked result tx /\
       obj_get result key = Some (JObject stats) /\
       obj_get stats "sum"
       = Some (to_string
                 (of_Z (Z.of_nat (List.length (filter (fallsInto key) copy))))) /\
       obj_get stats "min" = Some "Infinity" /\
       obj_get stats "max" = Some "-Infinity") /\
  to_string (of_Z 3) = "3".
Proof.
  split; [|split; [|vm_compute; reflexivity]].
  - intros t acc r acc' key H Hty Hnan.
    destruct (bucketStep_status_bounds _ _ _ _ key H Hty Hnan) as [Hmin Hmax].
    repeat split; auto. intros. now apply (bucketStep_status_sum t _ r).
  - intros array_sort Hsort mocked copy tx evs key H Hrows Hne Hbound.
    destruct copy as [|first rest]; [now elim Hne|].
    apply summarize_buckets in H as (tot0 & acc & result & Hloop & -> & Hres).
    set (sorted := array_sort compareRows (first :: rest)) in *.
    assert (Hperm : Permutation sorted (first :: rest)) by apply Hsort.
    assert (Hrows' : forall r, In r sorted -> fallsInto key r = true ->
       columnType r = "status" /\ js_isNaN (column r) = true /\
       resultType r <> "total").
    { intros r Hin. apply Hrows. eapply Permutation_in; eassumption. }
    rewrite <- (filter_length_perm _ _ _ Hperm) in Hbound |- *.
    apply (filter_perm_nonempty _ _ _ (Permutation_sym Hperm)) in Hne.
    destruct (bucketLoop_status _ key _ _ _ 0 Hloop Hrows')
      as (Hskip & Hsum & Hmin & Hmax & Hex);
      [reflexivity|reflexivity|lia|lia|].
    rewrite Z.add_0_l in Hsum. cbn [buckets] in *.
    destruct (obj_get (buckets acc) key) as [b|] eqn:Eb;
      [|exfalso; apply Hex; [now right|reflexivity]].
    destruct (Hres key b Eb) as (stats & Hstats & (Fsum & Fmin & Fmax)).
    unfold sumAt in Hsum. unfold bucketOrNew in Hmin, Hmax.
    rewrite Eb in Hsum, Hmin, Hmax. cbn [obj_get] in Hmin, Hmax.
    rewrite Hsum in Fsum. rewrite Hmin in Fmin. rewrite Hmax in Fmax.
    exists result, stats. repeat split; auto.
Qed.

Lemma status_rows_count_and_keep_bounds_witness :
  (forall cmp l, Permutation (stableSort cmp l) l) /\
  summarize stableSort false statusRows (VStr "t1") = Ok statusEvents /\
  (forall r, In r statusRows -> fallsInto "A-correct" r = true ->
     columnType r = "status" /\ js_isNaN (column r) = true /\
     resultType r <> "total") /\
  filter (fallsInto "A-correct") statusRows <> [] /\
  Z.of_nat (List.length (filter (fallsInto "A-correct") statusRows)) < 2 ^ 53 /\
  exists result stats,
    statusEvents = postResult false result (VStr "t1") /\
    obj_get result "A-correct" = Some (JObject stats) /\
    obj_get stats "sum"
    = Some (to_string
              (of_Z (Z.of_nat
                       (List.length (filter (fallsInto "A-correct") statusRows))))) /\
    obj_get stats "min" = Some "Infinity" /\
    obj_get stats "max" = Some "-Infinity".
Proof.
  assert (H1 : summarize stableSort false statusRows (VStr "t1")
               = Ok statusEvents) by (vm_compute; reflexivity).
  assert (H2 : forall r, In r statusRows -> fallsInto "A-correct" r = true ->
     columnType r = "status" /\ js_isNaN (column r) = true /\
     resultType r <> "total").
  { intros r [<-|[<-|[<-|[]]]] _; repeat split; discriminate. }
  assert (H3 : filter (fallsInto "A-correct") statusRows <> [])
    by discriminate.
  assert (H4 : Z.of_nat (List.length (filter (fallsInto "A-correct") statusRows))
               < 2 ^ 53) by (vm_compute; reflexivity).
  split; [exact stableSort_perm|].
  repeat (split; [assumption|]).
  exact (proj1 (proj2 status_rows_count_and_keep_bounds)
           stableSort stableSort_perm false statusRows
           (VStr "t1") statusEvents "A-correct" H1 H2 H3 H4).
Defined.

(** C4 as stated fails: a status row whose value is ["5"] sets the minimum
    and the maximum of its bucket to ["5"] and adds five to the sum. *)
Lemma status_row_with_number_moves_bounds :
  snd (onmessage stableSort false (heapOf numericStatusRows)
         (requestOf numericStatusRows) (VStr "t1"))
  = Ok numericStatusEvents /\
  ~ claim_status_rows_keep_bounds.
Proof.
  split; [vm_compute; reflexivity|].
  intros H.
  destruct (H false (Build_Acc [] [] defaultObj)
              (exampleRow "A" "correct" "status" "5")
              {| buckets :=
                   [("A-correct",
                     {| Stats.sum := VNum (of_Z 5);
                        Stats.avg := VNum (of_Z 0);
                        Stats.max := VStr "5";
                        Stats.median := VNum (of_Z 0);
                        Stats.min := VStr "5";
                        Stats.stdev := VNum (of_Z 0);
                        Stats.variance := VNum (of_Z 0);
                        Stats.title := Some "cputime";
                        Stats.items := Some numericStatusRows |});
                    ("A-total",
                     {| Stats.sum := VNum (of_Z 5);
                        Stats.avg := VNum (of_Z 0);
                        Stats.max := VStr "5";
                        Stats.median := VNum (of_Z 0);
                        Stats.min := VStr "5";
                        Stats.stdev := VNum (of_Z 0);
                        Stats.variance := VNum (of_Z 0);
                        Stats.title := Some "cputime";
                        Stats.items := Some numericStatusRows |})];
                 bucketNaNInfo := [];
                 total :=
                   Stats.set_sum (VNum (of_Z 5))
                     (Stats.set_title (Some "cputime") defaultObj) |}
              "A-correct") as [Hmin _].
  - vm_compute. reflexivity.
  - reflexivity.
  - vm_compute in Hmin. discriminate Hmin.
Qed.

(* ================================================================= *)
(** * Standard deviation and serialization *)

Lemma snd_onmessage array_sort mocked h data tx :
  snd (onmessage array_sort mocked h data tx) =
  (copy <- snd (parsePythonInfinityValues h (filterRows h data)) ;;
   summarize array_sort mocked
     (map (fst (parsePythonInfinityValues h (filterRows h data))) copy) tx).
Proof.
  unfold onmessage.
  now destruct (parsePythonInfinityValues h (filterRows h data)).
Qed.

(** C2 as amended.  For a bucket that is not poisoned, and whenever the
    grand total's maximum is plus infinity exactly when the bucket's own
    maximum is: the standard deviation reads ["NaN"] if the bucket's minimum
    is minus infinity and its maximum plus infinity, ["Infinity"] if exactly
    one of the two holds (also when the infinite bound is the minimum), and
    otherwise the text of the square root of the variance sum divided by
    the number of rows.  The step never throws when every field has a
    text. *)
Theorem bucket_stdev :
  forall bucketNaNInfo total key values items,
  shouldSkipBucket bucketNaNInfo key = false ->
  Stats.items values = Some items ->
  (ToNumber (Stats.max total) = Infinity <->
   ToNumber (Stats.max values) = Infinity) ->
  hasText (Stats.sum values) -> hasText (Stats.avg values) ->
  hasText (Stats.max values) -> hasText (Stats.median values) ->
  hasText (Stats.min values) -> hasText (Stats.variance values) ->
  exists out,
    serializeStep bucketNaNInfo total (key, values) = Ok (key, out) /\
    (ToNumber (Stats.min values) = NegInfinity ->
     ToNumber (Stats.max values) = Infinity ->
     obj_get out "stdev" = Some "NaN") /\
    (ToNumber (Stats.min values) = NegInfinity ->
     ToNumber (Stats.max values) <> Infinity ->
     obj_get out "stdev" = Some "Infinity") /\
    (ToNumber (Stats.min values) <> NegInfinity ->
     ToNumber (Stats.max values) = Infinity ->
     obj_get out "stdev" = Some "Infinity") /\
    (ToNumber (Stats.min values) <> NegInfinity ->
     ToNumber (Stats.max values) <> Infinity ->
     obj_get out "stdev"
     = Some (to_string (sqrt (div (ToNumber (Stats.variance values))
                                  (of_Z (Z.of_nat (List.length items))))))).
Proof.
  intros info tot key values items Hskip Hitems Hagree
    (s1 & T1) (s2 & T2) (s3 & T3) (s4 & T4) (s5 & T5) (s7 & T7).
  unfold serializeStep. rewrite Hskip, Hitems.
  assert (Hmax : eqb (ToNumber (Stats.max tot)) Infinity
                 = eqb (ToNumber (Stats.max values)) Infinity).
  { destruct (eqb (ToNumber (Stats.max values)) Infinity) eqn:E.
    - apply eqb_Infinity. apply Hagree. now apply eqb_Infinity.
    - apply eqb_Infinity_false. intros C. apply Hagree in C.
      apply eqb_Infinity_false in E. contradiction. }
  rewrite Hmax. unfold stringify. stats_cbn.
  rewrite T1, T2, T3, T4, T5, T7. cbn [bind].
  unfold calculateStdev.
  destruct (eqb (ToNumber (Stats.min values)) NegInfinity) eqn:E1;
    destruct (eqb (ToNumber (Stats.max values)) Infinity) eqn:E2;
    cbn [andb orb toString bind];
    [ apply eqb_NegInfinity in E1; apply eqb_Infinity in E2
    | apply eqb_NegInfinity in E1; apply eqb_Infinity_false in E2
    | apply eqb_NegInfinity_false in E1; apply eqb_Infinity in E2
    | apply eqb_NegInfinity_false in E1; apply eqb_Infinity_false in E2 ];
    (eexists; split; [reflexivity|]);
    repeat split; intros; try contradiction; try reflexivity.
Qed.

Lemma bucket_stdev_witness :
  shouldSkipBucket [] "A-correct" = false /\
  Stats.items twoItems = Some (tl infinityRows ++ tl infinityRows)%list /\
  (ToNumber (Stats.max twoItems) = Infinity <->
   ToNumber (Stats.max twoItems) = Infinity) /\
  hasText (Stats.sum twoItems) /\ hasText (Stats.avg twoItems) /\
  hasText (Stats.max twoItems) /\ hasText (Stats.median twoItems) /\
  hasText (Stats.min twoItems) /\ hasText (Stats.variance twoItems) /\
  exists out,
    serializeStep [] twoItems ("A-correct", twoItems) = Ok ("A-correct", out) /\
    obj_get out "stdev"
    = Some (to_string
              (sqrt (div (ToNumber (Stats.variance twoItems))
                         (of_Z (Z.of_nat
                                  (List.length
                                     (tl infinityRows ++ tl infinityRows)%list)))))).
Proof.
  assert (H1 : shouldSkipBucket [] "A-correct" = false) by reflexivity.
  assert (H2 : Stats.items twoItems
               = Some (tl infinityRows ++ tl infinityRows)%list)
    by reflexivity.
  assert (H3 : ToNumber (Stats.max twoItems) = Infinity <->
               ToNumber (Stats.max twoItems) = Infinity) by tauto.
  assert (T1 : hasText (Stats.sum twoItems)) by (eexists; reflexivity).
  assert (T2 : hasText (Stats.avg twoItems)) by (eexists; reflexivity).
  assert (T3 : hasText (Stats.max twoItems)) by (eexists; reflexivity).
  assert (T4 : hasText (Stats.median twoItems)) by (eexists; reflexivity).
  assert (T5 : hasText (Stats.min twoItems)) by (eexists; reflexivity).
  assert (T7 : hasText (Stats.variance twoItems)) by (eexists; reflexivity).
  repeat (split; [assumption|]).
  destruct (bucket_stdev [] twoItems "A-correct" twoItems _
              H1 H2 H3 T1 T2 T3 T4 T5 T7)
    as (out & Hstep & _ & _ & _ & Hfinite).
  exists out. split; [exact Hstep|].
  apply Hfinite; vm_compute; discriminate.
Defined.

(** C2 as stated fails: the bucket of the values minus infinity and 1 has
    the minimum ["-Infinity"], the maximum ["1"] and the standard deviation
    ["Infinity"], not ["-Infinity"]. *)
Lemma stdev_of_negative_infinity_is_positive :
  snd (onmessage stableSort false (heapOf infinityRows)
         (requestOf infinityRows) (VStr "t1")) = Ok infinityEvents /\
  ~ claim_stdev_own_bounds.
Proof.
  split; [vm_compute; reflexivity|].
  intros H.
  destruct (H [] infinityBucket "A-correct" infinityBucket
              [exampleRow "A" "correct" "numeric" "-Infinity";
               exampleRow "A" "correct" "numeric" "1"]
              infinityStats eq_refl eq_refl)
    as (_ & Hneg & _).
  - vm_compute. reflexivity.
  - assert (Hs : obj_get infinityStats "stdev" = Some "-Infinity").
    { apply Hneg; vm_compute; [reflexivity|discriminate]. }
    vm_compute in Hs. discriminate Hs.
Qed.

Lemma summarize_two array_sort mocked a b tx :
  (forall cmp l, Permutation (array_sort cmp l) l) ->
  summarize array_sort mocked [a; b] tx = summarize (fun _ l => l) mocked [a; b] tx \/
  summarize array_sort mocked [a; b] tx
  = summarize (fun _ l => rev l) mocked [a; b] tx.
Proof.
  intros Hsort. unfold summarize.
  destruct (Permutation_length_2_inv
              (Permutation_sym (Hsort compareRows [a; b]))) as [-> | ->];
    [left|right]; reflexivity.
Qed.

Lemma summarize_one array_sort mocked a tx :
  (forall cmp l, Permutation (array_sort cmp l) l) ->
  summarize array_sort mocked [a] tx = summarize (fun _ l => l) mocked [a] tx.
Proof.
  intros Hsort. unfold summarize.
  now rewrite (Permutation_length_1_inv
                 (Permutation_sym (Hsort compareRows [a]))).
Qed.

(** C1, the defect.  Within the bucketing loop poisoning is permanent: a
    poisoned bucket stays poisoned and all-NaN whatever row comes next, and
    the mean and median pass skips it.  The second scan does not skip it:
    for two rows of one bucket, the first with a value that is no number,
    and whatever order the sort leaves them in, the scan adds to the
    [variance] of the poisoned bucket, which then reads ["NaNNaN"] and is
    posted that way. *)
Theorem poisoned_bucket_variance_is_rewritten :
  forall array_sort,
  (forall cmp l, Permutation (array_sort cmp l) l) ->
  forall mocked tx,
  (forall t rows acc acc' key,
     foldM (bucketStep t) rows acc = Ok acc' ->
     shouldSkipBucket (bucketNaNInfo acc) key = true ->
     (exists b, obj_get (buckets acc) key = Some b /\ allNaN b) ->
     shouldSkipBucket (bucketNaNInfo acc') key = true /\
     exists b', obj_get (buckets acc') key = Some b' /\ allNaN b' /\
       meanMedianStep (bucketNaNInfo acc') (key, b') = Ok (key, b')) /\
  snd (onmessage array_sort mocked (heapOf poisonedRows)
         (requestOf poisonedRows) tx)
  = Ok (postResult mocked poisonedResult tx) /\
  obj_get poisonedResult "A-correct" = Some (JObject poisonedStats) /\
  obj_get poisonedStats "variance" = Some "NaNNaN".
Proof.
  intros array_sort Hsort mocked tx.
  split; [|split; [|split; reflexivity]].
  { intros t rows acc acc' key H Hskip Hb.
    destruct (bucketLoop_poisoned t key rows acc acc' H Hskip Hb)
      as (Hskip' & b' & Hb' & Hall).
    split; [assumption|]. exists b'. repeat split; try apply Hall; auto.
    now apply meanMedianStep_poisoned. }
  rewrite snd_onmessage.
  assert (E : parsePythonInfinityValues (heapOf poisonedRows)
                (filterRows (heapOf poisonedRows) (requestOf poisonedRows))
              = (heapOf poisonedRows, Ok [0%nat; 1%nat]))
    by (vm_compute; reflexivity).
  rewrite E. cbn [fst snd bind].
  change (map (heapOf poisonedRows) [0%nat; 1%nat]) with poisonedRows.
  unfold poisonedRows.
  destruct (summarize_two array_sort mocked
              (exampleRow "A" "correct" "numeric" "abc")
              (exampleRow "A" "correct" "numeric" "1") tx Hsort) as [-> | ->];
    destruct mocked; vm_compute; reflexivity.
Qed.

Lemma poisoned_bucket_variance_is_rewritten_witness :
  (forall cmp l, Permutation (stableSort cmp l) l) /\
  snd (onmessage stableSort false (heapOf poisonedRows)
         (requestOf poisonedRows) (VStr "t1"))
  = Ok (postResult false poisonedResult (VStr "t1")) /\
  obj_get poisonedResult "A-correct" = Some (JObject poisonedStats) /\
  obj_get poisonedStats "variance" = Some "NaNNaN".
Proof.
  split; [exact stableSort_perm|].
  exact (proj2 (poisoned_bucket_variance_is_rewritten stableSort
                  stableSort_perm false (VStr "t1"))).
Defined.

Lemma serializeStep_drops_scratch info tot key values out :
  shouldSkipBucket info key = false ->
  serializeStep info tot (key, values) = Ok (key, out) ->
  obj_get out "items" = None /\ obj_get out "variance" = None.
Proof.
  unfold serializeStep. intros -> H.
  destruct (Stats.items values); [|discriminate].
  unbind_all. now rewrite !obj_get_delete.
Qed.

(** C3, the defect.  The entry of a bucket that is not poisoned has neither
    [items] nor [variance]; but for a request whose only row has a value
    that is no number, the entries posted for its two buckets still hold a
    [variance] property. *)
Theorem poisoned_bucket_keeps_variance :
  forall array_sort,
  (forall cmp l, Permutation (array_sort cmp l) l) ->
  forall mocked tx,
  (forall info tot key values out,
     shouldSkipBucket info key = false ->
     serializeStep info tot (key, values) = Ok (key, out) ->
     obj_get out "items" = None /\ obj_get out "variance" = None) /\
  snd (onmessage array_sort mocked (heapOf lonePoisonedRows)
         (requestOf lonePoisonedRows) tx)
  = Ok (postResult mocked lonePoisonedResult tx) /\
  obj_get lonePoisonedResult "A-correct" = Some (JObject lonePoisonedStats) /\
  obj_get lonePoisonedStats "variance" = Some "NaN".
Proof.
  intros array_sort Hsort mocked tx.
  split; [exact serializeStep_drops_scratch|].
  split; [|split; reflexivity].
  rewrite snd_onmessage.
  assert (E : parsePythonInfinityValues (heapOf lonePoisonedRows)
                (filterRows (heapOf lonePoisonedRows)
                   (requestOf lonePoisonedRows))
              = (heapOf lonePoisonedRows, Ok [0%nat]))
    by (vm_compute; reflexivity).
  rewrite E. cbn [fst snd bind].
  change (map (heapOf lonePoisonedRows) [0%nat]) with lonePoisonedRows.
  unfold lonePoisonedRows.
  rewrite (summarize_one array_sort mocked
             (exampleRow "A" "correct" "numeric" "abc") tx Hsort).
  destruct mocked; vm_compute; reflexivity.
Qed.

Lemma poisoned_bucket_keeps_variance_witness :
  (forall cmp l, Permutation (stableSort cmp l) l) /\
  snd (onmessage stableSort false (heapOf lonePoisonedRows)
         (requestOf lonePoisonedRows) (VStr "t1"))
  = Ok (postResult false lonePoisonedResult (VStr "t1")) /\
  obj_get lonePoisonedResult "A-correct" = Some (JObject lonePoisonedStats) /\
  obj_get lonePoisonedStats "variance" = Some "NaN".
Proof.
  split; [exact stableSort_perm|].
  exact (proj2 (poisoned_bucket_keeps_variance stableSort stableSort_perm
                  false (VStr "t1"))).
Defined.

(* ================================================================= *)
(** * The helpers on their own *)

(** Addition of numbers does not depend on the order of its operands. *)
Lemma add_comm x y : add x y = add y x.
Proof.
  unfold add, SFadd.
  destruct x as [sx|sx| |sx mx ex], y as [sy|sy| |sy my ey];
    try reflexivity; try (now destruct sx, sy).
  cbv zeta. rewrite (Z.min_comm ey ex). f_equal. apply Z.add_comm.
Qed.

(** X1.  [safeAdd] does not depend on the order of its operands: for all
    values [a] and [b], [safeAdd a b] and [safeAdd b a] return the same
    number or throw the same exception. *)
Theorem safeAdd_comm : forall a b, safeAdd a b = safeAdd b a.
Proof.
  intros a b. unfold safeAdd.
  destruct a as [| |x|s], b as [| |y|t];
    cbn [Number_isInteger ToNumber js_plus toString bind orb];
    rewrite ?orb_false_r; try reflexivity;
    try match goal with
        | |- context [add ?p ?q] => rewrite (add_comm p q)
        end;
    try match goal with
        | |- context [orb ?p ?q] => rewrite (orb_comm p q)
        end;
    try match goal with
        | |- context [Z.max ?p ?q] => rewrite (Z.max_comm p q)
        end;
    reflexivity.
Qed.


(** The order of numbers. *)
Ltac order_cases :=
  repeat match goal with
         | |- context [Z.compare ?a ?b] =>
             destruct (Z.compare_spec a b); try subst
         | H : context [Z.compare ?a ?b] |- _ =>
             destruct (Z.compare_spec a b); try subst
         | |- context [Pos.compare ?a ?b] =>
             destruct (Pos.compare_spec a b); try subst
         | H : context [Pos.compare ?a ?b] |- _ =>
             destruct (Pos.compare_spec a b); try subst
         end;
  cbn [CompOpp] in *; try reflexivity; try discriminate; try lia.

Lemma ltb_irrefl x : ltb x x = false.
Proof.
  unfold ltb, SFltb, SFcompare.
  destruct x as [s|s| |s m e]; try reflexivity; try (now destruct s).
  change (PosDef.Pos.compare_cont Eq m m) with (Pos.compare m m).
  rewrite Z.compare_refl, Pos.compare_refl. now destruct s.
Qed.

Lemma ltb_asym x y : ltb x y = true -> ltb y x = false.
Proof.
  unfold ltb, SFltb, SFcompare.
  destruct x as [sx|sx| |sx mx ex], y as [sy|sy| |sy my ey];
    try reflexivity; try discriminate;
    try (destruct sx; try destruct sy; reflexivity || discriminate);
    try (destruct sy; reflexivity || discriminate).
  change (PosDef.Pos.compare_cont Eq mx my) with (Pos.compare mx my).
  change (PosDef.Pos.compare_cont Eq my mx) with (Pos.compare my mx).
  destruct sx, sy; intros H; order_cases.
Qed.

(** "Not greater than" is transitive through a number that is not NaN. *)
Lemma not_gt_trans x y z :
  isNaN y = false -> ltb y x = false -> ltb z y = false -> ltb z x = false.
Proof.
  unfold ltb, SFltb, SFcompare.
  destruct x as [sx|sx| |sx mx ex], y as [sy|sy| |sy my ey],
           z as [sz|sz| |sz mz ez];
    intros Hy; try discriminate Hy; clear Hy;
    repeat match goal with
           | |- context [PosDef.Pos.compare_cont Eq ?a ?b] =>
               change (PosDef.Pos.compare_cont Eq a b) with (Pos.compare a b)
           end;
    try reflexivity;
    try (destruct sx); try (destruct sy); try (destruct sz);
    try reflexivity; try discriminate; intros H1 H2; order_cases.
Qed.


Lemma ltb_NaN_l y : ltb NaN y = false.
Proof. reflexivity. Qed.

Lemma ltb_NaN_r x : ltb x NaN = false.
Proof. now destruct x. Qed.

(** X2.  [mathStringMax] and [mathStringMin] return one of their two
    operands as it was passed.  When both read as numbers, the result of
    [mathStringMax] is below neither operand and the result of
    [mathStringMin] is above neither.  When one of them reads as NaN, both
    functions return the second operand, whichever of the two is NaN. *)
Theorem mathString_selects_bound :
  forall a b,
  (js_isNaN a = true \/ js_isNaN b = true ->
   mathStringMax a b = b /\ mathStringMin a b = b) /\
  (js_isNaN a = false -> js_isNaN b = false ->
   (mathStringMax a b = a \/ mathStringMax a b = b) /\
   ltb (ToNumber (mathStringMax a b)) (ToNumber a) = false /\
   ltb (ToNumber (mathStringMax a b)) (ToNumber b) = false /\
   (mathStringMin a b = a \/ mathStringMin a b = b) /\
   ltb (ToNumber a) (ToNumber (mathStringMin a b)) = false /\
   ltb (ToNumber b) (ToNumber (mathStringMin a b)) = false).
Proof.
  intros a b. unfold mathStringMax, mathStringMin, js_isNaN.
  change (gtb (ToNumber a) (ToNumber b))
    with (ltb (ToNumber b) (ToNumber a)).
  split.
  - intros [H|H]; apply isNaN_eq in H; rewrite H;
      now rewrite ltb_NaN_l, ltb_NaN_r.
  - intros _ _.
    destruct (ltb (ToNumber b) (ToNumber a)) eqn:E1;
      destruct (ltb (ToNumber a) (ToNumber b)) eqn:E2;
      try (apply ltb_asym in E1; congruence);
      repeat split; auto using ltb_irrefl.
Qed.

(* ================================================================= *)
(** * Rows the worker cannot read *)

(** The normalizer throws as soon as it meets a row that is no status row
    and whose value is a number instead of a text. *)
Lemma parse_number_throws a n :
  forall l h,
  In a l -> columnType (h a) <> "status" -> column (h a) = VNum n ->
  snd (parsePythonInfinityValues h l) = Throw TypeError.
Proof.
  induction l as [|a0 l IH]; intros h Hin Hty Hcol; [destruct Hin|].
  cbn [parsePythonInfinityValues].
  destruct (Nat.eq_dec a0 a) as [->|Hne].
  - apply String.eqb_neq in Hty. now rewrite Hty, Hcol.
  - destruct Hin as [Hin|Hin]; [contradiction|].
    assert (Hgo : forall h', h' a = h a ->
              snd (let '(h'', r) := parsePythonInfinityValues h' l in
                   (h'', items <- r ;; Ok (a0 :: items))) = Throw TypeError).
    { intros h' Hh. specialize (IH h' Hin). rewrite Hh in IH.
      specialize (IH Hty Hcol).
      destruct (parsePythonInfinityValues h' l) as [h'' r].
      cbn [snd] in *. now rewrite IH. }
    destruct (String.eqb (columnType (h a0)) "status"); [now apply Hgo|].
    destruct (column (h a0)) as [| |m|s]; try reflexivity.
    destruct (negb (endsWith s "Inf")); apply Hgo; [reflexivity|].
    unfold store. apply Nat.eqb_neq in Hne. rewrite Nat.eqb_sym in Hne.
    now rewrite Hne.
Qed.

(** X3.  A request that holds a row which is no status row and whose
    [column] is a number, not a text, makes the handler throw a TypeError:
    the normalizer calls [endsWith] on the value.  No message is posted. *)
Theorem number_column_throws :
  forall array_sort mocked h data tx a n,
  In (Some a) data ->
  columnType (h a) <> "status" ->
  column (h a) = VNum n ->
  snd (onmessage array_sort mocked h data tx) = Throw TypeError.
Proof.
  intros array_sort mocked h data tx a n Hin Hty Hcol.
  rewrite snd_onmessage.
  rewrite (parse_number_throws a n (filterRows h data) h); try assumption.
  - reflexivity.
  - apply filterRows_keep; [assumption| |]; now rewrite Hcol.
Qed.

Lemma number_column_throws_witness :
  In (Some 0%nat) (requestOf numberRows) /\
  columnType (heapOf numberRows 0%nat) <> "status" /\
  column (heapOf numberRows 0%nat) = VNum (of_Z 5) /\
  snd (onmessage stableSort false (heapOf numberRows) (requestOf numberRows)
         (VStr "t1")) = Throw TypeError.
Proof.
  assert (H1 : In (Some 0%nat) (requestOf numberRows)) by (left; reflexivity).
  assert (H2 : columnType (heapOf numberRows 0%nat) <> "status")
    by (vm_compute; discriminate).
  assert (H3 : column (heapOf numberRows 0%nat) = VNum (of_Z 5))
    by reflexivity.
  repeat (split; [assumption|]).
  exact (number_column_throws stableSort false (heapOf numberRows)
           (requestOf numberRows) (VStr "t1") 0%nat (of_Z 5) H1 H2 H3).
Defined.


(* ================================================================= *)
(** * A request that is handled again *)

Lemma replace_marker p :
  ascii_in "I"%char p = false ->
  replace (p ++ "Inf") "Inf" "Infinity" = p ++ "Infinity".
Proof.
  unfold ascii_in. induction p as [|c p IH]; intros H; [reflexivity|].
  cbn [list_ascii_of_string existsb] in H.
  apply orb_false_elim in H as [Hc Hp].
  change ((String c p) ++ "Inf") with (String c (p ++ "Inf")).
  cbn [replace prefix]. apply Ascii.eqb_neq in Hc.
  destruct (ascii_dec "I" c) as [E|_]; [contradiction|]. now rewrite IH.
Qed.

Lemma substring_skip p :
  forall n m s, substring (String.length p + n) m (p ++ s) = substring n m s.
Proof. induction p as [|c p IH]; intros n m s; [reflexivity|]. apply IH. Qed.

Lemma append_length p s :
  String.length (p ++ s) = (String.length p + String.length s)%nat.
Proof. induction p as [|c p IH]; [reflexivity|]. cbn. now rewrite IH. Qed.

Lemma endsWith_Infinity p : endsWith (p ++ "Infinity") "Inf" = false.
Proof.
  unfold endsWith. rewrite append_length.
  replace (String.length p + String.length "Infinity" - String.length "Inf")%nat
    with (String.length p + 5)%nat by (cbn; lia).
  rewrite substring_skip. apply andb_false_r.
Qed.

(** The normalizer leaves a settled row as it is. *)
Lemma parse_keeps_settled a :
  forall l h h' r, parsePythonInfinityValues h l = (h', r) ->
  settled h a -> h' a = h a.
Proof.
  induction l as [|a0 l IH]; intros h h' r H Hs;
    cbn [parsePythonInfinityValues] in H.
  - now injection H as <- _.
  - assert (Hgo : forall h0, h0 a = h a ->
              (let '(h'', r0) := parsePythonInfinityValues h0 l in
               (h'', items <- r0 ;; Ok (a0 :: items))) = (h', r) ->
              h' a = h a).
    { intros h0 Hh0 H0.
      destruct (parsePythonInfinityValues h0 l) as [h'' r0] eqn:E.
      injection H0 as <- _. rewrite <- Hh0. apply (IH h0 h'' r0 E).
      unfold settled. now rewrite Hh0. }
    destruct (String.eqb (columnType (h a0)) "status") eqn:Ety;
      [now apply (Hgo h)|].
    destruct (column (h a0)) as [| |m|s] eqn:Ecol;
      try (now injection H as <- _).
    destruct (endsWith s "Inf") eqn:Eend; cbn [negb] in H;
      [|now apply (Hgo h)].
    refine (Hgo _ _ H). unfold store.
    destruct (Nat.eqb_spec a a0) as [->|Hne]; [|reflexivity].
    destruct Hs as [Hs|(s' & Hs & He)].
    + rewrite Hs in Ety. discriminate.
    + rewrite Ecol in Hs. injection Hs as <-. congruence.
Qed.

(** After the normalizer has run, every row it went through is settled,
    when the marker stands at the end of the values that hold it. *)
Lemma parse_settles :
  forall l h h' l', parsePythonInfinityValues h l = (h', Ok l') ->
  (forall a s, In a l -> columnType (h a) <> "status" ->
     column (h a) = VStr s -> endsWith s "Inf" = true -> markerAtEnd s) ->
  forall a, In a l -> settled h' a.
Proof.
  induction l as [|a0 l IH]; intros h h' l' H Hm a Hin; [destruct Hin|].
  cbn [parsePythonInfinityValues] in H.
  assert (Hgo : forall h0,
            (forall a s, In a l -> columnType (h0 a) <> "status" ->
               column (h0 a) = VStr s -> endsWith s "Inf" = true ->
               markerAtEnd s) ->
            settled h0 a0 ->
            (let '(h'', r0) := parsePythonInfinityValues h0 l in
             (h'', items <- r0 ;; Ok (a0 :: items))) = (h', Ok l') ->
            settled h' a).
  { intros h0 Hm0 Hs0 H0.
    destruct (parsePythonInfinityValues h0 l) as [h'' r0] eqn:E.
    injection H0 as <- H0. destruct r0 as [l0|]; [|discriminate].
    destruct Hin as [<-|Hin].
    - unfold settled. rewrite (parse_keeps_settled a0 l h0 h'' _ E Hs0).
      exact Hs0.
    - exact (IH h0 h'' l0 E Hm0 a Hin). }
  assert (Hm' : forall a s, In a l -> columnType (h a) <> "status" ->
            column (h a) = VStr s -> endsWith s "Inf" = true ->
            markerAtEnd s) by (intros b s Hb; apply Hm; now right).
  destruct (String.eqb_spec (columnType (h a0)) "status") as [Ety|Ety].
  - apply (Hgo h Hm'); [now left|assumption].
  - destruct (column (h a0)) as [| |m|s] eqn:Ecol; try discriminate.
    destruct (endsWith s "Inf") eqn:Eend; cbn [negb] in H.
    + destruct (Hm a0 s (or_introl eq_refl) Ety Ecol Eend) as (p & -> & Hp).
      rewrite replace_marker in H by assumption.
      refine (Hgo _ _ _ H).
      * intros b s Hb. unfold store.
        destruct (Nat.eqb_spec b a0) as [->|Hne]; [|now apply Hm'].
        cbn [column set_column]. intros _ [= <-].
        now rewrite endsWith_Infinity.
      * right. exists (p ++ "Infinity"). unfold store.
        rewrite Nat.eqb_refl. split; [reflexivity|apply endsWith_Infinity].
    + apply (Hgo h Hm'); [|assumption]. right. eauto.
Qed.

Lemma parse_settled :
  forall l h, (forall a, In a l -> settled h a) ->
  parsePythonInfinityValues h l = (h, Ok l).
Proof.
  induction l as [|a0 l IH]; intros h Hs; [reflexivity|].
  cbn [parsePythonInfinityValues].
  rewrite (IH h) by (intros; apply Hs; now right). cbn [bind].
  destruct (Hs a0 (or_introl eq_refl)) as [Hst|(s & Hc & He)].
  - now rewrite Hst.
  - rewrite Hc, He. cbn [negb].
    now destruct (String.eqb (columnType (h a0)) "status").
Qed.

(** The normalizer neither makes a value [undefined] or [null] nor gives
    one to a row that had none. *)
Lemma parse_keep a :
  forall l h h' r, parsePythonInfinityValues h l = (h', r) ->
  keep h' (Some a) = keep h (Some a).
Proof.
  induction l as [|a0 l IH]; intros h h' r H;
    cbn [parsePythonInfinityValues] in H.
  - now injection H as <- _.
  - assert (Hgo : forall h0, keep h0 (Some a) = keep h (Some a) ->
              (let '(h'', r0) := parsePythonInfinityValues h0 l in
               (h'', items <- r0 ;; Ok (a0 :: items))) = (h', r) ->
              keep h' (Some a) = keep h (Some a)).
    { intros h0 Hh0 H0.
      destruct (parsePythonInfinityValues h0 l) as [h'' r0] eqn:E.
      injection H0 as <- _. now rewrite (IH _ _ _ E). }
    destruct (String.eqb (columnType (h a0)) "status");
      [now apply (Hgo h)|].
    destruct (column (h a0)) as [| |m|s] eqn:Ecol;
      try (now injection H as <- _).
    destruct (negb (endsWith s "Inf")); [now apply (Hgo h)|].
    refine (Hgo _ _ H). unfold keep, store.
    destruct (Nat.eqb_spec a a0) as [->|Hne]; [|reflexivity].
    cbn [column set_column]. now rewrite Ecol.
Qed.

Lemma filterRows_ext h h' data :
  (forall a, keep h' (Some a) = keep h (Some a)) ->
  filterRows h' data = filterRows h data.
Proof.
  intros H. induction data as [|[a|] data IH]; [reflexivity| |exact IH].
  cbn [filterRows]. rewrite H. now rewrite IH.
Qed.

(** X4.  When Python's infinity marker stands at the end of the values that
    hold it, with no [I] before it, handling a request a second time leaves
    the rows as the first run left them and posts the same message. *)
Theorem second_run_same_result :
  forall array_sort mocked h data tx evs,
  (forall a s, In (Some a) data -> columnType (h a) <> "status" ->
     column (h a) = VStr s -> endsWith s "Inf" = true -> markerAtEnd s) ->
  snd (onmessage array_sort mocked h data tx) = Ok evs ->
  onmessage array_sort mocked (fst (onmessage array_sort mocked h data tx))
    data tx
  = (fst (onmessage array_sort mocked h data tx), Ok evs).
Proof.
  intros array_sort mocked h data tx evs Hm H.
  destruct (onmessage array_sort mocked h data tx) as [h1 r] eqn:E.
  cbn [fst snd] in *. subst r.
  destruct (onmessage_inv _ _ _ _ _ _ _ E) as [Hp Hsum].
  unfold onmessage.
  rewrite (filterRows_ext h h1 data)
    by (intros a; exact (parse_keep a _ _ _ _ Hp)).
  rewrite (parse_settled (filterRows h data) h1).
  - cbn [bind]. now rewrite Hsum.
  - intros a Ha. apply (parse_settles _ _ _ _ Hp); [|assumption].
    intros b s Hb. apply Hm. now apply filterRows_In in Hb.
Qed.

Lemma second_run_same_result_witness :
  (forall a s, In (Some a) (requestOf infinityRows) ->
     columnType (heapOf infinityRows a) <> "status" ->
     column (heapOf infinityRows a) = VStr s ->
     endsWith s "Inf" = true -> markerAtEnd s) /\
  snd (onmessage stableSort false (heapOf infinityRows)
         (requestOf infinityRows) (VStr "t1")) = Ok infinityEvents /\
  onmessage stableSort false
    (fst (onmessage stableSort false (heapOf infinityRows)
            (requestOf infinityRows) (VStr "t1")))
    (requestOf infinityRows) (VStr "t1")
  = (fst (onmessage stableSort false (heapOf infinityRows)
            (requestOf infinityRows) (VStr "t1")), Ok infinityEvents).
Proof.
  assert (H1 : forall a s, In (Some a) (requestOf infinityRows) ->
            columnType (heapOf infinityRows a) <> "status" ->
            column (heapOf infinityRows a) = VStr s ->
            endsWith s "Inf" = true -> markerAtEnd s).
  { intros a s [Ha|[Ha|[]]] _; injection Ha as <-; intros [= <-] He.
    - exists "-". split; reflexivity.
    - discriminate He. }
  assert (H2 : snd (onmessage stableSort false (heapOf infinityRows)
                      (requestOf infinityRows) (VStr "t1"))
               = Ok infinityEvents) by (vm_compute; reflexivity).
  repeat (split; [assumption|]).
  exact (second_run_same_result stableSort false (heapOf infinityRows)
           (requestOf infinityRows) (VStr "t1") infinityEvents H1 H2).
Defined.


(* ================================================================= *)
(** * The bucketing loop, row by row *)

Ltac contribute_step En :=
  match goal with
  | E : maybeAdd ?x _ _ = Ok _ |- context [maybeAdd ?x _ _] => rewrite E
  end;
  cbn [bind]; rewrite ?En; stats_cbn; reflexivity.

(** A row whose two keys coincide, met when its bucket exists already:
    [bucket] and [subTotalBucket] are the same object, and every update of
    the iteration reaches it twice. *)
Lemma bucketStep_aliased t acc r acc' b0 :
  itemIsNaN r = false ->
  bucketStep t acc r = Ok acc' ->
  bucketKey r = totalKey r ->
  obj_get (buckets acc) (bucketKey r) = Some b0 ->
  shouldSkipBucket (bucketNaNInfo acc) (bucketKey r) = false ->
  exists b1 b',
    contribute r b0 = Ok b1 /\ contribute r b1 = Ok b' /\
    obj_get (buckets acc') (bucketKey r) = Some b'.
Proof.
  intros Hnan H Heq Eb Hskip.
  unfold bucketStep in H. rewrite Hnan, <- Heq, Hskip, Eb in H.
  rewrite String.eqb_refl in H. cbn [negb andb] in H.
  destruct (negb (js_isNaN (VNum (ToNumber (column r))))) eqn:En;
    unbind_all; locals_cbn;
    unfold contribute, pushItem in *;
    destruct b0 as [? ? ? ? ? ? ? ? [l|]]; stats_cbn;
    try discriminate;
    repeat (stats_cbn;
            match goal with
            | E : Ok _ = Ok _ |- _ => injection E as <-
            end);
    eexists; eexists;
    (split; [contribute_step En|]);
    (split; [stats_cbn; contribute_step En|apply obj_get_set_same]).
Qed.

(** The same row met when its bucket does not exist yet: two fresh objects
    are filled, and the second one is stored last. *)
Lemma bucketStep_fresh t acc r acc' :
  itemIsNaN r = false ->
  bucketStep t acc r = Ok acc' ->
  bucketKey r = totalKey r ->
  obj_get (buckets acc) (bucketKey r) = None ->
  shouldSkipBucket (bucketNaNInfo acc) (bucketKey r) = false ->
  exists b',
    contribute r (newBucket (columnTitle r)) = Ok b' /\
    obj_get (buckets acc') (bucketKey r) = Some b'.
Proof.
  intros Hnan H Heq Eb Hskip.
  unfold bucketStep in H. rewrite Hnan, <- Heq, Hskip, Eb in H.
  rewrite String.eqb_refl in H. cbn [negb andb] in H.
  destruct (negb (js_isNaN (VNum (ToNumber (column r))))) eqn:En;
    unbind_all; locals_cbn;
    (eexists; split; [|apply obj_get_set_same]);
    unfold contribute; rewrite ?En;
    match goal with
    | E : maybeAdd ?a ?b ?c = Ok ?x, E' : maybeAdd ?a ?b ?c = Ok ?y |- _ =>
        assert (x = y) by congruence; subst
    end;
    stats_cbn;
    repeat match goal with
           | E : maybeAdd _ _ _ = Ok _ |- _ => rewrite E; clear E
           | E : pushItem _ _ = Ok _ |- _ => rewrite E; clear E
           | |- _ => progress cbn [bind]
           end;
    reflexivity.
Qed.

(** A row that does not poison contributes to each bucket it falls into
    and that is not poisoned: once, or twice when its two keys coincide
    and the bucket exists already. *)
Lemma bucketStep_contributes t acc r acc' key :
  itemIsNaN r = false ->
  bucketStep t acc r = Ok acc' ->
  fallsInto key r = true ->
  shouldSkipBucket (bucketNaNInfo acc) key = false ->
  exists b',
    obj_get (buckets acc') key = Some b' /\
    (contribute r (bucketOrNew (buckets acc) key (columnTitle r)) = Ok b' \/
     bucketKey r = totalKey r /\
     exists b0 b1,
       obj_get (buckets acc) key = Some b0 /\
       contribute r b0 = Ok b1 /\ contribute r b1 = Ok b').
Proof.
  intros Hnan H Hf Hskip.
  destruct (String.eqb_spec (bucketKey r) (totalKey r)) as [Heq|Hne].
  - assert (key = bucketKey r) as ->.
    { unfold fallsInto in Hf. rewrite <- Heq, orb_diag in Hf.
      now apply String.eqb_eq in Hf. }
    destruct (obj_get (buckets acc) (bucketKey r)) as [b0|] eqn:Eb.
    + destruct (bucketStep_aliased _ _ _ _ _ Hnan H Heq Eb Hskip)
        as (b1 & b' & H1 & H2 & H3).
      exists b'. split; [exact H3|]. right. split; [exact Heq|].
      exists b0, b1. auto.
    + destruct (bucketStep_fresh _ _ _ _ Hnan H Heq Eb Hskip)
        as (b' & H1 & H2).
      exists b'. split; [exact H2|]. left.
      unfold bucketOrNew. now rewrite Eb.
  - destruct (bucketStep_unshared _ _ _ _ Hnan Hne H)
      as (b & s & Hb & Hs & -> & _).
    unfold fallsInto in Hf. apply orb_true_iff in Hf as [Hk|Hk];
      apply String.eqb_eq in Hk; subst key.
    + rewrite Hskip in Hb. exists b. split; [|now left].
      rewrite obj_get_set_other by congruence. apply obj_get_set_same.
    + rewrite Hskip in Hs. exists s. split; [|now left].
      apply obj_get_set_same.
Qed.


(* ================================================================= *)
(** * The handler, phase by phase *)

(** The run of the handler on a request that holds a row, with every
    intermediate state. *)
Lemma summarize_trace array_sort mocked first rest tx evs :
  summarize array_sort mocked (first :: rest) tx = Ok evs ->
  exists low high acc bs1 tot1 bs2 tot2 out totalOut,
    item_at (array_sort compareRows (first :: rest)) 0 = Ok low /\
    item_at (array_sort compareRows (first :: rest))
      (Z.of_nat (List.length (array_sort compareRows (first :: rest))) - 1)
    = Ok high /\
    foldM (bucketStep (existsb itemIsNaN
                         (array_sort compareRows (first :: rest))))
      (array_sort compareRows (first :: rest))
      (Build_Acc [] [] (initialTotal low high))
    = Ok acc /\
    mapM (meanMedianStep (bucketNaNInfo acc)) (buckets acc) = Ok bs1 /\
    totalMeanMedian
      (existsb itemIsNaN (array_sort compareRows (first :: rest)))
      (total acc) (array_sort compareRows (first :: rest)) = Ok tot1 /\
    foldM varianceStep (array_sort compareRows (first :: rest)) (bs1, tot1)
    = Ok (bs2, tot2) /\
    mapM (serializeStep (bucketNaNInfo acc)
            (totalStdev tot2
               (List.length (array_sort compareRows (first :: rest)))))
      bs2 = Ok out /\
    stringify true
      (totalStdev tot2
         (List.length (array_sort compareRows (first :: rest))))
    = Ok totalOut /\
    evs = postResult mocked
            (resultObject (columnType first)
               (obj_delete (obj_delete totalOut "items") "variance") out)
            tx /\
    uniqueKeys out /\ keysHyphenated out.
Proof.
  unfold summarize; intros H.
  unbind H. destruct x1 as [bs info tot]. unbind H.
  destruct x3 as [bs2 tot2]. unbind H. injection H as <-.
  eexists _, _, (Build_Acc bs info tot), _, _, bs2, tot2, _, _.
  cbn [buckets bucketNaNInfo total hasNaN] in *.
  repeat (split; [eassumption || reflexivity|]).
  match goal with
  | E : mapM (meanMedianStep _) _ = Ok _ |- _ =>
      pose proof (mapM_keys _ (meanMedianStep_key _) _ _ E) as K1
  end.
  match goal with
  | E : mapM (serializeStep _ _) _ = Ok _ |- _ =>
      pose proof (mapM_keys _ (serializeStep_key _ _) _ _ E) as K2
  end.
  split.
  - apply (uniqueKeys_map bs2 _ K2).
    change bs2 with (fst (bs2, tot2)).
    eapply (foldM_invariant varianceStep (fun st => uniqueKeys (fst st)));
      [intros; eapply varianceStep_unique; eauto| |eassumption].
    cbn [fst]. apply (uniqueKeys_map bs _ K1).
    change bs with (buckets (Build_Acc bs info tot)).
    eapply bucketLoop_unique; [|eassumption]. constructor.
  - apply (keysHyphenated_map bs2 _ K2).
    change bs2 with (fst (bs2, tot2)).
    eapply (foldM_invariant varianceStep (fun st => keysHyphenated (fst st)));
      [intros; eapply varianceStep_keys; eauto| |eassumption].
    cbn [fst]. apply (keysHyphenated_map bs _ K1).
    change bs with (buckets (Build_Acc bs info tot)).
    eapply (foldM_invariant (bucketStep _)
              (fun acc => keysHyphenated (buckets acc)));
      [intros; eapply bucketStep_keys; eauto| |eassumption].
    constructor.
Qed.

Lemma resultObject_bucket columnType total out k stats :
  uniqueKeys out -> obj_get out k = Some stats ->
  obj_get (resultObject columnType total out) k = Some (JObject stats).
Proof. intros Hu Hk. now apply (spread_gets JObject). Qed.

Lemma resultObject_total columnType total out :
  keysHyphenated out ->
  obj_get (resultObject columnType total out) "total" = Some (JObject total).
Proof.
  intros Hk. unfold resultObject.
  now rewrite (spread_keeps JObject) by (reflexivity || assumption).
Qed.


(* ================================================================= *)
(** * The shape of the posted result *)

(** The keys the bucketing loop adds are the two keys of every row. *)
Lemma bucketStep_buckets t acc r acc' :
  bucketStep t acc r = Ok acc' ->
  exists b s,
    buckets acc' = obj_set (obj_set (buckets acc) (bucketKey r) b) (totalKey r) s.
Proof.
  intros H. destruct (itemIsNaN r) eqn:En.
  - rewrite bucketStep_NaN in H by assumption. injection H as <-.
    cbn [buckets]. eauto.
  - destruct (bucketStep_skipped _ _ _ _ En H) as (_ & b & s & Hb & _). eauto.
Qed.

Lemma bucketLoop_keys t k :
  forall rows acc acc',
  foldM (bucketStep t) rows acc = Ok acc' ->
  (obj_get (buckets acc') k <> None <->
   obj_get (buckets acc) k <> None \/
   exists r, In r rows /\ fallsInto k r = true).
Proof.
  induction rows as [|r rows IH]; intros acc acc' H.
  - injection H as <-. split; [now left|]. now intros [H|(r & [] & _)].
  - cbn [foldM] in H. unbind H. rewrite (IH _ _ H).
    destruct (bucketStep_buckets _ _ _ _ E) as (b & s & ->).
    rewrite !obj_get_set. unfold fallsInto.
    destruct (String.eqb_spec (totalKey r) k) as [Et|Et];
      destruct (String.eqb_spec (bucketKey r) k) as [Eb|Eb];
      (split;
       [ intros [Hk|(r' & Hin & Hf)];
         [ first [ now left
                 | right; exists r; split; [now left|];
                   apply orb_true_iff;
                   rewrite !String.eqb_eq; tauto ]
         | right; exists r'; split; [now right|exact Hf] ]
       | intros [Hk|(r' & [<-|Hin] & Hf)];
         [ now left
         | apply orb_true_iff in Hf; rewrite !String.eqb_eq in Hf;
           first [ now left | tauto ]
         | right; eauto ] ]).
Qed.

Lemma related_keys {A B} (R : A -> B -> Prop) o o' k :
  related R o o' -> (obj_get o k <> None <-> obj_get o' k <> None).
Proof.
  intros H. specialize (H k). destruct (obj_get o k).
  - destruct H as (w & -> & _). split; discriminate.
  - rewrite H. tauto.
Qed.

Lemma spread_other {A} (f : A -> jsval) (bs : list (string * A)) :
  forall o k, obj_get bs k = None ->
  obj_get (fold_left (fun o kv => obj_set o (fst kv) (f (snd kv))) bs o) k
  = obj_get o k.
Proof.
  induction bs as [|[k0 v0] bs IH]; intros o k Hk; [reflexivity|].
  cbn [obj_get] in Hk. cbn [fold_left fst snd].
  destruct (String.eqb_spec k0 k) as [->|Hne]; [discriminate|].
  rewrite (IH _ _ Hk). now apply obj_get_set_other.
Qed.

(** The buckets of the posted result are those the bucketing loop left. *)
Lemma summarize_result array_sort mocked first rest tx evs :
  summarize array_sort mocked (first :: rest) tx = Ok evs ->
  exists low high acc total out,
    foldM (bucketStep (existsb itemIsNaN
                         (array_sort compareRows (first :: rest))))
      (array_sort compareRows (first :: rest))
      (Build_Acc [] [] (initialTotal low high))
    = Ok acc /\
    evs = postResult mocked (resultObject (columnType first) total out) tx /\
    uniqueKeys out /\
    forall k, obj_get (buckets acc) k <> None <-> obj_get out k <> None.
Proof.
  intros H.
  apply summarize_trace in H
    as (low & high & acc & bs1 & tot1 & bs2 & tot2 & out & totalOut
        & _ & _ & H1 & H2 & _ & H3 & H4 & _ & -> & Hu & _).
  exists low, high, acc. eexists _, out.
  split; [exact H1|]. split; [reflexivity|]. split; [exact Hu|].
  assert (R1 : related sameCore (buckets acc) bs1).
  { eapply related_mapM; [|exact H2].
    intros; eapply meanMedianStep_core; eauto. }
  assert (R2 : related sameCore bs1 bs2)
    by apply (varianceLoop_core _ _ _ H3).
  assert (R3 : related coreText bs2 out).
  { eapply related_mapM; [|exact H4].
    intros; eapply serializeStep_core; eauto. }
  intros k. rewrite (related_keys _ _ _ k R1), (related_keys _ _ _ k R2).
  apply (related_keys _ _ _ k R3).
Qed.

(** X5.  When the handler completes on a request that holds a row, it posts
    one message; its result object holds [columnType], [total], and one
    object for each bucket key and each category-total key of the rows,
    and nothing else. *)
Theorem result_holds_the_buckets_of_the_rows :
  forall array_sort,
  (forall cmp l, Permutation (array_sort cmp l) l) ->
  forall mocked copy tx evs,
  copy <> [] ->
  summarize array_sort mocked copy tx = Ok evs ->
  exists result,
    evs = postResult mocked result tx /\
    (forall k, obj_get result k <> None <->
       k = "columnType" \/ k = "total" \/
       exists r, In r copy /\ fallsInto k r = true) /\
    (forall r, In r copy ->
       exists stats subtotal,
         obj_get result (bucketKey r) = Some (JObject stats) /\
         obj_get result (totalKey r) = Some (JObject subtotal)).
Proof.
  intros array_sort Hperm mocked copy tx evs Hne H.
  destruct copy as [|first rest]; [contradiction|].
  apply summarize_result in H
    as (low & high & acc & total & out & Hloop & -> & Hu & Hkeys).
  pose proof (fun k => bucketLoop_keys _ k _ _ _ Hloop) as Hk.
  cbn [buckets obj_get] in Hk.
  assert (Hout : forall k, obj_get out k <> None <->
            exists r, In r (first :: rest) /\ fallsInto k r = true).
  { intros k. rewrite <- Hkeys, Hk. split.
    - intros [[]|(r & Hin & Hf)]; [reflexivity|].
      exists r. split; [|exact Hf].
      eapply Permutation_in; [apply Hperm|exact Hin].
    - intros (r & Hin & Hf). right. exists r. split; [|exact Hf].
      eapply Permutation_in; [apply Permutation_sym, Hperm|exact Hin]. }
  assert (Hget : forall k, obj_get (resultObject (columnType first) total out) k
            = match obj_get out k with
              | Some s => Some (JObject s)
              | None => obj_get [("columnType", JString (columnType first));
                                 ("total", JObject total)] k
              end).
  { intros k. unfold resultObject. destruct (obj_get out k) as [s|] eqn:Es.
    - now apply (spread_gets JObject).
    - now apply spread_other. }
  eexists. split; [reflexivity|]. split.
  - intros k. rewrite Hget. specialize (Hout k).
    destruct (obj_get out k) as [s|].
    + split; [|discriminate]. intros _. right; right. apply Hout. discriminate.
    + cbn [obj_get]. split.
      * destruct (String.eqb_spec "columnType" k); [now left|].
        destruct (String.eqb_spec "total" k); [now (right; left)|].
        intros []; reflexivity.
      * intros [->|[->|Hr]]; [discriminate|discriminate|].
        apply Hout in Hr. now destruct Hr.
  - intros r Hin.
    assert (Hb : obj_get out (bucketKey r) <> None).
    { apply Hout. exists r. split; [exact Hin|].
      unfold fallsInto. now rewrite String.eqb_refl. }
    assert (Ht : obj_get out (totalKey r) <> None).
    { apply Hout. exists r. split; [exact Hin|].
      unfold fallsInto. rewrite (String.eqb_refl (totalKey r)).
      apply orb_true_r. }
    rewrite !Hget.
    destruct (obj_get out (bucketKey r)) as [s1|]; [|contradiction].
    destruct (obj_get out (totalKey r)) as [s2|]; [|contradiction].
    eauto.
Qed.

Lemma result_holds_the_buckets_of_the_rows_witness :
  (forall cmp l, Permutation (stableSort cmp l) l) /\
  mixedRows <> [] /\
  summarize stableSort false mixedRows (VStr "t1") = Ok mixedEvents /\
  exists result,
    mixedEvents = postResult false result (VStr "t1") /\
    (forall k, obj_get result k <> None <->
       k = "columnType" \/ k = "total" \/
       exists r, In r mixedRows /\ fallsInto k r = true) /\
    (forall r, In r mixedRows ->
       exists stats subtotal,
         obj_get result (bucketKey r) = Some (JObject stats) /\
         obj_get result (totalKey r) = Some (JObject subtotal)).
Proof.
  assert (H1 : forall cmp l, Permutation (stableSort cmp l) l)
    by exact stableSort_perm.
  assert (H2 : mixedRows <> []) by discriminate.
  assert (H3 : summarize stableSort false mixedRows (VStr "t1")
               = Ok mixedEvents) by (vm_compute; reflexivity).
  repeat (split; [assumption|]).
  exact (result_holds_the_buckets_of_the_rows stableSort H1 false mixedRows
           (VStr "t1") mixedEvents H2 H3).
Defined.


(* ================================================================= *)
(** * What the later passes change *)

Lemma mapM_get {A B} (f : string * A -> result (string * B)) :
  (forall x y, f x = Ok y -> fst y = fst x) ->
  forall l l' k v, mapM f l = Ok l' -> obj_get l k = Some v ->
  exists w, f (k, v) = Ok (k, w) /\ obj_get l' k = Some w.
Proof.
  intros Hf l; induction l as [|[k0 v0] l IH]; intros l' k v H Hk;
    [discriminate|].
  cbn [mapM] in H. unbind_all. destruct x as [k1 w1].
  pose proof (Hf _ _ E) as Hk1. cbn [fst] in Hk1. subst k1.
  cbn [obj_get] in *. destruct (String.eqb_spec k0 k) as [->|Hne].
  - injection Hk as <-. eauto.
  - eauto.
Qed.

Lemma foldM_app {A B} (f : A -> B -> result A) l1 :
  forall l2 a a', foldM f (l1 ++ l2) a = Ok a' ->
  exists a1, foldM f l1 a = Ok a1 /\ foldM f l2 a1 = Ok a'.
Proof.
  induction l1 as [|b l1 IH]; intros l2 a a' H.
  - exists a. split; [reflexivity|exact H].
  - cbn [foldM app] in *. unbind H. rewrite E. cbn [bind]. eauto.
Qed.

Lemma hasText_plus a n : hasText (js_plus a (VNum n)).
Proof. destruct a; cbn; eexists; reflexivity. Qed.

Lemma sameButVariance_refl b : sameButVariance b b.
Proof. split; [now destruct b|auto]. Qed.

Lemma sameButVariance_trans a b c :
  sameButVariance a b -> sameButVariance b c -> sameButVariance a c.
Proof.
  intros [H1 T1] [H2 T2]. split; [|auto].
  rewrite H2 at 1. rewrite H1. now destruct a.
Qed.

Lemma sameButVariance_set b n :
  sameButVariance b
    (Stats.set_variance (js_plus (Stats.variance b) (VNum n)) b).
Proof. split; [reflexivity|]. intros _. stats_cbn. apply hasText_plus. Qed.

(** The variance loop writes [variance] and nothing else. *)
Lemma varianceStep_only bs tot r bs' tot' :
  varianceStep (bs, tot) r = Ok (bs', tot') ->
  related sameButVariance bs bs' /\ sameButVariance tot tot'.
Proof.
  unfold varianceStep. intros H.
  destruct (js_isNaN _).
  { injection H as <- <-.
    split; [apply related_refl|]; apply sameButVariance_refl. }
  destruct (obj_get bs (bucketKey r)) as [b|] eqn:Eb; [|discriminate].
  destruct (obj_get bs (totalKey r)) as [s|] eqn:Es; [|discriminate].
  injection H as <- <-. split; [|apply sameButVariance_set].
  match goal with
  | |- related _ _ (obj_set ?o1 _ _) =>
      apply (related_trans sameButVariance sameButVariance sameButVariance
               bs o1);
        [exact sameButVariance_trans| |]
  end.
  - eapply (related_obj_set sameButVariance);
      [exact sameButVariance_refl|exact Eb|apply sameButVariance_set].
  - match goal with
    | |- context [obj_get ?o (totalKey r)] =>
        destruct (obj_get o (totalKey r)) as [s1|] eqn:Es1
    end.
    + eapply (related_obj_set sameButVariance);
        [exact sameButVariance_refl|exact Es1|apply sameButVariance_set].
    + rewrite obj_get_set, Es in Es1.
      destruct (String.eqb (bucketKey r) (totalKey r)); discriminate.
Qed.

Lemma varianceLoop_only rows :
  forall bs tot bs' tot',
  foldM varianceStep rows (bs, tot) = Ok (bs', tot') ->
  related sameButVariance bs bs' /\ sameButVariance tot tot'.
Proof.
  induction rows as [|r rows IH]; intros bs tot bs' tot' H.
  - injection H as <- <-.
    split; [apply related_refl|]; apply sameButVariance_refl.
  - cbn [foldM] in H. unbind H. destruct x as [bs1 tot1].
    destruct (varianceStep_only _ _ _ _ _ E) as [R1 T1].
    destruct (IH _ _ _ _ H) as [R2 T2]. split.
    + eapply related_trans; [exact sameButVariance_trans|exact R1|exact R2].
    + eapply sameButVariance_trans; eassumption.
Qed.

(** The mean and median pass writes [avg] and [median] and nothing else. *)
Lemma calculateMean_only v items w :
  calculateMean v items = Ok w -> w = Stats.set_avg (Stats.avg w) v.
Proof.
  unfold calculateMean. intros H.
  repeat match type of H with
         | (if ?c then _ else _) = _ => destruct c
         | match ?c with _ => _ end = _ => destruct c
         end; try discriminate; now injection H as <-.
Qed.

Lemma calculateMedian_only v items w :
  calculateMedian v items = Ok w -> w = Stats.set_median (Stats.median w) v.
Proof.
  unfold calculateMedian. intros H.
  destruct items; [|discriminate].
  destruct (_ =? 0); unbind_all; reflexivity.
Qed.

Lemma meanMedianStep_only info k v w :
  meanMedianStep info (k, v) = Ok (k, w) -> sameButMean v w.
Proof.
  unfold meanMedianStep, sameButMean. intros H.
  destruct (shouldSkipBucket info k).
  { injection H as <-. now destruct v. }
  unbind_all. apply calculateMean_only in E. apply calculateMedian_only in E0.
  rewrite E0 at 1. rewrite E at 1. rewrite E0. stats_cbn. now destruct v.
Qed.


(* ================================================================= *)
(** * Values that are no numbers *)

Lemma drop_ws_last l c :
  is_ws c = false -> drop_ws (l ++ [c]) = (drop_ws l ++ [c])%list.
Proof.
  intros Hc. induction l as [|x l IH]; cbn [drop_ws app].
  - now rewrite Hc.
  - destruct (is_ws x); [exact IH|reflexivity].
Qed.

(** A text that starts with the letter N does not read as a number. *)
Lemma of_string_N s : of_string (String "N" s) = NaN.
Proof.
  unfold of_string, trim. cbn [list_ascii_of_string].
  change (drop_ws ("N"%char :: list_ascii_of_string s))
    with ("N"%char :: list_ascii_of_string s).
  cbn [rev]. rewrite drop_ws_last by reflexivity.
  rewrite rev_app_distr. cbn [rev app].
  set (r := rev (drop_ws (rev (list_ascii_of_string s)))).
  reflexivity.
Qed.

Lemma bucketLoop_poisons t key r :
  forall rows acc acc',
  foldM (bucketStep t) rows acc = Ok acc' ->
  In r rows -> itemIsNaN r = true -> fallsInto key r = true ->
  shouldSkipBucket (bucketNaNInfo acc') key = true /\
  exists b, obj_get (buckets acc') key = Some b /\ allNaN b.
Proof.
  intros rows acc acc' H Hin Hnan Hf.
  apply in_split in Hin as (l1 & l2 & ->).
  apply foldM_app in H as (acc1 & _ & H).
  cbn [foldM] in H. unbind H.
  rewrite bucketStep_NaN in E by assumption. injection E as <-.
  apply (bucketLoop_poisoned _ key _ _ _ H);
    cbn [buckets bucketNaNInfo]; unfold shouldSkipBucket;
    rewrite !obj_get_set; unfold fallsInto in Hf;
    destruct (String.eqb (totalKey r) key);
    destruct (String.eqb (bucketKey r) key);
    try discriminate; eauto using nanBucket_allNaN.
Qed.

Lemma stringify_no_items itemsFirst b out :
  stringify itemsFirst b = Ok out -> Stats.items b = None ->
  obj_get out "items" = None.
Proof.
  unfold stringify. intros H Hi. unbind_all. rewrite Hi.
  now destruct itemsFirst, (Stats.title b).
Qed.

(** X6.  When a row that is no status row carries a value that is no
    number, every bucket the row falls into is posted with the text
    ["NaN"] as its [sum], [avg], [max], [median], [min] and [stdev],
    and without a list of rows, whatever the other rows of the bucket
    hold. *)
Theorem poisoned_bucket_posts_NaN :
  forall array_sort,
  (forall cmp l, Permutation (array_sort cmp l) l) ->
  forall mocked copy tx evs key r,
  summarize array_sort mocked copy tx = Ok evs ->
  In r copy -> itemIsNaN r = true -> fallsInto key r = true ->
  exists result stats,
    evs = postResult mocked result tx /\
    obj_get result key = Some (JObject stats) /\
    obj_get stats "sum" = Some "NaN" /\
    obj_get stats "avg" = Some "NaN" /\
    obj_get stats "max" = Some "NaN" /\
    obj_get stats "median" = Some "NaN" /\
    obj_get stats "min" = Some "NaN" /\
    obj_get stats "stdev" = Some "NaN" /\
    obj_get stats "items" = None.
Proof.
  intros array_sort Hperm mocked copy tx evs key r H Hin Hnan Hf.
  destruct copy as [|first rest]; [destruct Hin|].
  apply summarize_trace in H
    as (low & high & acc & bs1 & tot1 & bs2 & tot2 & out & totalOut
        & _ & _ & H1 & H2 & _ & H3 & H4 & _ & -> & Hu & _).
  assert (Hin' : In r (array_sort compareRows (first :: rest)))
    by (eapply Permutation_in; [apply Permutation_sym, Hperm|exact Hin]).
  destruct (bucketLoop_poisons _ key r _ _ _ H1 Hin' Hnan Hf)
    as (Hskip & b & Hb & Hall).
  destruct (mapM_get _ (meanMedianStep_key _) _ _ _ _ H2 Hb)
    as (b1 & Hstep1 & Hb1).
  rewrite meanMedianStep_poisoned in Hstep1 by assumption.
  injection Hstep1 as <-.
  destruct (varianceLoop_only _ _ _ _ _ H3) as [R _].
  specialize (R key). rewrite Hb1 in R. destruct R as (b2 & Hb2 & Hsame & Ht).
  destruct (mapM_get _ (serializeStep_key _ _) _ _ _ _ H4 Hb2)
    as (stats & Hstep & Hstats).
  unfold serializeStep in Hstep. rewrite Hskip in Hstep. unbind_all.
  destruct Hall as (A1 & A2 & A3 & A4 & A5 & A6 & A7 & A8).
  destruct (stringify_fields _ _ _ E) as (F1 & F2 & F3 & F4 & F5 & F6 & _).
  pose proof (stringify_no_items _ _ _ E) as Hitems.
  rewrite Hsame in F1, F2, F3, F4, F5, F6, Hitems. stats_cbn.
  rewrite A1 in F1. rewrite A2 in F2. rewrite A3 in F3.
  rewrite A4 in F4. rewrite A5 in F5. rewrite A6 in F6.
  eexists _, _. split; [reflexivity|].
  split; [apply resultObject_bucket; [exact Hu|exact Hstats]|].
  repeat split; auto using fieldText_VStr.
Qed.

Lemma poisoned_bucket_posts_NaN_witness :
  (forall cmp l, Permutation (stableSort cmp l) l) /\
  summarize stableSort false poisonedRows (VStr "t1")
  = Ok (postResult false poisonedResult (VStr "t1")) /\
  In (exampleRow "A" "correct" "numeric" "abc") poisonedRows /\
  itemIsNaN (exampleRow "A" "correct" "numeric" "abc") = true /\
  fallsInto "A-total" (exampleRow "A" "correct" "numeric" "abc") = true /\
  exists result stats,
    postResult false poisonedResult (VStr "t1")
    = postResult false result (VStr "t1") /\
    obj_get result "A-total" = Some (JObject stats) /\
    obj_get stats "sum" = Some "NaN" /\
    obj_get stats "avg" = Some "NaN" /\
    obj_get stats "max" = Some "NaN" /\
    obj_get stats "median" = Some "NaN" /\
    obj_get stats "min" = Some "NaN" /\
    obj_get stats "stdev" = Some "NaN" /\
    obj_get stats "items" = None.
Proof.
  assert (H1 : forall cmp l, Permutation (stableSort cmp l) l)
    by exact stableSort_perm.
  assert (H2 : summarize stableSort false poisonedRows (VStr "t1")
               = Ok (postResult false poisonedResult (VStr "t1")))
    by (vm_compute; reflexivity).
  assert (H3 : In (exampleRow "A" "correct" "numeric" "abc") poisonedRows)
    by (left; reflexivity).
  assert (H4 : itemIsNaN (exampleRow "A" "correct" "numeric" "abc") = true)
    by (vm_compute; reflexivity).
  assert (H5 : fallsInto "A-total"
                 (exampleRow "A" "correct" "numeric" "abc") = true)
    by (vm_compute; reflexivity).
  repeat (split; [assumption|]).
  exact (poisoned_bucket_posts_NaN stableSort H1 false poisonedRows (VStr "t1")
           (postResult false poisonedResult (VStr "t1")) "A-total"
           (exampleRow "A" "correct" "numeric" "abc") H2 H3 H4 H5).
Defined.


Lemma varianceLoop_total_N rows :
  forall bs tot bs' tot',
  foldM varianceStep rows (bs, tot) = Ok (bs', tot') ->
  startsN (Stats.variance tot) -> startsN (Stats.variance tot').
Proof.
  induction rows as [|r rows IH]; intros bs tot bs' tot' H HN.
  - now injection H as <- <-.
  - cbn [foldM] in H. unbind H. destruct x as [bs1 tot1].
    apply (IH _ _ _ _ H).
    unfold varianceStep in E. destruct (js_isNaN _).
    { now injection E as <- <-. }
    destruct (obj_get bs (bucketKey r)); [|discriminate].
    destruct (obj_get bs (totalKey r)); [|discriminate].
    injection E as <- <-. stats_cbn.
    destruct HN as (s & ->). cbn [js_plus ToString append]. eexists; reflexivity.
Qed.

(** X7.  When a row that is no status row carries a value that is no
    number, the grand total is posted with the text ["NaN"] as its [sum],
    [avg], [max], [median], [min] and [stdev], and without [items] and
    [variance]. *)
Theorem total_is_NaN_once_a_value_is :
  forall array_sort,
  (forall cmp l, Permutation (array_sort cmp l) l) ->
  forall mocked copy tx evs r,
  summarize array_sort mocked copy tx = Ok evs ->
  In r copy -> itemIsNaN r = true ->
  exists result total,
    evs = postResult mocked result tx /\
    obj_get result "total" = Some (JObject total) /\
    obj_get total "sum" = Some "NaN" /\
    obj_get total "avg" = Some "NaN" /\
    obj_get total "max" = Some "NaN" /\
    obj_get total "median" = Some "NaN" /\
    obj_get total "min" = Some "NaN" /\
    obj_get total "stdev" = Some "NaN" /\
    obj_get total "items" = None /\
    obj_get total "variance" = None.
Proof.
  intros array_sort Hperm mocked copy tx evs r H Hin Hnan.
  destruct copy as [|first rest]; [destruct Hin|].
  apply summarize_trace in H
    as (low & high & acc & bs1 & tot1 & bs2 & tot2 & out & totalOut
        & _ & _ & _ & _ & H2 & H3 & _ & H4 & -> & _ & Hk).
  assert (Hex : existsb itemIsNaN (array_sort compareRows (first :: rest))
                = true).
  { apply existsb_exists. exists r. split; [|exact Hnan].
    eapply Permutation_in; [apply Permutation_sym, Hperm|exact Hin]. }
  rewrite Hex in H2. cbn [totalMeanMedian] in H2. injection H2 as <-.
  destruct (varianceLoop_only _ _ _ _ _ H3) as [_ [Hsame _]].
  assert (HN : startsN (Stats.variance tot2)).
  { apply (varianceLoop_total_N _ _ _ _ _ H3). now exists "aN". }
  destruct HN as (s & HN).
  destruct (stringify_fields _ _ _ H4) as (F1 & F2 & F3 & F4 & F5 & F6 & _).
  unfold totalStdev in F1, F2, F3, F4, F5, F6.
  rewrite Hsame in F1, F2, F3, F4, F5, F6. rewrite HN in F6.
  unfold spreadNaN, nanObj in *. stats_cbn.
  cbn [ToNumber] in F6.
  change (of_string "NaN") with NaN in F6.
  change (eqb NaN NegInfinity) with false in F6.
  change (eqb NaN Infinity) with false in F6.
  cbn [calculateStdev andb orb ToNumber] in F6.
  rewrite of_string_N in F6.
  change (div NaN ?x) with NaN in F6.
  change (sqrt NaN) with NaN in F6.
  eexists _, _. split; [reflexivity|].
  split; [apply resultObject_total; exact Hk|].
  rewrite !obj_get_delete. cbn [String.eqb Ascii.eqb Bool.eqb].
  repeat split;
    first [ apply fieldText_VStr; assumption
          | apply (fieldText_VNum NaN); assumption ].
Qed.

Lemma total_is_NaN_once_a_value_is_witness :
  (forall cmp l, Permutation (stableSort cmp l) l) /\
  summarize stableSort false poisonedRows (VStr "t1")
  = Ok (postResult false poisonedResult (VStr "t1")) /\
  In (exampleRow "A" "correct" "numeric" "abc") poisonedRows /\
  itemIsNaN (exampleRow "A" "correct" "numeric" "abc") = true /\
  exists result total,
    postResult false poisonedResult (VStr "t1")
    = postResult false result (VStr "t1") /\
    obj_get result "total" = Some (JObject total) /\
    obj_get total "sum" = Some "NaN" /\
    obj_get total "avg" = Some "NaN" /\
    obj_get total "max" = Some "NaN" /\
    obj_get total "median" = Some "NaN" /\
    obj_get total "min" = Some "NaN" /\
    obj_get total "stdev" = Some "NaN" /\
    obj_get total "items" = None /\
    obj_get total "variance" = None.
Proof.
  assert (H1 : forall cmp l, Permutation (stableSort cmp l) l)
    by exact stableSort_perm.
  assert (H2 : summarize stableSort false poisonedRows (VStr "t1")
               = Ok (postResult false poisonedResult (VStr "t1")))
    by (vm_compute; reflexivity).
  assert (H3 : In (exampleRow "A" "correct" "numeric" "abc") poisonedRows)
    by (left; reflexivity).
  assert (H4 : itemIsNaN (exampleRow "A" "correct" "numeric" "abc") = true)
    by (vm_compute; reflexivity).
  repeat (split; [assumption|]).
  exact (total_is_NaN_once_a_value_is stableSort H1 false poisonedRows
           (VStr "t1") (postResult false poisonedResult (VStr "t1"))
           (exampleRow "A" "correct" "numeric" "abc") H2 H3 H4).
Defined.


(* ================================================================= *)
(** * The grand total *)

(** The bucketing loop writes the [sum] and the [title] of the grand total
    and nothing else; the sum receives every row that does not poison,
    unless some row of the request does. *)
Lemma bucketStep_total t acc r acc' :
  bucketStep t acc r = Ok acc' ->
  total acc'
  = Stats.set_sum (Stats.sum (total acc'))
      (Stats.set_title (Stats.title (total acc')) (total acc)) /\
  (itemIsNaN r = false -> t = false ->
   maybeAdd (Stats.sum (total acc)) (column r) (columnType r)
   = Ok (Stats.sum (total acc'))) /\
  (itemIsNaN r = true \/ t = true ->
   Stats.sum (total acc') = Stats.sum (total acc)).
Proof.
  unfold bucketStep. intros H. destruct (itemIsNaN r).
  - injection H as <-. cbn [total].
    split; [|split; [discriminate|intros _]];
      destruct (total acc); now destruct (noTitle _).
  - unbind_all. cbn [total].
    destruct t; cbn [negb] in *; unbind_all.
    + split; [|split; [discriminate|intros _]];
        destruct (total acc); now destruct (noTitle _).
    + split; [|split; [|intros [?|?]; discriminate]].
      * destruct (total acc). now destruct (noTitle _).
      * intros _ _.
        match goal with
        | E : maybeAdd (Stats.sum (if _ then _ else _)) _ _ = Ok _ |- _ =>
            revert E
        end.
        destruct (total acc). destruct (noTitle _); stats_cbn; auto.
Qed.

Lemma sumZ_map_perm (f : Row -> Z) l l' :
  Permutation l l' -> sumZ (map f l) = sumZ (map f l').
Proof.
  induction 1; cbn [map sumZ fold_right]; unfold sumZ in *;
    cbn [fold_right]; lia.
Qed.

Lemma of_Z_finite z :
  Z.abs z < 2 ^ 53 -> of_Z z <> NegInfinity /\ of_Z z <> Infinity.
Proof.
  intros Hz. destruct (Z.eq_dec z 0) as [->|Nz]; [split; discriminate|].
  rewrite of_Z_small by lia. split; discriminate.
Qed.

Lemma item_at_In {A} (l : list A) i a : item_at l i = Ok a -> In a l.
Proof.
  unfold item_at. destruct (i <? 0); [discriminate|].
  destruct (nth_error l (Z.to_nat i)) eqn:E; [|discriminate].
  intros [= <-]. eapply nth_error_In; eassumption.
Qed.

Lemma integer_not_NaN r z :
  ToNumber (column r) = of_Z z -> Z.abs z < 2 ^ 53 -> itemIsNaN r = false.
Proof.
  intros Hc Hz. unfold itemIsNaN, js_isNaN.
  rewrite Hc, of_Z_not_NaN by assumption. apply andb_false_r.
Qed.

Lemma sumZ_abs_nonneg (f : Row -> Z) l :
  0 <= sumZ (map (fun r => Z.abs (f r)) l).
Proof. induction l; cbn [map sumZ fold_right]; unfold sumZ in *; lia. Qed.

Lemma sumZ_abs_In (f : Row -> Z) l r :
  In r l -> Z.abs (f r) <= sumZ (map (fun r => Z.abs (f r)) l).
Proof.
  induction l as [|x l IH]; intros Hin; [destruct Hin|].
  cbn [map sumZ fold_right]. fold (sumZ (map (fun r => Z.abs (f r)) l)).
  pose proof (sumZ_abs_nonneg f l).
  destruct Hin as [->|Hin]; [lia|]. specialize (IH Hin). lia.
Qed.

(** The sum of the grand total over rows that carry small integers. *)
Lemma totalLoop_integers (val : Row -> Z) :
  forall rows acc acc' S,
  foldM (bucketStep false) rows acc = Ok acc' ->
  (forall r, In r rows ->
     columnType r <> "status" /\ ToNumber (column r) = of_Z (val r)) ->
  Stats.sum (total acc) = VNum (of_Z S) ->
  Z.abs S + sumZ (map (fun r => Z.abs (val r)) rows) < 2 ^ 53 ->
  total acc'
  = Stats.set_sum (VNum (of_Z (S + sumZ (map val rows))))
      (Stats.set_title (Stats.title (total acc')) (total acc)).
Proof.
  induction rows as [|r rows IH]; intros acc acc' S H Hrows Hsum Hb.
  - injection H as <-. cbn [map sumZ fold_right]. rewrite Z.add_0_r, <- Hsum.
    now destruct (total acc).
  - cbn [foldM] in H. unbind H.
    destruct (Hrows r (or_introl eq_refl)) as [Hty Hc].
    cbn [map sumZ fold_right] in *.
    fold (sumZ (map (fun r => Z.abs (val r)) rows)) in Hb.
    fold (sumZ (map val rows)).
    pose proof (sumZ_abs_nonneg val rows) as Hpos.
    destruct (bucketStep_total _ _ _ _ E) as (Hstep & Hadd & _).
    rewrite Hsum, (maybeAdd_integer S (val r)) in Hadd
      by (assumption || lia).
    specialize (Hadd (integer_not_NaN r (val r) Hc ltac:(lia)) eq_refl).
    injection Hadd as Hadd.
    rewrite (IH x acc' (S + val r) H
               (fun r' Hr' => Hrows r' (or_intror Hr')) (eq_sym Hadd)
               ltac:(lia)).
    replace (S + val r + sumZ (map val rows))
      with (S + (val r + sumZ (map val rows))) by lia.
    rewrite Hstep. now destruct (total acc).
Qed.

(** X8.  For a request all of whose rows are no status rows and carry
    integers the sum of whose magnitudes is below [2 ^ 53], the grand
    total is posted with the exact sum of the integers as its [sum], and
    with that sum divided by the number of rows, rounded once, as its
    [avg]. *)
Theorem integer_total_sum_and_mean :
  forall array_sort,
  (forall cmp l, Permutation (array_sort cmp l) l) ->
  forall mocked copy tx evs (val : Row -> Z),
  summarize array_sort mocked copy tx = Ok evs ->
  copy <> [] ->
  (forall r, In r copy ->
     columnType r <> "status" /\ ToNumber (column r) = of_Z (val r)) ->
  sumZ (map (fun r => Z.abs (val r)) copy) < 2 ^ 53 ->
  exists result total,
    evs = postResult mocked result tx /\
    obj_get result "total" = Some (JObject total) /\
    obj_get total "sum" = Some (to_string (of_Z (sumZ (map val copy)))) /\
    integer_of (of_Z (sumZ (map val copy))) = Some (sumZ (map val copy)) /\
    obj_get total "avg"
    = Some (to_string (div (of_Z (sumZ (map val copy)))
                           (of_Z (Z.of_nat (List.length copy))))).
Proof.
  intros array_sort Hsort mocked copy tx evs val H Hne Hrows Hbound.
  destruct copy as [|first rest]; [contradiction|].
  apply summarize_trace in H
    as (low & high & acc & bs1 & tot1 & bs2 & tot2 & out & totalOut
        & Hlow & Hhigh & H1 & _ & H2 & H3 & _ & H4 & -> & _ & Hk).
  set (sorted := array_sort compareRows (first :: rest)) in *.
  assert (Hperm : Permutation sorted (first :: rest)) by apply Hsort.
  assert (Hrows' : forall r, In r sorted ->
            columnType r <> "status" /\ ToNumber (column r) = of_Z (val r)).
  { intros r Hin. apply Hrows. eapply Permutation_in; eassumption. }
  rewrite <- (sumZ_map_perm (fun r => Z.abs (val r)) _ _ Hperm) in Hbound.
  rewrite <- (sumZ_map_perm val _ _ Hperm).
  rewrite <- (Permutation_length Hperm).
  assert (Hsmall : forall r, In r sorted -> Z.abs (val r) < 2 ^ 53).
  { intros r Hin. pose proof (sumZ_abs_In val sorted r Hin). lia. }
  assert (Hex : existsb itemIsNaN sorted = false).
  { apply not_true_is_false. intros Hex.
    apply existsb_exists in Hex as (r & Hin & Hr).
    destruct (Hrows' r Hin) as [_ Hc].
    rewrite (integer_not_NaN r (val r) Hc (Hsmall r Hin)) in Hr.
    discriminate. }
  rewrite Hex in H1, H2.
  pose proof (totalLoop_integers val _ _ _ 0 H1 Hrows' eq_refl
                ltac:(simpl Z.abs; lia)) as Htot.
  cbn [total] in Htot. rewrite Z.add_0_l in Htot.
  set (S := sumZ (map val sorted)) in *.
  assert (HS : Z.abs S < 2 ^ 53).
  { pose proof (abs_sumZ_le val sorted). unfold S. lia. }
  cbn [totalMeanMedian] in H2. unbind H2.
  assert (Hmean : x = Stats.set_avg
            (VNum (div (of_Z S) (of_Z (Z.of_nat (List.length sorted)))))
            (total acc)).
  { destruct (calculateMean_cases (total acc) sorted)
      as (avg & Hcalc & _ & _ & _ & Hfin).
    rewrite Hcalc in E. injection E as <-. rewrite Hfin.
    - now rewrite Htot.
    - rewrite Htot. unfold initialTotal. stats_cbn.
      destruct (Hrows' low (item_at_In _ _ _ Hlow)) as [_ ->].
      apply of_Z_finite, Hsmall, (item_at_In _ _ _ Hlow).
    - rewrite Htot. unfold initialTotal. stats_cbn.
      destruct (Hrows' high (item_at_In _ _ _ Hhigh)) as [_ ->].
      apply of_Z_finite, Hsmall, (item_at_In _ _ _ Hhigh). }
  apply calculateMedian_only in H2.
  destruct (varianceLoop_only _ _ _ _ _ H3) as [_ [Hsame _]].
  destruct (stringify_fields _ _ _ H4) as (F1 & F2 & _).
  unfold totalStdev in F1, F2. stats_cbn.
  rewrite Hsame, H2, Hmean in F1, F2. stats_cbn.
  rewrite Htot in F1. stats_cbn.
  eexists _, _. split; [reflexivity|].
  split; [apply resultObject_total; exact Hk|].
  rewrite !obj_get_delete. cbn [String.eqb Ascii.eqb Bool.eqb].
  split; [exact (fieldText_VNum _ _ _ F1)|].
  split; [now apply integer_of_of_Z|].
  exact (fieldText_VNum _ _ _ F2).
Qed.

Lemma integer_total_sum_and_mean_witness :
  (forall cmp l, Permutation (stableSort cmp l) l) /\
  summarize stableSort false smallRows (VStr "t1") = Ok smallEvents /\
  smallRows <> [] /\
  (forall r, In r smallRows ->
     columnType r <> "status" /\ ToNumber (column r) = of_Z (smallValue r)) /\
  sumZ (map (fun r => Z.abs (smallValue r)) smallRows) < 2 ^ 53 /\
  exists result total,
    smallEvents = postResult false result (VStr "t1") /\
    obj_get result "total" = Some (JObject total) /\
    obj_get total "sum"
    = Some (to_string (of_Z (sumZ (map smallValue smallRows)))) /\
    integer_of (of_Z (sumZ (map smallValue smallRows)))
    = Some (sumZ (map smallValue smallRows)) /\
    obj_get total "avg"
    = Some (to_string (div (of_Z (sumZ (map smallValue smallRows)))
                           (of_Z (Z.of_nat (List.length smallRows))))).
Proof.
  assert (H1 : forall cmp l, Permutation (stableSort cmp l) l)
    by exact stableSort_perm.
  assert (H2 : summarize stableSort false smallRows (VStr "t1")
               = Ok smallEvents) by (vm_compute; reflexivity).
  assert (H3 : smallRows <> []) by discriminate.
  assert (H4 : forall r, In r smallRows ->
            columnType r <> "status" /\
            ToNumber (column r) = of_Z (smallValue r)).
  { intros r [<-|[<-|[]]]; (split; [discriminate|vm_compute; reflexivity]). }
  assert (H5 : sumZ (map (fun r => Z.abs (smallValue r)) smallRows) < 2 ^ 53)
    by (vm_compute; reflexivity).
  repeat (split; [assumption|]).
  exact (integer_total_sum_and_mean stableSort H1 false smallRows (VStr "t1")
           smallEvents smallValue H2 H3 H4 H5).
Defined.


(* ================================================================= *)
(** * Invariants of one bucket *)

(** Poisoning is only ever added. *)
Lemma bucketStep_info t acc r acc' :
  bucketStep t acc r = Ok acc' ->
  (itemIsNaN r = false -> bucketNaNInfo acc' = bucketNaNInfo acc) /\
  (itemIsNaN r = true -> forall key, fallsInto key r = true ->
     shouldSkipBucket (bucketNaNInfo acc') key = true).
Proof.
  intros H. split; intros Hnan.
  - apply (bucketStep_skipped _ _ _ _ Hnan H).
  - intros key Hf. rewrite bucketStep_NaN in H by assumption.
    injection H as <-. cbn [bucketNaNInfo]. unfold shouldSkipBucket.
    rewrite !obj_get_set. unfold fallsInto in Hf.
    destruct (String.eqb (totalKey r) key); [reflexivity|].
    destruct (String.eqb (bucketKey r) key); [reflexivity|discriminate].
Qed.

Section KeyInvariant.

(** A property [P seen b] of the accumulator [b] of the bucket [key] after
    the rows [seen], which a fresh accumulator has, every contribution of
    a row of the bucket keeps, and the other rows do not touch. *)
Variable key : string.
Variable P : list Row -> Stats.t -> Prop.
Variable ok : Row -> Prop.

Hypothesis P_new : forall seen title,
  filter (fallsInto key) seen = [] -> P seen (newBucket title).
Hypothesis P_contribute : forall seen r b b',
  fallsInto key r = true -> ok r ->
  P seen b -> contribute r b = Ok b' -> P (seen ++ [r]) b'.
Hypothesis P_again : forall seen r b b',
  fallsInto key r = true -> ok r -> bucketKey r = totalKey r ->
  P (seen ++ [r]) b -> contribute r b = Ok b' -> P (seen ++ [r]) b'.
Hypothesis P_other : forall seen r b,
  fallsInto key r = false -> P seen b -> P (seen ++ [r]) b.

Lemma bucketStep_keyInvariant t acc r acc' seen :
  bucketStep t acc r = Ok acc' ->
  (fallsInto key r = true -> ok r) ->
  keyInvariant key P acc seen -> keyInvariant key P acc' (seen ++ [r]).
Proof.
  intros H Hok Inv Hskip'. unfold keyInvariant in Inv.
  destruct (fallsInto key r) eqn:Ef.
  - destruct (bucketStep_info _ _ _ _ H) as [Hinfo Hpoison].
    destruct (itemIsNaN r) eqn:En.
    { rewrite (Hpoison eq_refl key Ef) in Hskip'. discriminate. }
    rewrite (Hinfo eq_refl) in Hskip'. specialize (Inv Hskip').
    destruct (bucketStep_contributes _ _ _ _ key En H Ef Hskip')
      as (b' & -> & [Hc|(Hkeys & b0 & b1 & Hb0 & Hc1 & Hc2)]).
    + unfold bucketOrNew in Hc.
      destruct (obj_get (buckets acc) key) as [b|].
      * exact (P_contribute _ _ _ _ Ef (Hok eq_refl) Inv Hc).
      * exact (P_contribute _ _ _ _ Ef (Hok eq_refl) (P_new _ _ Inv) Hc).
    + rewrite Hb0 in Inv.
      apply (P_again _ _ b1 _ Ef (Hok eq_refl) Hkeys); [|exact Hc2].
      exact (P_contribute _ _ _ _ Ef (Hok eq_refl) Inv Hc1).
  - destruct (bucketStep_frame _ _ _ _ key H Ef) as [Hget Hsk].
    rewrite Hsk in Hskip'. specialize (Inv Hskip'). rewrite Hget.
    destruct (obj_get (buckets acc) key) as [b|].
    + now apply P_other.
    + rewrite filter_app. cbn [filter]. rewrite Ef, Inv. reflexivity.
Qed.

Lemma bucketLoop_keyInvariant t :
  forall rows acc acc' seen,
  foldM (bucketStep t) rows acc = Ok acc' ->
  (forall r, In r rows -> fallsInto key r = true -> ok r) ->
  keyInvariant key P acc seen -> keyInvariant key P acc' (seen ++ rows).
Proof.
  induction rows as [|r rows IH]; intros acc acc' seen H Hok Inv.
  - injection H as <-. now rewrite app_nil_r.
  - cbn [foldM] in H. unbind H.
    replace (seen ++ r :: rows)%list with ((seen ++ [r]) ++ rows)%list
      by (now rewrite <- app_assoc).
    apply (IH _ _ _ H); [intros; apply Hok; [now right|assumption]|].
    apply (bucketStep_keyInvariant _ _ _ _ _ E); [|exact Inv].
    apply Hok. now left.
Qed.

(** The invariant at the end of the loop of the handler. *)
Lemma bucketLoop_key t rows tot0 acc b :
  foldM (bucketStep t) rows (Build_Acc [] [] tot0) = Ok acc ->
  (forall r, In r rows -> fallsInto key r = true -> ok r) ->
  obj_get (buckets acc) key = Some b ->
  shouldSkipBucket (bucketNaNInfo acc) key = false ->
  P rows b.
Proof.
  intros H Hok Hb Hskip.
  pose proof (bucketLoop_keyInvariant t rows _ _ [] H Hok) as Inv.
  unfold keyInvariant in Inv. cbn [app] in Inv. rewrite Hb in Inv.
  apply Inv; [|exact Hskip]. reflexivity.
Qed.

End KeyInvariant.


(* ================================================================= *)
(** * The rows of a bucket *)

Lemma contribute_fields r b b' :
  contribute r b = Ok b' ->
  (exists l, Stats.items b = Some l /\ Stats.items b' = Some (l ++ [r])%list) /\
  Stats.min b'
  = (if isNaN (ToNumber (column r)) then Stats.min b
     else mathStringMin (Stats.min b) (column r)) /\
  Stats.max b'
  = (if isNaN (ToNumber (column r)) then Stats.max b
     else mathStringMax (Stats.max b) (column r)).
Proof.
  unfold contribute, pushItem, js_isNaN. cbn [ToNumber]. intros H.
  unbind_all. destruct (isNaN (ToNumber (column r))); cbn [negb] in H;
    stats_cbn; (destruct (Stats.items b) as [l|]; [|discriminate]);
    injection H as <-; stats_cbn; eauto.
Qed.

Lemma bucketLoop_rows t rows tot0 acc key b :
  foldM (bucketStep t) rows (Build_Acc [] [] tot0) = Ok acc ->
  obj_get (buckets acc) key = Some b ->
  shouldSkipBucket (bucketNaNInfo acc) key = false ->
  (forall r, In r rows -> fallsInto key r = true -> resultType r <> "total") ->
  Stats.items b = Some (filter (fallsInto key) rows).
Proof.
  intros H Hb Hskip Hok.
  apply (bucketLoop_key key
           (fun seen b => Stats.items b = Some (filter (fallsInto key) seen))
           (fun r => resultType r <> "total")) with (5 := H); try assumption.
  - intros seen title ->. reflexivity.
  - intros seen r b0 b' Hf _ Hitems Hc.
    destruct (contribute_fields _ _ _ Hc) as ((l & Hl & ->) & _).
    rewrite Hitems in Hl. injection Hl as <-.
    rewrite filter_app. cbn [filter]. now rewrite Hf.
  - intros seen r b0 b' _ Hrt Hkeys. now apply totalKey_neq in Hrt.
  - intros seen r b0 Hf ->. rewrite filter_app. cbn [filter].
    now rewrite Hf, app_nil_r.
Qed.

(** X9.  After the bucketing loop, the list of rows of a bucket that is
    not poisoned holds exactly the rows that fall into the bucket, in the
    order in which the loop met them, when none of them has the result
    type ["total"]. *)
Theorem bucket_items_are_its_rows :
  forall t rows tot0 acc key b,
  foldM (bucketStep t) rows (Build_Acc [] [] tot0) = Ok acc ->
  obj_get (buckets acc) key = Some b ->
  shouldSkipBucket (bucketNaNInfo acc) key = false ->
  (forall r, In r rows -> fallsInto key r = true -> resultType r <> "total") ->
  Stats.items b = Some (filter (fallsInto key) rows).
Proof. intros t rows tot0 acc key b. apply bucketLoop_rows. Qed.

Lemma bucket_items_are_its_rows_witness :
  foldM (bucketStep false) smallRows (Build_Acc [] [] defaultObj)
  = Ok smallAcc /\
  obj_get (buckets smallAcc) "A-correct" = Some smallBucket /\
  shouldSkipBucket (bucketNaNInfo smallAcc) "A-correct" = false /\
  (forall r, In r smallRows -> fallsInto "A-correct" r = true ->
     resultType r <> "total") /\
  Stats.items smallBucket = Some (filter (fallsInto "A-correct") smallRows).
Proof.
  assert (H1 : foldM (bucketStep false) smallRows (Build_Acc [] [] defaultObj)
               = Ok smallAcc) by (vm_compute; reflexivity).
  assert (H2 : obj_get (buckets smallAcc) "A-correct" = Some smallBucket)
    by reflexivity.
  assert (H3 : shouldSkipBucket (bucketNaNInfo smallAcc) "A-correct" = false)
    by reflexivity.
  assert (H4 : forall r, In r smallRows -> fallsInto "A-correct" r = true ->
            resultType r <> "total").
  { intros r [<-|[<-|[]]] _; discriminate. }
  repeat (split; [assumption|]).
  exact (bucket_items_are_its_rows false smallRows defaultObj smallAcc
           "A-correct" smallBucket H1 H2 H3 H4).
Defined.


(* ================================================================= *)
(** * The bounds of a bucket *)

Lemma ltb_Infinity_l x : ltb Infinity x = false.
Proof. destruct x as [s|s| |s m e]; try reflexivity. now destruct s. Qed.

Lemma ltb_NegInfinity_r x : ltb x NegInfinity = false.
Proof. destruct x as [s|s| |s m e]; try reflexivity; now destruct s. Qed.

Lemma mathStringMin_least a b :
  isNaN (ToNumber a) = false -> isNaN (ToNumber b) = false ->
  (mathStringMin a b = a \/ mathStringMin a b = b) /\
  isNaN (ToNumber (mathStringMin a b)) = false /\
  ltb (ToNumber a) (ToNumber (mathStringMin a b)) = false /\
  ltb (ToNumber b) (ToNumber (mathStringMin a b)) = false.
Proof.
  intros Ha Hb. unfold mathStringMin.
  destruct (ltb (ToNumber a) (ToNumber b)) eqn:E;
    auto using ltb_irrefl, ltb_asym.
Qed.

Lemma mathStringMax_greatest a b :
  isNaN (ToNumber a) = false -> isNaN (ToNumber b) = false ->
  (mathStringMax a b = a \/ mathStringMax a b = b) /\
  isNaN (ToNumber (mathStringMax a b)) = false /\
  ltb (ToNumber (mathStringMax a b)) (ToNumber a) = false /\
  ltb (ToNumber (mathStringMax a b)) (ToNumber b) = false.
Proof.
  intros Ha Hb. unfold mathStringMax.
  change (gtb (ToNumber a) (ToNumber b))
    with (ltb (ToNumber b) (ToNumber a)).
  destruct (ltb (ToNumber b) (ToNumber a)) eqn:E;
    auto using ltb_irrefl, ltb_asym.
Qed.

Lemma withinBounds_ext key S S' b :
  (forall x, In x S <-> In x S') ->
  withinBounds key S b -> withinBounds key S' b.
Proof.
  intros HS (H1 & H2 & H3 & H4). split; [exact H1|]. split; [exact H2|].
  split.
  - intros r Hin. apply H3, HS, Hin.
  - destruct H4 as [(Hm & HM & Hall)|(low & high & L1 & L2 & L3 & G1 & G2 & G3 & Hm & HM)].
    + left. repeat split; try assumption. intros r Hin. apply Hall, HS, Hin.
    + right. exists low, high. rewrite <- !HS. auto 10.
Qed.

Lemma withinBounds_other key S r b :
  fallsInto key r = false ->
  withinBounds key S b -> withinBounds key (S ++ [r]) b.
Proof.
  intros Hf (H1 & H2 & H3 & H4). split; [exact H1|]. split; [exact H2|].
  split.
  - intros r' Hin Hf'. apply in_app_or in Hin as [Hin|[<-|[]]];
      [now apply H3|congruence].
  - destruct H4 as [(Hm & HM & Hall)|(low & high & L1 & L2 & L3 & G1 & G2 & G3 & Hm & HM)].
    + left. repeat split; try assumption.
      intros r' Hin Hf'. apply in_app_or in Hin as [Hin|[<-|[]]];
        [now apply Hall|congruence].
    + right. exists low, high. rewrite !in_app_iff. auto 12.
Qed.

Lemma withinBounds_contribute key S r b b' :
  fallsInto key r = true ->
  withinBounds key S b -> contribute r b = Ok b' ->
  withinBounds key (S ++ [r]) b'.
Proof.
  intros Hf (H1 & H2 & H3 & H4) Hc.
  destruct (contribute_fields _ _ _ Hc) as (_ & Hmin & Hmax).
  unfold withinBounds. rewrite Hmin, Hmax.
  destruct (isNaN (ToNumber (column r))) eqn:En.
  - split; [exact H1|]. split; [exact H2|]. split.
    + intros r' Hin Hf'. apply in_app_or in Hin as [Hin|[<-|[]]];
        [now apply H3|congruence].
    + destruct H4 as [(Hm & HM & Hall)|(low & high & L1 & L2 & L3 & G1 & G2 & G3 & Hm & HM)].
      * left. repeat split; try assumption.
        intros r' Hin Hf'. apply in_app_or in Hin as [Hin|[<-|[]]];
          [now apply Hall|assumption].
      * right. exists low, high. rewrite !in_app_iff. auto 12.
  - destruct (mathStringMin_least _ _ H1 En) as (Smin & Nmin & Lmin & Lcol).
    destruct (mathStringMax_greatest _ _ H2 En) as (Smax & Nmax & Gmax & Gcol).
    split; [exact Nmin|]. split; [exact Nmax|]. split.
    + intros r' Hin Hf' Hn'. apply in_app_or in Hin as [Hin|[<-|[]]].
      * destruct (H3 r' Hin Hf' Hn') as [Hlo Hhi]. split.
        -- exact (not_gt_trans _ _ _ H1 Lmin Hlo).
        -- exact (not_gt_trans _ _ _ H2 Hhi Gmax).
      * auto.
    + right.
      assert (Hr : In r (S ++ [r])) by (apply in_or_app; right; now left).
      destruct H4 as [(Hm & HM & Hall)|(low & high & L1 & L2 & L3 & G1 & G2 & G3 & Hm & HM)].
      * exists r, r. repeat split; try assumption.
        -- unfold mathStringMin. rewrite Hm.
           change (ToNumber (VStr "Infinity")) with Infinity.
           now rewrite ltb_Infinity_l.
        -- unfold mathStringMax, gtb. rewrite HM.
           change (ToNumber (VStr "-Infinity")) with NegInfinity.
           change (SFltb (ToNumber (column r)) NegInfinity)
             with (ltb (ToNumber (column r)) NegInfinity).
           now rewrite ltb_NegInfinity_r.
      * assert (HL : In low (S ++ [r])) by (apply in_or_app; now left).
        assert (HG : In high (S ++ [r])) by (apply in_or_app; now left).
        destruct Smin as [->| ->], Smax as [->| ->];
          [ exists low, high | exists low, r | exists r, high | exists r, r ];
          repeat split; assumption.
Qed.

Lemma bucketLoop_bounds t rows tot0 acc key b :
  foldM (bucketStep t) rows (Build_Acc [] [] tot0) = Ok acc ->
  obj_get (buckets acc) key = Some b ->
  shouldSkipBucket (bucketNaNInfo acc) key = false ->
  withinBounds key rows b.
Proof.
  intros H Hb Hskip.
  apply (bucketLoop_key key (withinBounds key) (fun _ => True))
    with (5 := H); try assumption; try (intros; exact I).
  - intros seen title Hnone. unfold withinBounds, newBucket. stats_cbn.
    assert (Hno : forall r, In r seen -> fallsInto key r = true -> False).
    { intros r Hin Hf.
      assert (Hr : In r (filter (fallsInto key) seen))
        by (apply filter_In; auto).
      rewrite Hnone in Hr. destruct Hr. }
    split; [reflexivity|]. split; [reflexivity|]. split.
    + intros r Hin Hf. destruct (Hno r Hin Hf).
    + left. split; [reflexivity|]. split; [reflexivity|].
      intros r Hin Hf. destruct (Hno r Hin Hf).
  - intros seen r b0 b' Hf _. now apply withinBounds_contribute.
  - intros seen r b0 b' Hf _ _ Hin Hc.
    apply (withinBounds_ext key ((seen ++ [r]) ++ [r])).
    + intros x. rewrite !in_app_iff. tauto.
    + now apply (withinBounds_contribute key _ r b0).
  - intros seen r b0 Hf. now apply withinBounds_other.
Qed.

(** X10.  After the bucketing loop, the [min] and the [max] of a bucket
    that is not poisoned bound the rows of the bucket that read as
    numbers: no such row reads below [min] or above [max].  Both are the
    values of such rows, as the rows hold them; when the bucket has no
    such row, they are still ["Infinity"] and ["-Infinity"]. *)
Theorem bucket_bounds_are_extremes :
  forall t rows tot0 acc key b,
  foldM (bucketStep t) rows (Build_Acc [] [] tot0) = Ok acc ->
  obj_get (buckets acc) key = Some b ->
  shouldSkipBucket (bucketNaNInfo acc) key = false ->
  withinBounds key rows b.
Proof. intros t rows tot0 acc key b. apply bucketLoop_bounds. Qed.

Lemma bucket_bounds_are_extremes_witness :
  foldM (bucketStep false) smallRows (Build_Acc [] [] defaultObj)
  = Ok smallAcc /\
  obj_get (buckets smallAcc) "A-correct" = Some smallBucket /\
  shouldSkipBucket (bucketNaNInfo smallAcc) "A-correct" = false /\
  withinBounds "A-correct" smallRows smallBucket.
Proof.
  assert (H1 : foldM (bucketStep false) smallRows (Build_Acc [] [] defaultObj)
               = Ok smallAcc) by (vm_compute; reflexivity).
  assert (H2 : obj_get (buckets smallAcc) "A-correct" = Some smallBucket)
    by reflexivity.
  assert (H3 : shouldSkipBucket (bucketNaNInfo smallAcc) "A-correct" = false)
    by reflexivity.
  split; [exact H1|]. split; [exact H2|]. split; [exact H3|].
  exact (bucket_bounds_are_extremes false smallRows defaultObj smallAcc
           "A-correct" smallBucket H1 H2 H3).
Defined.


(* ================================================================= *)
(** * From the rows of a bucket to its posted mean and median *)

(** A bucket into which no poisoning row falls is never poisoned. *)
Lemma bucketLoop_clean t key :
  forall rows acc acc',
  foldM (bucketStep t) rows acc = Ok acc' ->
  (forall r, In r rows -> fallsInto key r = true -> itemIsNaN r = false) ->
  shouldSkipBucket (bucketNaNInfo acc) key = false ->
  shouldSkipBucket (bucketNaNInfo acc') key = false.
Proof.
  induction rows as [|r rows IH]; intros acc acc' H Hrows Hskip.
  - now injection H as <-.
  - cbn [foldM] in H. unbind H.
    apply (IH _ _ H); [intros; apply Hrows; [now right|assumption]|].
    destruct (fallsInto key r) eqn:Ef.
    + destruct (bucketStep_info _ _ _ _ E) as [Hinfo _].
      now rewrite (Hinfo (Hrows r (or_introl eq_refl) Ef)).
    + destruct (bucketStep_frame _ _ _ _ key E Ef) as [_ ->]. exact Hskip.
Qed.

(** What is posted for a bucket that is not poisoned: the texts of its
    [sum], [avg], [max], [median] and [min]. *)
Lemma serializeStep_public info tot k v out :
  shouldSkipBucket info k = false ->
  serializeStep info tot (k, v) = Ok (k, out) ->
  fieldText (Stats.sum v) out "sum" /\
  fieldText (Stats.avg v) out "avg" /\
  fieldText (Stats.max v) out "max" /\
  fieldText (Stats.median v) out "median" /\
  fieldText (Stats.min v) out "min".
Proof.
  unfold serializeStep. intros -> H.
  destruct (Stats.items v); [|discriminate]. unbind_all.
  destruct (stringify_fields _ _ _ E) as (F1 & F2 & F3 & F4 & F5 & _).
  stats_cbn.
  repeat split; repeat apply fieldText_delete; auto; discriminate.
Qed.

(** The way of a bucket that is not poisoned through the passes that
    follow the bucketing loop. *)
Lemma summarize_bucket array_sort mocked first rest tx evs :
  summarize array_sort mocked (first :: rest) tx = Ok evs ->
  exists low high acc result,
    foldM (bucketStep (existsb itemIsNaN
                         (array_sort compareRows (first :: rest))))
      (array_sort compareRows (first :: rest))
      (Build_Acc [] [] (initialTotal low high))
    = Ok acc /\
    evs = postResult mocked result tx /\
    forall key b,
      obj_get (buckets acc) key = Some b ->
      shouldSkipBucket (bucketNaNInfo acc) key = false ->
      exists b1 stats,
        meanMedianStep (bucketNaNInfo acc) (key, b) = Ok (key, b1) /\
        obj_get result key = Some (JObject stats) /\
        fieldText (Stats.sum b1) stats "sum" /\
        fieldText (Stats.avg b1) stats "avg" /\
        fieldText (Stats.max b1) stats "max" /\
        fieldText (Stats.median b1) stats "median" /\
        fieldText (Stats.min b1) stats "min".
Proof.
  intros H.
  apply summarize_trace in H
    as (low & high & acc & bs1 & tot1 & bs2 & tot2 & out & totalOut
        & _ & _ & H1 & H2 & _ & H3 & H4 & _ & -> & Hu & _).
  exists low, high, acc. eexists. split; [exact H1|]. split; [reflexivity|].
  intros key b Hb Hskip.
  destruct (mapM_get _ (meanMedianStep_key _) _ _ _ _ H2 Hb)
    as (b1 & Hstep1 & Hb1).
  destruct (varianceLoop_only _ _ _ _ _ H3) as [R _].
  specialize (R key). rewrite Hb1 in R. destruct R as (b2 & Hb2 & Hsame & _).
  destruct (mapM_get _ (serializeStep_key _ _) _ _ _ _ H4 Hb2)
    as (stats & Hstep & Hstats).
  destruct (serializeStep_public _ _ _ _ _ Hskip Hstep)
    as (F1 & F2 & F3 & F4 & F5).
  rewrite Hsame in F1, F2, F3, F4, F5. stats_cbn.
  exists b1, stats. split; [exact Hstep1|].
  split; [now apply resultObject_bucket|]. auto.
Qed.

(** A bucket into which rows fall, none of which poisons, exists at the
    end of the loop and is not poisoned. *)
Lemma bucketLoop_exists t rows tot0 acc key :
  foldM (bucketStep t) rows (Build_Acc [] [] tot0) = Ok acc ->
  (forall r, In r rows -> fallsInto key r = true -> itemIsNaN r = false) ->
  filter (fallsInto key) rows <> [] ->
  shouldSkipBucket (bucketNaNInfo acc) key = false /\
  exists b, obj_get (buckets acc) key = Some b.
Proof.
  intros H Hrows Hne. split.
  - apply (bucketLoop_clean _ key _ _ _ H Hrows). reflexivity.
  - destruct (obj_get (buckets acc) key) as [b|] eqn:Eb; [eauto|].
    exfalso. apply (bucketLoop_keys _ key _ _ _ H); [|exact Eb].
    right. destruct (filter (fallsInto key) rows) as [|r l] eqn:Ef;
      [contradiction|].
    assert (Hr : In r (filter (fallsInto key) rows))
      by (rewrite Ef; now left).
    apply filter_In in Hr. eauto.
Qed.

(** X11.  For a bucket whose rows do not poison it and have a result type
    other than ["total"], the posted [median] is the text of the median of
    the rows of the bucket, taken in the order in which the sort has left
    them: the value of the middle row as the row holds it when their
    number is odd, half the sum of the two middle values when it is
    even. *)
Theorem posted_median_of_bucket :
  forall array_sort,
  (forall cmp l, Permutation (array_sort cmp l) l) ->
  forall mocked copy tx evs key d,
  summarize array_sort mocked copy tx = Ok evs ->
  (forall r, In r copy -> fallsInto key r = true ->
     resultType r <> "total" /\ itemIsNaN r = false) ->
  filter (fallsInto key) copy <> [] ->
  exists result stats,
    evs = postResult mocked result tx /\
    obj_get result key = Some (JObject stats) /\
    fieldText
      (medianOf (filter (fallsInto key) (array_sort compareRows copy)) d)
      stats "median".
Proof.
  intros array_sort Hsort mocked copy tx evs key d H Hrows Hne.
  destruct copy as [|first rest]; [now elim Hne|].
  apply summarize_bucket in H as (low & high & acc & result & H1 & -> & Hres).
  set (sorted := array_sort compareRows (first :: rest)) in *.
  assert (Hperm : Permutation sorted (first :: rest)) by apply Hsort.
  assert (Hrows' : forall r, In r sorted -> fallsInto key r = true ->
            resultType r <> "total" /\ itemIsNaN r = false).
  { intros r Hin. apply Hrows. eapply Permutation_in; eassumption. }
  apply (filter_perm_nonempty _ _ _ (Permutation_sym Hperm)) in Hne.
  destruct (bucketLoop_exists _ _ _ _ key H1) as (Hskip & b & Hb);
    [intros r Hin Hf; apply (Hrows' r Hin Hf)|exact Hne|].
  pose proof (bucketLoop_rows _ _ _ _ key b H1 Hb Hskip
                (fun r Hin Hf => proj1 (Hrows' r Hin Hf))) as Hitems.
  destruct (Hres key b Hb Hskip)
    as (b1 & stats & Hstep & Hstats & _ & _ & _ & Fmed & _).
  destruct (meanMedianStep_median _ key b _ d Hskip Hitems Hne)
    as (b1' & Hstep' & Hmed).
  rewrite Hstep in Hstep'. injection Hstep' as <-.
  exists result, stats. split; [reflexivity|]. split; [exact Hstats|].
  unfold medianOf. now rewrite <- Hmed.
Qed.

Lemma posted_median_of_bucket_witness :
  (forall cmp l, Permutation (stableSort cmp l) l) /\
  summarize stableSort false smallRows (VStr "t1") = Ok smallEvents /\
  (forall r, In r smallRows -> fallsInto "A-correct" r = true ->
     resultType r <> "total" /\ itemIsNaN r = false) /\
  filter (fallsInto "A-correct") smallRows <> [] /\
  exists result stats,
    smallEvents = postResult false result (VStr "t1") /\
    obj_get result "A-correct" = Some (JObject stats) /\
    fieldText
      (medianOf
         (filter (fallsInto "A-correct") (stableSort compareRows smallRows))
         blankRow)
      stats "median".
Proof.
  assert (H1 : forall cmp l, Permutation (stableSort cmp l) l)
    by exact stableSort_perm.
  assert (H2 : summarize stableSort false smallRows (VStr "t1")
               = Ok smallEvents) by (vm_compute; reflexivity).
  assert (H3 : forall r, In r smallRows -> fallsInto "A-correct" r = true ->
            resultType r <> "total" /\ itemIsNaN r = false).
  { intros r [<-|[<-|[]]] _; (split; [discriminate|vm_compute; reflexivity]). }
  assert (H4 : filter (fallsInto "A-correct") smallRows <> [])
    by (vm_compute; discriminate).
  repeat (split; [assumption|]).
  exact (posted_median_of_bucket stableSort H1 false smallRows (VStr "t1")
           smallEvents "A-correct" blankRow H2 H3 H4).
Defined.


(** X12.  For a bucket all of whose rows are no status rows, have a result
    type other than ["total"] and carry integers the sum of whose
    magnitudes is below [2 ^ 53], the posted [avg] is the text of the exact
    sum of the integers divided by the number of rows of the bucket,
    rounded once. *)
Theorem posted_mean_of_integer_bucket :
  forall array_sort,
  (forall cmp l, Permutation (array_sort cmp l) l) ->
  forall mocked copy tx evs key (val : Row -> Z),
  summarize array_sort mocked copy tx = Ok evs ->
  (forall r, In r copy -> fallsInto key r = true ->
     resultType r <> "total" /\ columnType r <> "status" /\
     ToNumber (column r) = of_Z (val r)) ->
  filter (fallsInto key) copy <> [] ->
  sumZ (map (fun r => Z.abs (val r)) (filter (fallsInto key) copy)) < 2 ^ 53 ->
  exists result stats,
    evs = postResult mocked result tx /\
    obj_get result key = Some (JObject stats) /\
    obj_get stats "avg"
    = Some (to_string
              (div (of_Z (sumZ (map val (filter (fallsInto key) copy))))
                   (of_Z (Z.of_nat
                            (List.length (filter (fallsInto key) copy)))))).
Proof.
  intros array_sort Hsort mocked copy tx evs key val H Hrows Hne Hbound.
  destruct copy as [|first rest]; [now elim Hne|].
  apply summarize_bucket in H as (low & high & acc & result & H1 & -> & Hres).
  set (sorted := array_sort compareRows (first :: rest)) in *.
  assert (Hperm : Permutation sorted (first :: rest)) by apply Hsort.
  assert (Hrows' : forall r, In r sorted -> fallsInto key r = true ->
            resultType r <> "total" /\ columnType r <> "status" /\
            ToNumber (column r) = of_Z (val r)).
  { intros r Hin. apply Hrows. eapply Permutation_in; eassumption. }
  rewrite <- (sumZ_filter_perm (fun r => Z.abs (val r)) _ _ _ Hperm) in Hbound.
  rewrite <- (sumZ_filter_perm val _ _ _ Hperm).
  rewrite <- (filter_length_perm _ _ _ Hperm).
  apply (filter_perm_nonempty _ _ _ (Permutation_sym Hperm)) in Hne.
  assert (Hsmall : forall r, In r sorted -> fallsInto key r = true ->
            Z.abs (val r) < 2 ^ 53).
  { intros r Hin Hf.
    pose proof (sumZ_abs_In val (filter (fallsInto key) sorted) r) as Hle.
    rewrite filter_In in Hle. specialize (Hle (conj Hin Hf)). lia. }
  assert (Hclean : forall r, In r sorted -> fallsInto key r = true ->
            itemIsNaN r = false).
  { intros r Hin Hf. destruct (Hrows' r Hin Hf) as (_ & _ & Hc).
    exact (integer_not_NaN r (val r) Hc (Hsmall r Hin Hf)). }
  destruct (bucketLoop_exists _ _ _ _ key H1 Hclean Hne) as (Hskip & b & Hb).
  pose proof (bucketLoop_rows _ _ _ _ key b H1 Hb Hskip
                (fun r Hin Hf => proj1 (Hrows' r Hin Hf))) as Hitems.
  destruct (bucketLoop_integers _ key val _ _ _ 0 H1 Hrows')
    as (_ & Hsum & _); [reflexivity|reflexivity|simpl Z.abs; lia|].
  rewrite Z.add_0_l in Hsum. unfold sumAt in Hsum. rewrite Hb in Hsum.
  destruct (bucketLoop_bounds _ _ _ _ key b H1 Hb Hskip)
    as (_ & _ & _ & Hext).
  assert (Hfin : ToNumber (Stats.min b) <> NegInfinity /\
                 ToNumber (Stats.max b) <> Infinity).
  { destruct Hext as [(-> & -> & _)|(lo & hi & L1 & L2 & _ & G1 & G2 & _ & -> & ->)].
    - split; discriminate.
    - destruct (Hrows' lo L1 L2) as (_ & _ & ->).
      destruct (Hrows' hi G1 G2) as (_ & _ & ->).
      split; apply of_Z_finite; auto. }
  destruct (Hres key b Hb Hskip)
    as (b1 & stats & Hstep & Hstats & _ & Favg & _).
  destruct (meanMedianStep_mean _ key b _ Hskip Hitems Hne)
    as (b1' & Hstep' & _ & _ & _ & Hmean).
  rewrite Hstep in Hstep'. injection Hstep' as <-.
  rewrite (Hmean (proj1 Hfin) (proj2 Hfin)), Hsum in Favg.
  exists result, stats. split; [reflexivity|]. split; [exact Hstats|].
  exact (fieldText_VNum _ _ _ Favg).
Qed.

Lemma posted_mean_of_integer_bucket_witness :
  (forall cmp l, Permutation (stableSort cmp l) l) /\
  summarize stableSort false smallRows (VStr "t1") = Ok smallEvents /\
  (forall r, In r smallRows -> fallsInto "A-correct" r = true ->
     resultType r <> "total" /\ columnType r <> "status" /\
     ToNumber (column r) = of_Z (smallValue r)) /\
  filter (fallsInto "A-correct") smallRows <> [] /\
  sumZ (map (fun r => Z.abs (smallValue r))
          (filter (fallsInto "A-correct") smallRows)) < 2 ^ 53 /\
  exists result stats,
    smallEvents = postResult false result (VStr "t1") /\
    obj_get result "A-correct" = Some (JObject stats) /\
    obj_get stats "avg"
    = Some (to_string
              (div (of_Z (sumZ (map smallValue
                                  (filter (fallsInto "A-correct") smallRows))))
                   (of_Z (Z.of_nat
                            (List.length
                               (filter (fallsInto "A-correct") smallRows)))))).
Proof.
  assert (H1 : forall cmp l, Permutation (stableSort cmp l) l)
    by exact stableSort_perm.
  assert (H2 : summarize stableSort false smallRows (VStr "t1")
               = Ok smallEvents) by (vm_compute; reflexivity).
  assert (H3 : forall r, In r smallRows -> fallsInto "A-correct" r = true ->
            resultType r <> "total" /\ columnType r <> "status" /\
            ToNumber (column r) = of_Z (smallValue r)).
  { intros r [<-|[<-|[]]] _;
      (split; [discriminate|split; [discriminate|vm_compute; reflexivity]]). }
  assert (H4 : filter (fallsInto "A-correct") smallRows <> [])
    by (vm_compute; discriminate).
  assert (H5 : sumZ (map (fun r => Z.abs (smallValue r))
                       (filter (fallsInto "A-correct") smallRows)) < 2 ^ 53)
    by (vm_compute; reflexivity).
  repeat (split; [assumption|]).
  exact (posted_mean_of_integer_bucket stableSort H1 false smallRows
           (VStr "t1") smallEvents "A-correct" smallValue H2 H3 H4 H5).
Defined.


(* ================================================================= *)
(** * Rows whose result type is the word total *)

(** X13.  A row whose result type is ["total"] has one key for its bucket
    and for the total of its category.  When that bucket exists and is not
    poisoned, the row contributes to it twice in one iteration: its value
    is added twice and the row is listed twice. *)
Theorem total_row_counts_twice :
  forall t acc r acc' b0,
  bucketStep t acc r = Ok acc' ->
  resultType r = "total" ->
  itemIsNaN r = false ->
  obj_get (buckets acc) (totalKey r) = Some b0 ->
  shouldSkipBucket (bucketNaNInfo acc) (totalKey r) = false ->
  exists b1 b' l,
    contribute r b0 = Ok b1 /\ contribute r b1 = Ok b' /\
    obj_get (buckets acc') (totalKey r) = Some b' /\
    Stats.items b0 = Some l /\ Stats.items b' = Some (l ++ [r; r])%list.
Proof.
  intros t acc r acc' b0 H Hrt Hnan Hb Hskip.
  assert (Heq : bucketKey r = totalKey r)
    by (unfold bucketKey, totalKey; now rewrite Hrt).
  rewrite <- Heq in *.
  destruct (bucketStep_aliased _ _ _ _ _ Hnan H Heq Hb Hskip)
    as (b1 & b' & H1 & H2 & H3).
  destruct (contribute_fields _ _ _ H1) as ((l & Hl & Hl1) & _).
  destruct (contribute_fields _ _ _ H2) as ((l1 & Hl1' & Hl2) & _).
  rewrite Hl1 in Hl1'. injection Hl1' as <-.
  exists b1, b', l. repeat split; try assumption.
  now rewrite Hl2, <- app_assoc.
Qed.

Lemma total_row_counts_twice_witness :
  bucketStep false afterTotalRow (totalRow "3") = Ok afterTotalRows /\
  resultType (totalRow "3") = "total" /\
  itemIsNaN (totalRow "3") = false /\
  obj_get (buckets afterTotalRow) (totalKey (totalRow "3"))
  = Some (Stats.set_sum (VNum (of_Z 1))
            (Stats.set_min (VStr "1")
               (Stats.set_max (VStr "1")
                  (Stats.set_items (Some [totalRow "1"])
                     (newBucket "cputime"))))) /\
  shouldSkipBucket (bucketNaNInfo afterTotalRow) (totalKey (totalRow "3"))
  = false /\
  exists b',
    obj_get (buckets afterTotalRows) (totalKey (totalRow "3")) = Some b' /\
    Stats.sum b' = VNum (of_Z 7) /\
    Stats.items b' = Some [totalRow "1"; totalRow "3"; totalRow "3"].
Proof.
  assert (H1 : bucketStep false afterTotalRow (totalRow "3")
               = Ok afterTotalRows) by (vm_compute; reflexivity).
  assert (H2 : resultType (totalRow "3") = "total") by reflexivity.
  assert (H3 : itemIsNaN (totalRow "3") = false) by (vm_compute; reflexivity).
  assert (H4 : obj_get (buckets afterTotalRow) (totalKey (totalRow "3"))
               = Some (Stats.set_sum (VNum (of_Z 1))
                         (Stats.set_min (VStr "1")
                            (Stats.set_max (VStr "1")
                               (Stats.set_items (Some [totalRow "1"])
                                  (newBucket "cputime"))))))
    by (vm_compute; reflexivity).
  assert (H5 : shouldSkipBucket (bucketNaNInfo afterTotalRow)
                 (totalKey (totalRow "3")) = false)
    by (vm_compute; reflexivity).
  repeat (split; [assumption|]).
  destruct (total_row_counts_twice false afterTotalRow (totalRow "3")
              afterTotalRows _ H1 H2 H3 H4 H5)
    as (b1 & b' & l & C1 & C2 & Hb' & Hl & Hitems).
  exists b'. split; [exact Hb'|].
  vm_compute in Hl. injection Hl as <-.
  vm_compute in C1. injection C1 as <-.
  vm_compute in C2. injection C2 as <-.
  split; reflexivity.
Defined.


(* ================================================================= *)
(** * The variance loop *)

Lemma set_variance_twice v w b :
  Stats.set_variance v (Stats.set_variance w b) = Stats.set_variance v b.
Proof. reflexivity. Qed.

Lemma varianceStep_bucket bs tot r bs' tot' key b :
  varianceStep (bs, tot) r = Ok (bs', tot') ->
  obj_get bs key = Some b ->
  (fallsInto key r = true -> resultType r <> "total") ->
  obj_get bs' key
  = Some (if numericIn key r then
            Stats.set_variance
              (js_plus (Stats.variance b)
                 (VNum (pow2 (sub (ToNumber (column r))
                                  (ToNumber (Stats.avg b))))))
              b
          else b) /\
  tot'
  = (if readsAsNumber r then
       Stats.set_variance
         (js_plus (Stats.variance tot)
            (VNum (pow2 (sub (ToNumber (column r))
                             (ToNumber (Stats.avg tot))))))
         tot
     else tot).
Proof.
  unfold varianceStep, numericIn, readsAsNumber. intros H Hb Hrt.
  destruct (js_isNaN (VNum (ToNumber (column r)))); cbn [negb].
  { injection H as <- <-. now rewrite andb_false_r. }
  rewrite andb_true_r.
  destruct (obj_get bs (bucketKey r)) as [b0|] eqn:Eb; [|discriminate].
  destruct (obj_get bs (totalKey r)) as [s0|] eqn:Es; [|discriminate].
  injection H as <- <-. split; [|reflexivity].
  rewrite !obj_get_set. unfold fallsInto in *.
  destruct (String.eqb_spec (totalKey r) key) as [Et|Et].
  - rewrite orb_true_r in *. specialize (Hrt eq_refl).
    apply totalKey_neq in Hrt. apply String.eqb_neq in Hrt.
    rewrite Hrt, Es. subst key. rewrite Es in Hb. now injection Hb as <-.
  - rewrite orb_false_r in *.
    destruct (String.eqb_spec (bucketKey r) key) as [Ek|Ek].
    + subst key. rewrite Eb in Hb. now injection Hb as <-.
    + exact Hb.
Qed.

Lemma varianceLoop_bucket key :
  forall rows bs tot bs' tot' b,
  foldM varianceStep rows (bs, tot) = Ok (bs', tot') ->
  obj_get bs key = Some b ->
  (forall r, In r rows -> fallsInto key r = true -> resultType r <> "total") ->
  obj_get bs' key
  = Some (Stats.set_variance
            (squaredDeviations (Stats.avg b) (filter (numericIn key) rows)
               (Stats.variance b))
            b) /\
  tot'
  = Stats.set_variance
      (squaredDeviations (Stats.avg tot) (filter readsAsNumber rows)
         (Stats.variance tot))
      tot.
Proof.
  induction rows as [|r rows IH]; intros bs tot bs' tot' b H Hb Hrt.
  - injection H as <- <-. cbn [filter squaredDeviations fold_left].
    rewrite Hb. split; [now destruct b|now destruct tot].
  - cbn [foldM] in H. unbind H. destruct x as [bs1 tot1].
    destruct (varianceStep_bucket _ _ _ _ _ key b E Hb)
      as [Hb1 Htot1]; [apply Hrt; now left|].
    destruct (IH _ _ _ _ _ H Hb1) as [Hb' Htot'];
      [intros; apply Hrt; [now right|assumption]|].
    split.
    + rewrite Hb'. cbn [filter].
      destruct (numericIn key r); [|reflexivity].
      now rewrite set_variance_twice.
    + rewrite Htot', Htot1. cbn [filter].
      destruct (readsAsNumber r); [|reflexivity].
      now rewrite set_variance_twice.
Qed.

(** X14.  The variance loop writes nothing but [variance].  To the
    [variance] of a bucket it adds, row after row, the squared deviation
    from the bucket's [avg] of every row of the bucket that reads as a
    number, when none of these rows has the result type ["total"]; to the
    [variance] of the grand total it adds the squared deviations of all
    such rows from the [avg] of the grand total. *)
Theorem variance_sums_squared_deviations :
  forall rows bs tot bs' tot' key b,
  foldM varianceStep rows (bs, tot) = Ok (bs', tot') ->
  obj_get bs key = Some b ->
  (forall r, In r rows -> fallsInto key r = true -> resultType r <> "total") ->
  obj_get bs' key
  = Some (Stats.set_variance
            (squaredDeviations (Stats.avg b) (filter (numericIn key) rows)
               (Stats.variance b))
            b) /\
  tot'
  = Stats.set_variance
      (squaredDeviations (Stats.avg tot) (filter readsAsNumber rows)
         (Stats.variance tot))
      tot.
Proof. intros rows bs tot bs' tot' key b. apply varianceLoop_bucket. Qed.

Lemma variance_sums_squared_deviations_witness :
  foldM varianceStep smallRows (fst smallMeans, snd smallMeans)
  = Ok (fst smallVariances, snd smallVariances) /\
  obj_get (fst smallMeans) "A-correct"
  = Some (Stats.set_median (VNum (of_Z 2))
            (Stats.set_avg (VNum (of_Z 2)) smallBucket)) /\
  (forall r, In r smallRows -> fallsInto "A-correct" r = true ->
     resultType r <> "total") /\
  exists b',
    obj_get (fst smallVariances) "A-correct" = Some b' /\
    Stats.variance b' = VNum (of_Z 2) /\
    Stats.variance (snd smallVariances) = VNum (of_Z 2).
Proof.
  assert (H1 : foldM varianceStep smallRows (fst smallMeans, snd smallMeans)
               = Ok (fst smallVariances, snd smallVariances))
    by (vm_compute; reflexivity).
  assert (H2 : obj_get (fst smallMeans) "A-correct"
               = Some (Stats.set_median (VNum (of_Z 2))
                         (Stats.set_avg (VNum (of_Z 2)) smallBucket)))
    by reflexivity.
  assert (H3 : forall r, In r smallRows -> fallsInto "A-correct" r = true ->
            resultType r <> "total").
  { intros r [<-|[<-|[]]] _; discriminate. }
  repeat (split; [assumption|]).
  destruct (variance_sums_squared_deviations smallRows _ _ _ _ "A-correct" _
              H1 H2 H3) as [Hb Htot].
  eexists. split; [exact Hb|]. split.
  - vm_compute. reflexivity.
  - rewrite Htot. vm_compute. reflexivity.
Defined.


(* ================================================================= *)
(** * The exception of [safeAdd] *)

(** X15.  [safeAdd] throws a RangeError when neither operand reads as an
    integer and the second is a text with more than 100 characters after
    its decimal point (after its start, when it holds no point): the
    number of digits it asks of [toFixed] is then above 100. *)
Theorem safeAdd_long_fraction_throws :
  forall a s,
  hasText a ->
  isInteger (ToNumber a) = false ->
  isInteger (of_string s) = false ->
  100 < Z.of_nat (String.length s) - indexOf_dot s - 1 ->
  safeAdd a (VStr s) = Throw RangeError.
Proof.
  intros a s [t Ht] Ha Hs Hlen. unfold safeAdd.
  destruct a as [| |x|u]; try discriminate; cbn [ToNumber] in Ha;
    cbn [Number_isInteger ToNumber toString bind]; rewrite Ha, Hs;
    cbn [orb]; unfold toFixed;
    match goal with
    | |- context [?f <? 0] =>
        replace (100 <? f) with true by (symmetry; apply Z.ltb_lt; lia)
    end;
    now rewrite orb_true_r.
Qed.

Lemma safeAdd_long_fraction_throws_witness :
  hasText (VNum (of_string "0.5")) /\
  isInteger (ToNumber (VNum (of_string "0.5"))) = false /\
  isInteger (of_string longFraction) = false /\
  100 < Z.of_nat (String.length longFraction) - indexOf_dot longFraction - 1 /\
  safeAdd (VNum (of_string "0.5")) (VStr longFraction) = Throw RangeError.
Proof.
  assert (H1 : hasText (VNum (of_string "0.5"))) by (eexists; reflexivity).
  assert (H2 : isInteger (ToNumber (VNum (of_string "0.5"))) = false)
    by (vm_compute; reflexivity).
  assert (H3 : isInteger (of_string longFraction) = false)
    by (vm_compute; reflexivity).
  assert (H4 : 100 < Z.of_nat (String.length longFraction)
                     - indexOf_dot longFraction - 1)
    by (vm_compute; reflexivity).
  repeat (split; [assumption|]).
  exact (safeAdd_long_fraction_throws (VNum (of_string "0.5")) longFraction
           H1 H2 H3 H4).
Defined.


(* ================================================================= *)
(** * The exceptions of the handler *)

Lemma toFixed_error x f e : toFixed x f = Throw e -> e = RangeError.
Proof.
  unfold toFixed. destruct ((f <? 0) || (100 <? f)); [now intros [= <-]|].
  destruct x as [s|s| |s m e']; try discriminate.
  destruct (_ <=? _); discriminate.
Qed.

Lemma hasText_VNum n : hasText (VNum n).
Proof. eexists; reflexivity. Qed.

Lemma hasText_VStr s : hasText (VStr s).
Proof. eexists; reflexivity. Qed.

(** [maybeAdd] on values that can be turned into text returns such a
    value, or throws the RangeError of [toFixed]. *)
Lemma maybeAdd_outcome a b type :
  hasText a -> hasText b ->
  (exists s, maybeAdd a b type = Ok s /\ hasText s) \/
  (maybeAdd a b type = Throw RangeError /\
   truthy (ToNumber b) = true /\ isInteger (ToNumber b) = false).
Proof.
  intros Ha Hb. unfold maybeAdd.
  destruct (truthy (ToNumber b)) eqn:Et.
  - unfold safeAdd.
    destruct a as [| |x|u]; try (destruct Ha; discriminate);
      destruct b as [| |y|v]; try (destruct Hb; discriminate);
      cbn [Number_isInteger ToNumber js_plus toString bind] in *;
      match goal with
      | |- context [isInteger ?p || isInteger ?q] =>
          destruct (isInteger p); cbn [orb];
            [left; eexists; split; [reflexivity|apply hasText_VNum]|];
          destruct (isInteger q) eqn:Eq;
            [left; eexists; split; [reflexivity|apply hasText_VNum]|]
      end;
      match goal with
      | |- context [toFixed ?p ?q] =>
          destruct (toFixed p q) as [s|e] eqn:Ef;
            [ left; eexists; split; [reflexivity|apply hasText_VNum]
            | right; apply toFixed_error in Ef; subst e; auto ]
      end.
  - left. destruct (String.eqb type "status"); eexists;
      (split; [reflexivity|]); [apply hasText_plus|exact Ha].
Qed.

Lemma bucketOrNew_wellFormed acc k title :
  wellFormedAcc acc ->
  wellFormed (bucketNaNInfo acc) k (bucketOrNew (buckets acc) k title).
Proof.
  intros [Hwf _]. unfold bucketOrNew.
  destruct (obj_get (buckets acc) k) as [b|] eqn:Eb; [now apply Hwf|].
  split.
  - repeat split; (apply hasText_VNum || apply hasText_VStr).
  - intros _. exists []. split; [reflexivity|constructor].
Qed.

Lemma bind_bind {A B C} (m : result A) (f : A -> result B)
    (k : B -> result C) :
  bind (bind m f) k = bind m (fun a => bind (f a) k).
Proof. now destruct m. Qed.


Ltac outcome_step Hcol :=
  first
    [ rewrite bind_bind
    | match goal with
      | |- answersUnless _ (bind (maybeAdd ?a ?b ?ty) _) =>
          let s := fresh "s" in
          let E := fresh "E" in
          let Hs := fresh "Hs" in
          let Hn := fresh "Hn" in
          destruct (maybeAdd_outcome a b ty) as [(s & E & Hs)|(E & Hn)];
            [ assumption | exact Hcol
            | rewrite E; cbn [bind]
            | rewrite E; cbn [bind]; right; split; [reflexivity|exact Hn] ]
      | |- answersUnless _ (bind (pushItem _ _) _) => unfold pushItem at 1
      | H : Stats.items ?b = Some _ |- context [Stats.items ?b] => rewrite H
      | |- answersUnless _ (Ok _) => left; eexists; reflexivity
      end
    | progress (cbn [bind negb]; locals_cbn; stats_cbn) ].

(** One iteration of the bucketing loop, on a well-formed state and a row
    whose value can be turned into text, returns or throws the RangeError
    of [toFixed]; the latter only on a row that reads as a fraction. *)
Lemma bucketStep_outcome t acc r :
  wellFormedAcc acc -> hasText (column r) ->
  answersUnless (readsAsFraction r) (bucketStep t acc r).
Proof.
  intros Hwf Hcol.
  destruct (itemIsNaN r) eqn:Hnan.
  { rewrite bucketStep_NaN by assumption. left. eexists; reflexivity. }
  unfold bucketStep. rewrite Hnan.
  fold (bucketOrNew (buckets acc) (bucketKey r) (columnTitle r)).
  fold (bucketOrNew (buckets acc) (totalKey r) (columnTitle r)).
  destruct (bucketOrNew_wellFormed acc (bucketKey r) (columnTitle r) Hwf)
    as [(HB & _) HBi].
  destruct (bucketOrNew_wellFormed acc (totalKey r) (columnTitle r) Hwf)
    as [(HS & _) HSi].
  destruct Hwf as [_ (HT & _)].
  set (B0 := bucketOrNew (buckets acc) (bucketKey r) (columnTitle r)) in *.
  set (S0 := bucketOrNew (buckets acc) (totalKey r) (columnTitle r)) in *.
  assert (HT' : hasText
            (Stats.sum (if noTitle (Stats.title (total acc))
                        then Stats.set_title (Some (columnTitle r)) (total acc)
                        else total acc)))
    by (now destruct (noTitle _)).
  set (T0 := if noTitle (Stats.title (total acc))
             then Stats.set_title (Some (columnTitle r)) (total acc)
             else total acc) in *.
  clearbody B0 S0 T0.
  destruct (shouldSkipBucket (bucketNaNInfo acc) (bucketKey r));
    destruct (shouldSkipBucket (bucketNaNInfo acc) (totalKey r));
    try (destruct (HBi eq_refl) as (lB & HlB & _));
    try (destruct (HSi eq_refl) as (lS & HlS & _));
    clear HBi HSi;
    destruct (String.eqb (bucketKey r) (totalKey r) &&
              match obj_get (buckets acc) (bucketKey r) with
              | Some _ => true
              | None => false
              end);
    destruct t;
    destruct (negb (js_isNaN (VNum (ToNumber (column r)))));
    repeat outcome_step Hcol.
Qed.

Lemma maybeAdd_hasText a b type s :
  hasText a -> hasText b -> maybeAdd a b type = Ok s -> hasText s.
Proof.
  intros Ha Hb H.
  destruct (maybeAdd_outcome a b type Ha Hb) as [(s' & E & Hs)|(E & _)];
    rewrite E in H; [now injection H as <-|discriminate].
Qed.

Lemma mathString_hasText a b :
  hasText a -> hasText b ->
  hasText (mathStringMin a b) /\ hasText (mathStringMax a b).
Proof.
  intros Ha Hb. unfold mathStringMin, mathStringMax.
  destruct (ltb _ _), (gtb _ _); auto.
Qed.

Lemma contribute_wellFormed r b b' :
  contribute r b = Ok b' ->
  hasText (column r) -> textFields b ->
  (exists l, Stats.items b = Some l /\ textRows l) ->
  textFields b' /\ exists l, Stats.items b' = Some l /\ textRows l.
Proof.
  unfold contribute, pushItem. intros H Hcol (T1&T2&T3&T4&T5&T6&T7) (l&Hl&Hrows).
  unbind_all. apply (maybeAdd_hasText _ _ _ _ T1 Hcol) in E.
  destruct (mathString_hasText _ _ T5 Hcol) as [Hmin _].
  destruct (mathString_hasText _ _ T3 Hcol) as [_ Hmax].
  destruct (negb (js_isNaN (VNum (ToNumber (column r))))); stats_cbn;
    rewrite Hl in H; injection H as <-; unfold textFields; stats_cbn;
    (split; [auto 10|]); eexists; (split; [reflexivity|]);
    apply Forall_app; (split; [assumption|]); now constructor.
Qed.

Lemma nanBucket_textFields title : textFields (nanBucket title).
Proof. repeat split; apply hasText_VStr. Qed.

(** An iteration of the bucketing loop keeps the state well formed. *)
Lemma bucketStep_wellFormed t acc r acc' :
  bucketStep t acc r = Ok acc' ->
  wellFormedAcc acc -> hasText (column r) -> wellFormedAcc acc'.
Proof.
  intros H Hwf Hcol. split.
  - intros k b' Hb'. destruct (fallsInto k r) eqn:Ef.
    + destruct (bucketStep_info _ _ _ _ H) as [Hinfo Hpoison].
      destruct (itemIsNaN r) eqn:En.
      * split; [|now rewrite (Hpoison eq_refl k Ef)].
        rewrite bucketStep_NaN in H by assumption. injection H as <-.
        cbn [buckets] in Hb'. rewrite !obj_get_set in Hb'.
        unfold fallsInto in Ef.
        destruct (String.eqb (totalKey r) k);
          [injection Hb' as <-; apply nanBucket_textFields|].
        destruct (String.eqb (bucketKey r) k); [|discriminate].
        injection Hb' as <-. apply nanBucket_textFields.
      * rewrite (Hinfo eq_refl).
        destruct (shouldSkipBucket (bucketNaNInfo acc) k) eqn:Es.
        -- destruct (bucketStep_skipped _ _ _ _ En H)
             as (_ & b & s & Hbs & Hb & Hs).
           rewrite Hbs, !obj_get_set in Hb'. unfold fallsInto in Ef.
           pose proof (bucketOrNew_wellFormed acc k (columnTitle r) Hwf)
             as [Htext _].
           split; [|intros Hx; rewrite Es in Hx; discriminate].
           destruct (String.eqb_spec (totalKey r) k) as [Et|Et].
           ++ subst k. injection Hb' as <-. now rewrite (Hs Es).
           ++ destruct (String.eqb_spec (bucketKey r) k) as [Ek|Ek];
                [|discriminate].
              subst k. injection Hb' as <-. now rewrite (Hb Es).
        -- destruct (bucketStep_contributes _ _ _ _ k En H Ef Es)
             as (b'' & Hb'' & Hc).
           rewrite Hb'' in Hb'. injection Hb' as <-.
           assert (Hgoal : textFields b'' /\
                     exists l, Stats.items b'' = Some l /\ textRows l).
           { destruct Hc as [Hc|(_ & b0 & b1 & Hb0 & Hc1 & Hc2)].
             - destruct (bucketOrNew_wellFormed acc k (columnTitle r) Hwf)
                 as [Htext Hitems].
               exact (contribute_wellFormed _ _ _ Hc Hcol Htext (Hitems Es)).
             - destruct (proj1 Hwf k b0 Hb0) as [Htext Hitems].
               destruct (contribute_wellFormed _ _ _ Hc1 Hcol Htext
                           (Hitems Es)) as [Htext1 Hitems1].
               exact (contribute_wellFormed _ _ _ Hc2 Hcol Htext1 Hitems1). }
           split; [apply Hgoal|intros _; apply Hgoal].
    + destruct (bucketStep_frame _ _ _ _ k H Ef) as [Hget Hsk].
      rewrite Hget in Hb'. unfold wellFormed. rewrite Hsk.
      now apply (proj1 Hwf).
  - destruct Hwf as [_ (T1&T2&T3&T4&T5&T6&T7)].
    destruct (bucketStep_total _ _ _ _ H) as (Heq & Hadd & Hsame).
    assert (Hsum : hasText (Stats.sum (total acc'))).
    { destruct (itemIsNaN r) eqn:En; [rewrite Hsame; auto|].
      destruct t; [rewrite Hsame; auto|].
      exact (maybeAdd_hasText _ _ _ _ T1 Hcol (Hadd eq_refl eq_refl)). }
    rewrite Heq. unfold textFields. stats_cbn. auto 10.
Qed.

(** The bucketing loop on rows whose values can be turned into text. *)
Lemma bucketLoop_outcome t :
  forall rows acc,
  wellFormedAcc acc -> textRows rows ->
  (exists acc', foldM (bucketStep t) rows acc = Ok acc' /\
                wellFormedAcc acc') \/
  (foldM (bucketStep t) rows acc = Throw RangeError /\
   exists r, In r rows /\ readsAsFraction r).
Proof.
  induction rows as [|r rows IH]; intros acc Hwf Hrows.
  - left. exists acc. split; [reflexivity|exact Hwf].
  - apply Forall_cons_iff in Hrows as [Hcol Hrows]. cbn [foldM].
    destruct (bucketStep_outcome t acc r Hwf Hcol) as [(acc1 & E)|(E & Hr)].
    + rewrite E. cbn [bind].
      destruct (IH acc1 (bucketStep_wellFormed _ _ _ _ E Hwf Hcol) Hrows)
        as [Hok|(E' & r' & Hin & Hr')]; [now left|].
      right. split; [exact E'|]. exists r'. split; [now right|exact Hr'].
    + rewrite E. right. split; [reflexivity|].
      exists r. split; [now left|exact Hr].
Qed.


(** ** The passes after the bucketing loop never throw *)

Lemma mapM_ok_keys {A B} (f : string * A -> result (string * B)) :
  forall l, uniqueKeys l ->
  (forall k v, obj_get l k = Some v -> exists y, f (k, v) = Ok y) ->
  exists l', mapM f l = Ok l'.
Proof.
  induction l as [|[k0 v0] l IH]; intros Hu Hf; [now exists []|].
  cbn [mapM]. destruct (Hf k0 v0) as (y & ->).
  { cbn [obj_get]. now rewrite String.eqb_refl. }
  apply NoDup_cons_iff in Hu as [Hnotin Hu].
  destruct (IH Hu) as (l' & ->).
  - intros k v Hk. apply Hf. cbn [obj_get].
    destruct (String.eqb_spec k0 k) as [->|Hne]; [|exact Hk].
    exfalso. apply Hnotin. apply obj_get_In in Hk.
    apply (in_map fst) in Hk. exact Hk.
  - cbn [bind]. eauto.
Qed.

Lemma mapM_get_inv {A B} (f : string * A -> result (string * B)) :
  (forall x y, f x = Ok y -> fst y = fst x) ->
  forall l l' k w, mapM f l = Ok l' -> obj_get l' k = Some w ->
  exists v, obj_get l k = Some v /\ f (k, v) = Ok (k, w).
Proof.
  intros Hf l; induction l as [|[k0 v0] l IH]; intros l' k w H Hk.
  - injection H as <-. discriminate.
  - cbn [mapM] in H. unbind_all. destruct x as [k1 w1].
    pose proof (Hf _ _ E) as Hk1. cbn [fst] in Hk1. subst k1.
    cbn [obj_get] in *. destruct (String.eqb_spec k0 k) as [->|Hne].
    + injection Hk as <-. eauto.
    + eauto.
Qed.

Lemma calculateMean_text v items w :
  calculateMean v items = Ok w -> hasText (Stats.avg w).
Proof.
  unfold calculateMean. intros H.
  repeat match type of H with
         | (if ?c then _ else _) = _ => destruct c
         | match ?c with _ => _ end = _ => destruct c
         end; try discriminate; injection H as <-; stats_cbn;
    (apply hasText_VStr || apply hasText_VNum).
Qed.

Lemma calculateMedian_text v l w :
  calculateMedian v (Some l) = Ok w -> textRows l ->
  hasText (Stats.median w).
Proof.
  unfold calculateMedian, textRows. intros H Hrows.
  destruct (_ =? 0); unbind_all; stats_cbn; [apply hasText_VNum|].
  apply item_at_In in E. rewrite Forall_forall in Hrows. auto.
Qed.

Lemma meanMedianStep_text info k v w :
  meanMedianStep info (k, v) = Ok (k, w) ->
  wellFormed info k v -> wellFormed info k w.
Proof.
  unfold meanMedianStep. intros H [(T1&T2&T3&T4&T5&T6&T7) Hitems].
  destruct (shouldSkipBucket info k) eqn:Es.
  { injection H as <-. split; [repeat split; assumption|].
    intros Hx. rewrite Es in Hx. discriminate. }
  destruct (Hitems eq_refl) as (l & Hl & Hrows).
  unbind_all.
  pose proof (calculateMean_text _ _ _ E) as Havg.
  apply calculateMean_only in E.
  assert (Hl' : Stats.items x = Some l) by (rewrite E; exact Hl).
  rewrite Hl' in E0.
  pose proof (calculateMedian_text _ _ _ E0 Hrows) as Hmed.
  apply calculateMedian_only in E0.
  split.
  - rewrite E0. unfold textFields. stats_cbn. rewrite E. stats_cbn. auto 10.
  - intros _. exists l. split; [|exact Hrows].
    rewrite E0. stats_cbn. exact Hl'.
Qed.

Lemma meanMedianStep_ok info k v :
  wellFormed info k v ->
  (shouldSkipBucket info k = false ->
   exists l, Stats.items v = Some l /\ l <> []) ->
  exists y, meanMedianStep info (k, v) = Ok y.
Proof.
  intros _ Hitems. destruct (shouldSkipBucket info k) eqn:Es.
  - rewrite meanMedianStep_poisoned by assumption. eauto.
  - destruct (Hitems eq_refl) as (l & Hl & Hne).
    destruct (meanMedianStep_median info k v l blankRow Es Hl Hne)
      as (w & -> & _).
    eauto.
Qed.

Lemma totalMeanMedian_ok t tot rows :
  rows <> [] -> textRows rows -> textFields tot ->
  exists tot1, totalMeanMedian t tot rows = Ok tot1 /\ textFields tot1.
Proof.
  intros Hne Hrows (T1&T2&T3&T4&T5&T6&T7). unfold totalMeanMedian.
  destruct t.
  - eexists. split; [reflexivity|]. repeat split; apply hasText_VStr.
  - destruct (calculateMean_cases tot rows) as (avg & E & _).
    rewrite E. cbn [bind].
    rewrite (calculateMedian_items _ rows blankRow Hne).
    eexists. split; [reflexivity|].
    pose proof (calculateMean_text _ _ _ E) as Havg. stats_cbn.
    assert (Hmed : hasText
              (if Nat.even (List.length rows) then
                 VNum (div (add (ToNumber (column (nth (List.length rows / 2 - 1)
                                                     rows blankRow)))
                                (ToNumber (column (nth (List.length rows / 2)
                                                     rows blankRow))))
                           (of_Z 2))
               else column (nth (List.length rows / 2) rows blankRow))).
    { destruct (Nat.even _); [apply hasText_VNum|].
      unfold textRows in Hrows. rewrite Forall_forall in Hrows.
      apply Hrows, nth_In.
      destruct rows; [contradiction|]. cbn [List.length].
      apply Nat.div_lt; lia. }
    unfold textFields. stats_cbn. auto 10.
Qed.

Lemma varianceLoop_ok :
  forall rows bs tot,
  (forall r, In r rows ->
     obj_get bs (bucketKey r) <> None /\ obj_get bs (totalKey r) <> None) ->
  exists bs' tot', foldM varianceStep rows (bs, tot) = Ok (bs', tot').
Proof.
  induction rows as [|r rows IH]; intros bs tot Hkeys;
    [now exists bs, tot|].
  cbn [foldM].
  assert (Hstep : exists bs1 tot1, varianceStep (bs, tot) r = Ok (bs1, tot1)).
  { unfold varianceStep. destruct (js_isNaN _); [now exists bs, tot|].
    destruct (Hkeys r (or_introl eq_refl)) as [Hb Hs].
    destruct (obj_get bs (bucketKey r)); [|contradiction].
    destruct (obj_get bs (totalKey r)); [|contradiction].
    eauto. }
  destruct Hstep as (bs1 & tot1 & E). rewrite E. cbn [bind].
  apply IH. intros r' Hin.
  destruct (varianceStep_only _ _ _ _ _ E) as [R _].
  rewrite <- !(related_keys _ _ _ _ R). apply Hkeys. now right.
Qed.

Lemma stringify_ok itemsFirst b :
  textFields b -> exists out, stringify itemsFirst b = Ok out.
Proof.
  intros ((s1&E1)&(s2&E2)&(s3&E3)&(s4&E4)&(s5&E5)&(s6&E6)&(s7&E7)).
  unfold stringify. rewrite E1, E2, E3, E4, E5, E6, E7. cbn [bind]. eauto.
Qed.

Lemma serializeStep_ok info tot k v :
  wellFormed info k v ->
  exists out, serializeStep info tot (k, v) = Ok (k, out).
Proof.
  intros [Htext Hitems]. unfold serializeStep.
  destruct (shouldSkipBucket info k).
  - destruct (stringify_ok false v Htext) as (out & ->). cbn [bind]. eauto.
  - destruct (Hitems eq_refl) as (l & -> & _).
    destruct (stringify_ok false
                (Stats.set_stdev
                   (calculateStdev (eqb (ToNumber (Stats.min v)) NegInfinity)
                      (eqb (ToNumber (Stats.max tot)) Infinity)
                      (Stats.variance v) (Z.of_nat (List.length l))) v))
      as (out & ->).
    + destruct Htext as (T1&T2&T3&T4&T5&T6&T7).
      unfold textFields. stats_cbn. repeat split; try assumption.
      unfold calculateStdev.
      destruct (_ && _); [apply hasText_VStr|].
      destruct (_ || _); apply hasText_VNum.
    + cbn [bind]. eauto.
Qed.


Lemma wellFormed_variance info k v w :
  sameButVariance v w -> wellFormed info k v -> wellFormed info k w.
Proof.
  intros [Heq Htext] [(T1&T2&T3&T4&T5&T6&T7) Hitems].
  specialize (Htext T7). rewrite Heq. split.
  - unfold textFields. stats_cbn. auto 10.
  - intros Hs. destruct (Hitems Hs) as (l & Hl & Hrows).
    exists l. now stats_cbn.
Qed.

Lemma textFields_variance v w :
  sameButVariance v w -> textFields v -> textFields w.
Proof.
  intros [Heq Htext] (T1&T2&T3&T4&T5&T6&T7).
  specialize (Htext T7). rewrite Heq. unfold textFields. stats_cbn. auto 10.
Qed.

Lemma textFields_stdev tot n : textFields tot -> textFields (totalStdev tot n).
Proof.
  intros (T1&T2&T3&T4&T5&T6&T7). unfold totalStdev, textFields. stats_cbn.
  repeat split; try assumption. unfold calculateStdev.
  destruct (_ && _); [apply hasText_VStr|].
  destruct (_ || _); apply hasText_VNum.
Qed.

(** The handler on rows whose values can be turned into text: it posts a
    message, or it throws the RangeError of [toFixed], and this only when
    some row reads as a fraction. *)
Lemma summarize_outcome array_sort mocked copy tx :
  (forall cmp l, Permutation (array_sort cmp l) l) ->
  textRows copy ->
  answersUnless (exists r, In r copy /\ readsAsFraction r)
    (summarize array_sort mocked copy tx).
Proof.
  intros Hsort Hcopy.
  destruct copy as [|first rest]; [left; eexists; reflexivity|].
  unfold summarize.
  set (sorted := array_sort compareRows (first :: rest)).
  assert (Hperm : Permutation sorted (first :: rest)) by apply Hsort.
  assert (Hrows : textRows sorted)
    by (eapply Permutation_Forall; [apply Permutation_sym, Hperm|exact Hcopy]).
  assert (Hne : sorted <> []).
  { intros E. rewrite E in Hperm. now apply Permutation_nil in Hperm. }
  assert (Hlen : (0 < List.length sorted)%nat)
    by (destruct sorted; [contradiction|cbn; lia]).
  replace (Z.of_nat (List.length sorted) - 1)
    with (Z.of_nat (List.length sorted - 1)) by lia.
  rewrite (item_at_nth sorted _ blankRow) by lia. cbn [bind].
  change 0 with (Z.of_nat 0).
  rewrite (item_at_nth sorted _ blankRow) by lia. cbn [bind hasNaN].
  set (high := nth (List.length sorted - 1) sorted blankRow).
  set (low := nth 0 sorted blankRow).
  assert (Hhigh : hasText (column high)).
  { unfold textRows in Hrows. rewrite Forall_forall in Hrows.
    apply Hrows, nth_In. lia. }
  assert (Hlow : hasText (column low)).
  { unfold textRows in Hrows. rewrite Forall_forall in Hrows.
    apply Hrows, nth_In. lia. }
  set (t := existsb itemIsNaN sorted).
  assert (Hwf0 : wellFormedAcc
            (Build_Acc [] []
               (Stats.set_min (column low)
                  (Stats.set_max (column high)
                     (Stats.set_items (Some []) defaultObj))))).
  { split; [intros k b Hb; discriminate Hb|].
    unfold textFields. stats_cbn.
    repeat split; try assumption; apply hasText_VNum. }
  destruct (bucketLoop_outcome t sorted _ Hwf0 Hrows)
    as [(acc & E & Hwf)|(E & r & Hin & Hr)].
  2:{ rewrite E. right. split; [reflexivity|]. exists r. split; [|exact Hr].
      eapply Permutation_in; eassumption. }
  rewrite E. cbn [bind]. destruct acc as [bs info tot].
  assert (Hu : uniqueKeys bs).
  { change bs with (buckets (Build_Acc bs info tot)).
    eapply bucketLoop_unique; [|exact E]. constructor. }
  destruct (mapM_ok_keys (meanMedianStep info) bs Hu) as (bs1 & E1).
  { intros k v Hk. apply meanMedianStep_ok.
    - exact (proj1 Hwf k v Hk).
    - intros Hs. exact (bucketLoop_items _ _ _ _ E k v Hk Hs). }
  rewrite E1. cbn [bind].
  pose proof (mapM_keys _ (meanMedianStep_key info) _ _ E1) as K1.
  assert (Hwf1 : forall k v, obj_get bs1 k = Some v -> wellFormed info k v).
  { intros k v Hk.
    destruct (mapM_get_inv _ (meanMedianStep_key info) _ _ _ _ E1 Hk)
      as (v0 & Hv0 & Hstep).
    exact (meanMedianStep_text _ _ _ _ Hstep (proj1 Hwf k v0 Hv0)). }
  destruct (totalMeanMedian_ok t tot sorted Hne Hrows (proj2 Hwf))
    as (tot1 & E2 & Ht1).
  unfold totalMeanMedian in E2. rewrite E2. cbn [bind].
  destruct (varianceLoop_ok sorted bs1 tot1) as (bs2 & tot2 & E3).
  { intros r Hin.
    assert (R1 : related sameCore bs bs1).
    { eapply related_mapM; [|exact E1].
      intros; eapply meanMedianStep_core; eauto. }
    rewrite <- !(related_keys _ _ _ _ R1).
    change bs with (buckets (Build_Acc bs info tot)).
    rewrite !(bucketLoop_keys _ _ _ _ _ E). cbn [buckets obj_get].
    unfold fallsInto.
    split; right; exists r; (split; [exact Hin|]);
      rewrite String.eqb_refl; [reflexivity|apply orb_true_r]. }
  rewrite E3. cbn [bind].
  destruct (varianceLoop_only _ _ _ _ _ E3) as [R2 T2].
  fold (totalStdev tot2 (List.length sorted)).
  destruct (mapM_ok_keys
              (serializeStep info (totalStdev tot2 (List.length sorted))) bs2)
    as (out & E4).
  { change bs2 with (fst (bs2, tot2)).
    eapply (foldM_invariant varianceStep (fun st => uniqueKeys (fst st)));
      [intros; eapply varianceStep_unique; eauto| |exact E3].
    cbn [fst]. exact (uniqueKeys_map bs _ K1 Hu). }
  { intros k v Hk.
    destruct (serializeStep_ok info (totalStdev tot2 (List.length sorted)) k v)
      as (o & Ho); [|eauto].
    specialize (R2 k). destruct (obj_get bs1 k) as [v1|] eqn:Ev1.
    - destruct R2 as (w & Hw & Hsame). rewrite Hk in Hw. injection Hw as <-.
      exact (wellFormed_variance _ _ _ _ Hsame (Hwf1 k v1 Ev1)).
    - rewrite Hk in R2. discriminate. }
  rewrite E4. cbn [bind].
  destruct (stringify_ok true (totalStdev tot2 (List.length sorted)))
    as (totalOut & E5).
  { apply textFields_stdev. exact (textFields_variance _ _ T2 Ht1). }
  rewrite E5. cbn [bind]. left. eexists; reflexivity.
Qed.


(** The normalizer does not throw when every row that is no status row
    holds a text. *)
Lemma parse_ok :
  forall l h,
  (forall a, In a l -> columnType (h a) <> "status" ->
     exists s, column (h a) = VStr s) ->
  exists h', parsePythonInfinityValues h l = (h', Ok l).
Proof.
  induction l as [|a0 l IH]; intros h Htext; [now exists h|].
  cbn [parsePythonInfinityValues].
  assert (Hgo : forall h0,
            (forall a, In a l -> columnType (h0 a) <> "status" ->
               exists s, column (h0 a) = VStr s) ->
            exists h',
              (let '(h'', r) := parsePythonInfinityValues h0 l in
               (h'', items <- r ;; Ok (a0 :: items))) = (h', Ok (a0 :: l))).
  { intros h0 H0. destruct (IH h0 H0) as (h' & ->). now exists h'. }
  assert (Htail : forall a, In a l -> columnType (h a) <> "status" ->
            exists s, column (h a) = VStr s)
    by (intros a Ha; apply Htext; now right).
  destruct (String.eqb_spec (columnType (h a0)) "status") as [Ety|Ety];
    [now apply Hgo|].
  destruct (Htext a0 (or_introl eq_refl) Ety) as (s & ->).
  destruct (negb (endsWith s "Inf")); [now apply Hgo|].
  apply Hgo. intros a Ha. unfold store.
  destruct (Nat.eqb a a0); [cbn [column set_column]; eauto|now apply Htail].
Qed.

Lemma filterRows_kept h data a :
  In a (filterRows h data) -> hasText (column (h a)).
Proof.
  induction data as [|[b|] data IH]; cbn [filterRows keep]; [intros []| |exact IH].
  destruct (column (h b)) as [| |n|s] eqn:Eb; try exact IH;
    (intros [<-|Hin]; [rewrite Eb|now apply IH]);
    [apply hasText_VNum|apply hasText_VStr].
Qed.

(** X16.  The rows are those of [Row]: each one carries a string as its
    [columnTitle], and a number, a string, [null] or [undefined] as its
    [column].  When every row of such a request that is no status row holds
    a string as its [column], the handler never throws a TypeError: it posts
    a message, or it throws the RangeError of [toFixed], and this only when
    a row of the request, once normalized, reads as a number that is
    neither zero nor an integer. *)
Theorem handler_throws_no_TypeError :
  forall array_sort,
  (forall cmp l, Permutation (array_sort cmp l) l) ->
  forall mocked h data tx,
  (forall a, In (Some a) data -> columnType (h a) <> "status" ->
     exists s, column (h a) = VStr s) ->
  snd (onmessage array_sort mocked h data tx) <> Throw TypeError /\
  answersUnless
    (exists a, In (Some a) data /\
       readsAsFraction (fst (onmessage array_sort mocked h data tx) a))
    (snd (onmessage array_sort mocked h data tx)).
Proof.
  intros array_sort Hsort mocked h data tx Htext.
  destruct (parse_ok (filterRows h data) h) as (h' & Hp).
  { intros a Ha. apply Htext. now apply filterRows_In in Ha. }
  unfold onmessage. rewrite Hp. cbn [fst snd bind].
  assert (Hrows : textRows (map h' (filterRows h data))).
  { unfold textRows. rewrite Forall_forall. intros r Hr.
    apply in_map_iff in Hr as (a & <- & Ha).
    pose proof (filterRows_kept _ _ _ Ha) as Hk.
    pose proof (parse_keep a _ _ _ _ Hp) as Hkeep. cbn [keep] in Hkeep.
    destruct Hk as (s & Hs).
    destruct (column (h a)); try discriminate;
      destruct (column (h' a)); try discriminate;
      (apply hasText_VNum || apply hasText_VStr). }
  assert (Hout := summarize_outcome array_sort mocked _ tx Hsort Hrows).
  assert (Hgoal : answersUnless
            (exists a, In (Some a) data /\ readsAsFraction (h' a))
            (summarize array_sort mocked (map h' (filterRows h data)) tx)).
  { destruct Hout as [Hok|(E & r & Hr & Hfrac)]; [now left|].
    right. split; [exact E|].
    apply in_map_iff in Hr as (a & <- & Ha).
    exists a. split; [now apply filterRows_In in Ha|exact Hfrac]. }
  split; [|exact Hgoal].
  destruct Hgoal as [(evs & ->)|(-> & _)]; discriminate.
Qed.

Lemma handler_throws_no_TypeError_witness :
  (forall cmp l, Permutation (stableSort cmp l) l) /\
  (forall a, In (Some a) (requestOf mixedRows) ->
     columnType (heapOf mixedRows a) <> "status" ->
     exists s, column (heapOf mixedRows a) = VStr s) /\
  snd (onmessage stableSort false (heapOf mixedRows) (requestOf mixedRows)
         (VStr "t1")) <> Throw TypeError /\
  answersUnless
    (exists a, In (Some a) (requestOf mixedRows) /\
       readsAsFraction
         (fst (onmessage stableSort false (heapOf mixedRows)
                 (requestOf mixedRows) (VStr "t1")) a))
    (snd (onmessage stableSort false (heapOf mixedRows) (requestOf mixedRows)
            (VStr "t1"))).
Proof.
  assert (H1 : forall cmp l, Permutation (stableSort cmp l) l)
    by exact stableSort_perm.
  assert (H2 : forall a, In (Some a) (requestOf mixedRows) ->
            columnType (heapOf mixedRows a) <> "status" ->
            exists s, column (heapOf mixedRows a) = VStr s).
  { intros a [Ha|[Ha|[]]] _; injection Ha as <-; eexists; reflexivity. }
  repeat (split; [assumption|]).
  exact (handler_throws_no_TypeError stableSort H1 false (heapOf mixedRows)
           (requestOf mixedRows) (VStr "t1") H2).
Defined.

(** X17.  The rows are those of [Row]: each one carries a string as its
    [columnTitle].  When every row of such a request is a status row or
    holds a text that does not end in ["Inf"], and none reads as a number
    that is neither zero nor an integer (rows of whole numbers, status rows
    whose values are words), the handler leaves every row as it was and
    posts one message. *)
Theorem whole_numbers_are_always_answered :
  forall array_sort,
  (forall cmp l, Permutation (array_sort cmp l) l) ->
  forall mocked h data tx,
  (forall a, In (Some a) data -> settled h a /\ ~ readsAsFraction (h a)) ->
  exists result,
    onmessage array_sort mocked h data tx
    = (h, Ok (postResult mocked result tx)).
Proof.
  intros array_sort Hsort mocked h data tx Hrows.
  assert (Hp : parsePythonInfinityValues h (filterRows h data)
               = (h, Ok (filterRows h data))).
  { apply parse_settled. intros a Ha. now apply Hrows, (filterRows_In h). }
  unfold onmessage. rewrite Hp. cbn [bind].
  assert (Htext : textRows (map h (filterRows h data))).
  { unfold textRows. rewrite Forall_forall. intros r Hr.
    apply in_map_iff in Hr as (a & <- & Ha).
    exact (filterRows_kept _ _ _ Ha). }
  destruct (summarize_outcome array_sort mocked _ tx Hsort Htext)
    as [(evs & E)|(_ & r & Hr & Hfrac)].
  - rewrite E. destruct (map h (filterRows h data)) as [|first rest].
    + injection E as <-. eexists; reflexivity.
    + apply summarize_nonempty in E as (total & bs & _ & ->).
      eexists; reflexivity.
  - apply in_map_iff in Hr as (a & <- & Ha).
    apply filterRows_In in Ha. now destruct (proj2 (Hrows a Ha)).
Qed.

Lemma whole_numbers_are_always_answered_witness :
  (forall cmp l, Permutation (stableSort cmp l) l) /\
  (forall a, In (Some a) (requestOf mixedWholeRows) ->
     settled (heapOf mixedWholeRows) a /\
     ~ readsAsFraction (heapOf mixedWholeRows a)) /\
  exists result,
    onmessage stableSort false (heapOf mixedWholeRows)
      (requestOf mixedWholeRows) (VStr "t1")
    = (heapOf mixedWholeRows, Ok (postResult false result (VStr "t1"))).
Proof.
  assert (H1 : forall cmp l, Permutation (stableSort cmp l) l)
    by exact stableSort_perm.
  assert (H2 : forall a, In (Some a) (requestOf mixedWholeRows) ->
            settled (heapOf mixedWholeRows) a /\
            ~ readsAsFraction (heapOf mixedWholeRows a)).
  { intros a [Ha|[Ha|[Ha|[]]]]; injection Ha as <-;
      (split; [|intros [Ht Hi]; vm_compute in Ht, Hi; congruence]).
    - left; reflexivity.
    - right; exists "1"; split; reflexivity.
    - right; exists "3"; split; reflexivity. }
  repeat (split; [assumption|]).
  exact (whole_numbers_are_always_answered stableSort H1 false
           (heapOf mixedWholeRows) (requestOf mixedWholeRows) (VStr "t1")
           H2).
Defined.


(* ================================================================= *)
(** * The posted standard deviation *)

Lemma contribute_variance r b b' :
  contribute r b = Ok b' -> Stats.variance b' = Stats.variance b.
Proof.
  unfold contribute, pushItem. intros H. unbind_all.
  destruct (negb (js_isNaN (VNum (ToNumber (column r))))); stats_cbn;
    (destruct (Stats.items b); [|discriminate]); now injection H as <-.
Qed.

(** The bucketing loop leaves the [variance] of a bucket at zero. *)
Lemma bucketLoop_variance t rows tot0 acc key b :
  foldM (bucketStep t) rows (Build_Acc [] [] tot0) = Ok acc ->
  obj_get (buckets acc) key = Some b ->
  shouldSkipBucket (bucketNaNInfo acc) key = false ->
  Stats.variance b = VNum (of_Z 0).
Proof.
  intros H Hb Hskip.
  apply (bucketLoop_key key (fun _ b => Stats.variance b = VNum (of_Z 0))
           (fun _ => True)) with (5 := H); try assumption;
    try (intros; exact I).
  - reflexivity.
  - intros seen r b0 b' _ _ Hv Hc. now rewrite (contribute_variance _ _ _ Hc).
  - intros seen r b0 b' _ _ _ Hv Hc. now rewrite (contribute_variance _ _ _ Hc).
  - auto.
Qed.

(** The bucketing loop leaves the bounds of the grand total alone. *)
Lemma totalLoop_bounds t :
  forall rows acc acc',
  foldM (bucketStep t) rows acc = Ok acc' ->
  Stats.max (total acc') = Stats.max (total acc).
Proof.
  induction rows as [|r rows IH]; intros acc acc' H.
  - now injection H as <-.
  - cbn [foldM] in H. unbind H. rewrite (IH _ _ H).
    destruct (bucketStep_total _ _ _ _ E) as (-> & _). reflexivity.
Qed.

Lemma totalMeanMedian_max t tot rows tot1 :
  totalMeanMedian t tot rows = Ok tot1 ->
  Stats.max tot1 = (if t then VStr "NaN" else Stats.max tot).
Proof.
  unfold totalMeanMedian. destruct t; [now intros [= <-]|].
  intros H. unbind H.
  apply calculateMean_only in E. apply calculateMedian_only in H.
  rewrite H, E. reflexivity.
Qed.

Lemma serializeStep_stdev info tot k v l out :
  shouldSkipBucket info k = false ->
  Stats.items v = Some l ->
  serializeStep info tot (k, v) = Ok (k, out) ->
  fieldText
    (calculateStdev (eqb (ToNumber (Stats.min v)) NegInfinity)
       (eqb (ToNumber (Stats.max tot)) Infinity)
       (Stats.variance v) (Z.of_nat (List.length l)))
    out "stdev".
Proof.
  unfold serializeStep. intros -> -> H. unbind_all.
  destruct (stringify_fields _ _ _ E) as (_ & _ & _ & _ & _ & F6 & _).
  stats_cbn. repeat apply fieldText_delete; auto; discriminate.
Qed.

(** The way of one bucket through the handler. *)
Lemma summarize_bucket_trace array_sort mocked first rest tx evs :
  summarize array_sort mocked (first :: rest) tx = Ok evs ->
  exists low high acc bs1 tot1 bs2 tot2 result,
    foldM (bucketStep (existsb itemIsNaN
                         (array_sort compareRows (first :: rest))))
      (array_sort compareRows (first :: rest))
      (Build_Acc [] [] (initialTotal low high))
    = Ok acc /\
    In high (array_sort compareRows (first :: rest)) /\
    totalMeanMedian
      (existsb itemIsNaN (array_sort compareRows (first :: rest)))
      (total acc) (array_sort compareRows (first :: rest)) = Ok tot1 /\
    foldM varianceStep (array_sort compareRows (first :: rest)) (bs1, tot1)
    = Ok (bs2, tot2) /\
    evs = postResult mocked result tx /\
    forall key b,
      obj_get (buckets acc) key = Some b ->
      exists b1 b2 stats,
        meanMedianStep (bucketNaNInfo acc) (key, b) = Ok (key, b1) /\
        obj_get bs1 key = Some b1 /\
        obj_get bs2 key = Some b2 /\
        serializeStep (bucketNaNInfo acc)
          (totalStdev tot2
             (List.length (array_sort compareRows (first :: rest))))
          (key, b2) = Ok (key, stats) /\
        obj_get result key = Some (JObject stats).
Proof.
  intros H.
  apply summarize_trace in H
    as (low & high & acc & bs1 & tot1 & bs2 & tot2 & out & totalOut
        & _ & Hhigh & H1 & H2 & Ht & H3 & H4 & _ & -> & Hu & _).
  exists low, high, acc, bs1, tot1, bs2, tot2. eexists.
  split; [exact H1|]. split; [exact (item_at_In _ _ _ Hhigh)|].
  split; [exact Ht|]. split; [exact H3|]. split; [reflexivity|].
  intros key b Hb.
  destruct (mapM_get _ (meanMedianStep_key _) _ _ _ _ H2 Hb)
    as (b1 & Hstep1 & Hb1).
  destruct (varianceLoop_only _ _ _ _ _ H3) as [R _].
  specialize (R key). rewrite Hb1 in R. destruct R as (b2 & Hb2 & _).
  destruct (mapM_get _ (serializeStep_key _ _) _ _ _ _ H4 Hb2)
    as (stats & Hstep & Hstats).
  exists b1, b2, stats. repeat split; try assumption.
  now apply resultObject_bucket.
Qed.

(** X18.  For a bucket all of whose rows are no status rows, have a result
    type other than ["total"] and carry integers the sum of whose
    magnitudes is below [2 ^ 53], in a request none of whose rows reads as
    plus infinity, the posted [stdev] is the text of the square root of
    the mean squared deviation: the squared deviations of the rows of the
    bucket from its mean, added in the order in which the sort has left
    the rows, divided by their number. *)
Theorem posted_stdev_of_integer_bucket :
  forall array_sort,
  (forall cmp l, Permutation (array_sort cmp l) l) ->
  forall mocked copy tx evs key (val : Row -> Z),
  summarize array_sort mocked copy tx = Ok evs ->
  (forall r, In r copy -> fallsInto key r = true ->
     resultType r <> "total" /\ columnType r <> "status" /\
     ToNumber (column r) = of_Z (val r)) ->
  filter (fallsInto key) copy <> [] ->
  sumZ (map (fun r => Z.abs (val r)) (filter (fallsInto key) copy)) < 2 ^ 53 ->
  (forall r, In r copy -> ToNumber (column r) <> Infinity) ->
  exists result stats,
    evs = postResult mocked result tx /\
    obj_get result key = Some (JObject stats) /\
    obj_get stats "stdev"
    = Some (to_string
              (sqrt
                 (div (ToNumber
                         (squaredDeviations
                            (VNum (div (of_Z (sumZ (map val
                                          (filter (fallsInto key) copy))))
                                       (of_Z (Z.of_nat (List.length
                                          (filter (fallsInto key) copy))))))
                            (filter (fallsInto key)
                               (array_sort compareRows copy))
                            (VNum (of_Z 0))))
                      (of_Z (Z.of_nat (List.length
                                         (filter (fallsInto key) copy))))))).
Proof.
  intros array_sort Hsort mocked copy tx evs key val H Hrows Hne Hbound Hfin.
  destruct copy as [|first rest]; [now elim Hne|].
  apply summarize_bucket_trace in H
    as (low & high & acc & bs1 & tot1 & bs2 & tot2 & result
        & H1 & Hhigh & Ht & H3 & -> & Hres).
  set (sorted := array_sort compareRows (first :: rest)) in *.
  assert (Hperm : Permutation sorted (first :: rest)) by apply Hsort.
  assert (Hrows' : forall r, In r sorted -> fallsInto key r = true ->
            resultType r <> "total" /\ columnType r <> "status" /\
            ToNumber (column r) = of_Z (val r)).
  { intros r Hin. apply Hrows. eapply Permutation_in; eassumption. }
  rewrite <- (sumZ_filter_perm (fun r => Z.abs (val r)) _ _ _ Hperm) in Hbound.
  rewrite <- (sumZ_filter_perm val _ _ _ Hperm).
  rewrite <- (filter_length_perm _ _ _ Hperm).
  apply (filter_perm_nonempty _ _ _ (Permutation_sym Hperm)) in Hne.
  assert (Hsmall : forall r, In r sorted -> fallsInto key r = true ->
            Z.abs (val r) < 2 ^ 53).
  { intros r Hin Hf.
    pose proof (sumZ_abs_In val (filter (fallsInto key) sorted) r) as Hle.
    rewrite filter_In in Hle. specialize (Hle (conj Hin Hf)). lia. }
  assert (Hclean : forall r, In r sorted -> fallsInto key r = true ->
            itemIsNaN r = false).
  { intros r Hin Hf. destruct (Hrows' r Hin Hf) as (_ & _ & Hc).
    exact (integer_not_NaN r (val r) Hc (Hsmall r Hin Hf)). }
  destruct (bucketLoop_exists _ _ _ _ key H1 Hclean Hne) as (Hskip & b & Hb).
  pose proof (bucketLoop_rows _ _ _ _ key b H1 Hb Hskip
                (fun r Hin Hf => proj1 (Hrows' r Hin Hf))) as Hitems.
  pose proof (bucketLoop_variance _ _ _ _ key b H1 Hb Hskip) as Hvar.
  destruct (bucketLoop_integers _ key val _ _ _ 0 H1 Hrows')
    as (_ & Hsum & _); [reflexivity|reflexivity|simpl Z.abs; lia|].
  rewrite Z.add_0_l in Hsum. unfold sumAt in Hsum. rewrite Hb in Hsum.
  destruct (bucketLoop_bounds _ _ _ _ key b H1 Hb Hskip)
    as (_ & _ & _ & Hext).
  assert (Hbounds : ToNumber (Stats.min b) <> NegInfinity /\
                    ToNumber (Stats.max b) <> Infinity).
  { destruct Hext as [(-> & -> & _)|(lo & hi & L1 & L2 & _ & G1 & G2 & _ & -> & ->)].
    - split; discriminate.
    - destruct (Hrows' lo L1 L2) as (_ & _ & ->).
      destruct (Hrows' hi G1 G2) as (_ & _ & ->).
      split; apply of_Z_finite; auto. }
  destruct (Hres key b Hb) as (b1 & b2 & stats & Hstep & Hb1 & Hb2 & Hser & Hstats).
  destruct (meanMedianStep_mean _ key b _ Hskip Hitems Hne)
    as (b1' & Hstep' & _ & _ & _ & Hmean).
  rewrite Hstep in Hstep'. injection Hstep' as <-.
  specialize (Hmean (proj1 Hbounds) (proj2 Hbounds)). rewrite Hsum in Hmean.
  cbn [ToNumber] in Hmean.
  pose proof (meanMedianStep_only _ _ _ _ Hstep) as Hb1eq.
  unfold sameButMean in Hb1eq.
  destruct (varianceLoop_bucket key _ _ _ _ _ b1 H3 Hb1
              (fun r Hin Hf => proj1 (Hrows' r Hin Hf))) as [Hb2' _].
  rewrite Hb2 in Hb2'. injection Hb2' as Hb2eq.
  assert (Hnum : filter (numericIn key) sorted = filter (fallsInto key) sorted).
  { apply filter_ext_in. intros r Hin. unfold numericIn, readsAsNumber.
    destruct (fallsInto key r) eqn:Ef; [|reflexivity].
    destruct (Hrows' r Hin Ef) as (_ & _ & Hc). unfold js_isNaN.
    cbn [ToNumber]. rewrite Hc, of_Z_not_NaN by (now apply Hsmall).
    reflexivity. }
  assert (Hv1 : Stats.variance b1 = VNum (of_Z 0))
    by (rewrite Hb1eq; exact Hvar).
  assert (Hi2 : Stats.items b2 = Some (filter (fallsInto key) sorted))
    by (rewrite Hb2eq, Hb1eq; exact Hitems).
  pose proof (serializeStep_stdev _ _ _ _ _ _ Hskip Hi2 Hser) as Fstd.
  assert (Hmin2 : Stats.min b2 = Stats.min b)
    by (rewrite Hb2eq, Hb1eq; reflexivity).
  assert (Hmax : ToNumber (Stats.max (totalStdev tot2 (List.length sorted)))
                 <> Infinity).
  { destruct (varianceLoop_only _ _ _ _ _ H3) as [_ [Heq _]].
    unfold totalStdev. stats_cbn. rewrite Heq. stats_cbn.
    rewrite (totalMeanMedian_max _ _ _ _ Ht).
    destruct (existsb itemIsNaN sorted); [discriminate|].
    rewrite (totalLoop_bounds _ _ _ _ H1). cbn [total].
    unfold initialTotal. stats_cbn. apply Hfin.
    eapply Permutation_in; eassumption. }
  rewrite Hmin2 in Fstd.
  rewrite (proj2 (eqb_NegInfinity_false _) (proj1 Hbounds)) in Fstd.
  rewrite (proj2 (eqb_Infinity_false _) Hmax) in Fstd.
  cbn [calculateStdev andb orb] in Fstd.
  rewrite Hb2eq in Fstd. stats_cbn. rewrite Hnum, Hv1, Hmean in Fstd.
  exists result, stats. split; [reflexivity|]. split; [exact Hstats|].
  exact (fieldText_VNum _ _ _ Fstd).
Qed.


Lemma posted_stdev_of_integer_bucket_witness :
  (forall cmp l, Permutation (stableSort cmp l) l) /\
  summarize stableSort false smallRows (VStr "t1") = Ok smallEvents /\
  (forall r, In r smallRows -> fallsInto "A-correct" r = true ->
     resultType r <> "total" /\ columnType r <> "status" /\
     ToNumber (column r) = of_Z (smallValue r)) /\
  filter (fallsInto "A-correct") smallRows <> [] /\
  sumZ (map (fun r => Z.abs (smallValue r))
          (filter (fallsInto "A-correct") smallRows)) < 2 ^ 53 /\
  (forall r, In r smallRows -> ToNumber (column r) <> Infinity) /\
  exists result stats,
    smallEvents = postResult false result (VStr "t1") /\
    obj_get result "A-correct" = Some (JObject stats) /\
    obj_get stats "stdev"
    = Some (to_string
              (sqrt
                 (div (ToNumber
                         (squaredDeviations
                            (VNum (div (of_Z (sumZ (map smallValue
                                          (filter (fallsInto "A-correct")
                                             smallRows))))
                                       (of_Z (Z.of_nat (List.length
                                          (filter (fallsInto "A-correct")
                                             smallRows))))))
                            (filter (fallsInto "A-correct")
                               (stableSort compareRows smallRows))
                            (VNum (of_Z 0))))
                      (of_Z (Z.of_nat (List.length
                                         (filter (fallsInto "A-correct")
                                            smallRows))))))).
Proof.
  assert (H1 : forall cmp l, Permutation (stableSort cmp l) l)
    by exact stableSort_perm.
  assert (H2 : summarize stableSort false smallRows (VStr "t1")
               = Ok smallEvents) by (vm_compute; reflexivity).
  assert (H3 : forall r, In r smallRows -> fallsInto "A-correct" r = true ->
            resultType r <> "total" /\ columnType r <> "status" /\
            ToNumber (column r) = of_Z (smallValue r)).
  { intros r [<-|[<-|[]]] _;
      (split; [discriminate|split; [discriminate|vm_compute; reflexivity]]). }
  assert (H4 : filter (fallsInto "A-correct") smallRows <> [])
    by (vm_compute; discriminate).
  assert (H5 : sumZ (map (fun r => Z.abs (smallValue r))
                       (filter (fallsInto "A-correct") smallRows)) < 2 ^ 53)
    by (vm_compute; reflexivity).
  assert (H6 : forall r, In r smallRows -> ToNumber (column r) <> Infinity).
  { intros r [<-|[<-|[]]]; vm_compute; discriminate. }
  repeat (split; [assumption|]).
  exact (posted_stdev_of_integer_bucket stableSort H1 false smallRows
           (VStr "t1") smallEvents "A-correct" smallValue H2 H3 H4 H5 H6).
Defined.

Lemma round_aux_not_negative m e l :
  ltb (binary_round_aux prec emax false m e l) (S754_zero false) = false.
Proof.
  unfold binary_round_aux.
  destruct (shr_fexp prec emax m e l) as [mrs' e'].
  destruct (shr_fexp prec emax _ e' loc_Exact) as [mrs'' e''].
  destruct (shr_m mrs''); try reflexivity.
  now destruct (_ <=? _).
Qed.

Lemma sqrt_not_negative x : ltb (sqrt x) (S754_zero false) = false.
Proof.
  unfold sqrt, SFsqrt. destruct x as [s|[|]| |[|] m e]; try reflexivity.
  destruct (SFsqrt_core_binary prec emax (Z.pos m) e) as [[mz ez] lz].
  apply round_aux_not_negative.
Qed.

(** X19.  [calculateStdev] never returns a negative number: whatever its
    arguments, its result does not read as a number below zero. *)
Theorem stdev_is_never_negative :
  forall hasNegInf hasPosInf variance size,
  ltb (ToNumber (calculateStdev hasNegInf hasPosInf variance size))
      (S754_zero false) = false.
Proof.
  intros hasNegInf hasPosInf variance size. unfold calculateStdev.
  destruct (hasNegInf && hasPosInf); [reflexivity|].
  destruct (hasNegInf || hasPosInf); [reflexivity|].
  apply sqrt_not_negative.
Qed.

(** X20.  For a bucket whose rows do not poison it, the posted [min] and
    [max] are the texts of bounds of the rows of the bucket that read as
    numbers: no such row reads below the one or above the other, and both
    are values of such rows, or ["Infinity"] and ["-Infinity"] when the
    bucket has no such row. *)
Theorem posted_bounds_of_bucket :
  forall array_sort,
  (forall cmp l, Permutation (array_sort cmp l) l) ->
  forall mocked copy tx evs key,
  summarize array_sort mocked copy tx = Ok evs ->
  (forall r, In r copy -> fallsInto key r = true -> itemIsNaN r = false) ->
  filter (fallsInto key) copy <> [] ->
  exists result stats b,
    evs = postResult mocked result tx /\
    obj_get result key = Some (JObject stats) /\
    fieldText (Stats.min b) stats "min" /\
    fieldText (Stats.max b) stats "max" /\
    withinBounds key copy b.
Proof.
  intros array_sort Hsort mocked copy tx evs key H Hrows Hne.
  destruct copy as [|first rest]; [now elim Hne|].
  apply summarize_bucket in H as (low & high & acc & result & H1 & -> & Hres).
  set (sorted := array_sort compareRows (first :: rest)) in *.
  assert (Hperm : Permutation sorted (first :: rest)) by apply Hsort.
  assert (Hrows' : forall r, In r sorted -> fallsInto key r = true ->
            itemIsNaN r = false).
  { intros r Hin. apply Hrows. eapply Permutation_in; eassumption. }
  apply (filter_perm_nonempty _ _ _ (Permutation_sym Hperm)) in Hne.
  destruct (bucketLoop_exists _ _ _ _ key H1 Hrows' Hne) as (Hskip & b & Hb).
  destruct (Hres key b Hb Hskip)
    as (b1 & stats & Hstep & Hstats & _ & _ & Fmax & _ & Fmin).
  apply meanMedianStep_only in Hstep. unfold sameButMean in Hstep.
  rewrite Hstep in Fmax, Fmin. stats_cbn.
  exists result, stats, b.
  split; [reflexivity|]. split; [exact Hstats|].
  split; [exact Fmin|]. split; [exact Fmax|].
  apply (withinBounds_ext key sorted (first :: rest));
    [|exact (bucketLoop_bounds _ _ _ _ key b H1 Hb Hskip)].
  intros x. split; apply Permutation_in;
    [exact Hperm|apply Permutation_sym, Hperm].
Qed.

Lemma posted_bounds_of_bucket_witness :
  (forall cmp l, Permutation (stableSort cmp l) l) /\
  summarize stableSort false smallRows (VStr "t1") = Ok smallEvents /\
  (forall r, In r smallRows -> fallsInto "A-correct" r = true ->
     itemIsNaN r = false) /\
  filter (fallsInto "A-correct") smallRows <> [] /\
  exists result stats b,
    smallEvents = postResult false result (VStr "t1") /\
    obj_get result "A-correct" = Some (JObject stats) /\
    fieldText (Stats.min b) stats "min" /\
    fieldText (Stats.max b) stats "max" /\
    withinBounds "A-correct" smallRows b.
Proof.
  assert (H1 : forall cmp l, Permutation (stableSort cmp l) l)
    by exact stableSort_perm.
  assert (H2 : summarize stableSort false smallRows (VStr "t1")
               = Ok smallEvents) by (vm_compute; reflexivity).
  assert (H3 : forall r, In r smallRows -> fallsInto "A-correct" r = true ->
            itemIsNaN r = false).
  { intros r [<-|[<-|[]]] _; vm_compute; reflexivity. }
  assert (H4 : filter (fallsInto "A-correct") smallRows <> [])
    by (vm_compute; discriminate).
  repeat (split; [assumption|]).
  exact (posted_bounds_of_bucket stableSort H1 false smallRows (VStr "t1")
           smallEvents "A-correct" H2 H3 H4).
Defined.
